(** * pysvgchart: axis limits, coordinate mapping and element composition

    A shallow embedding of [pysvgchart/pysvgchart.py].

    Modelling conventions.
    - Python [int] and [float] values are exact rationals ([Q]); rounding of
      binary floating point is not part of the model.  [math.log10] is
      real-valued, so the two uses the code makes of it are modelled exactly:
      [int(math.log10(a))] as [int_log10 a] and a comparison
      [math.log10(a) < t] with a rational [t] as [log10_ltb a t].
    - Exceptions are values of [exn]; a function that may raise returns a
      [result].
    - [datetime.date] is a record of year, month and day; [datetime.datetime]
      adds the microseconds elapsed since midnight.  The year range of the
      [datetime] module (1..9999) is not modelled.
    - A [dict] is an association list in insertion order.
    - [math.sqrt], used by [path_length] alone, is the square root of the
      real numbers. *)

From Stdlib Require Import ZArith QArith Qround Qabs Qpower List String Ascii Bool Lia.
From Stdlib Require Import DecimalString Sorted Lqa.
From Stdlib Require Reals Rgeom Qreals.
Import ListNotations.

Local Open Scope Z_scope.

(** ** Exceptions *)

(** The exceptions the code can raise.  [RecursionError] stands for a loop
    that does not end within its fuel; [get_big_date_limits_ticks] shows
    that the one loop with fuel always ends. *)
Inductive exn : Type :=
| ValueError (msg : string)
| ZeroDivisionError
| IndexError
| TypeError
| AttributeError
| RecursionError.

Inductive result (A : Type) : Type :=
| Ok (a : A)
| Raise (e : exn).

Arguments Ok {A} a.
Arguments Raise {A} e.

Definition bind {A B : Type} (r : result A) (k : A -> result B) : result B :=
  match r with
  | Ok a => k a
  | Raise e => Raise e
  end.

Notation "x <- r ;; k" := (bind r (fun x => k))
  (at level 61, r at next level, right associativity).

Fixpoint mapM {A B : Type} (f : A -> result B) (l : list A) : result (list B) :=
  match l with
  | [] => Ok []
  | a :: l' => b <- f a ;; bs <- mapM f l' ;; Ok (b :: bs)
  end.

(** ** Numbers *)

Definition Qltb (x y : Q) : bool := negb (Qle_bool y x).

(** [min(values)] and [max(values)] on a non-empty sequence [v :: vs]: the
    first smallest (largest) element. *)
Definition q_min (v : Q) (vs : list Q) : Q :=
  fold_left (fun m x => if Qltb x m then x else m) vs v.

Definition q_max (v : Q) (vs : list Q) : Q :=
  fold_left (fun m x => if Qltb m x then x else m) vs v.

(** [range(lo, hi)] *)
Definition range (lo hi : Z) : list Z :=
  map (fun i => lo + Z.of_nat i) (seq 0 (Z.to_nat (hi - lo))).

(** Number of decimal digits of [n] minus one, that is [floor(log10 n)],
    for [1 <= n]. *)
Fixpoint ilog10_aux (fuel : nat) (n : Z) : Z :=
  match fuel with
  | O => 0
  | S fuel' => if n <? 10 then 0 else 1 + ilog10_aux fuel' (n / 10)
  end.

Definition ilog10 (n : Z) : Z := ilog10_aux (S (Z.to_nat (Z.log2 n))) n.

(** [int(math.log10(a))] for [0 < a]: [int] truncates toward zero, so the
    result is [floor(log10 a)] when [1 <= a] and [ceil(log10 a)], that is
    [- floor(log10 (1/a))], when [a < 1]. *)
Definition int_log10 (a : Q) : Z :=
  if Qle_bool 1 a then ilog10 (Qfloor a) else - ilog10 (Qfloor (/ a)).

(** [math.floor(math.log10(a))] for [0 < a]; the code never calls it, the
    description of the step rule does. *)
Definition floor_log10 (a : Q) : Z :=
  if Qle_bool 1 a then ilog10 (Qfloor a)
  else
    let k := ilog10 (Qfloor (/ a)) in
    if Qeq_bool (/ a) (inject_Z (10 ^ k)) then - k else - k - 1.

(** [math.log10(a) < t] for [0 < a] and [t = n/d]: [a^d < 10^n]. *)
Definition log10_ltb (a t : Q) : bool :=
  Qltb (Qpower a (Zpos (Qden t))) (Qpower (10 # 1) (Qnum t)).

(** ** [get_numeric_limits] *)

(** [2 if remainder < 0.301 else (5 if remainder < 0.698 else 10)] with
    [remainder = math.log10(a) - m]. *)
Definition leader_of (a : Q) (m : Z) : Q :=
  if log10_ltb a (inject_Z m + (301 # 1000)) then 2 # 1
  else if log10_ltb a (inject_Z m + (698 # 1000)) then 5 # 1
  else 10 # 1.

Definition get_numeric_limits (values : list Q) (max_ticks : Z) : result (list Q) :=
  match values with
  | [] => Raise (ValueError "min() arg is an empty sequence")
  | v :: vs =>
      let value_min := q_min v vs in
      let value_max := q_max v vs in
      if max_ticks =? 0 then Raise ZeroDivisionError
      else
        let raw_pad :=
          (((12 # 10) * value_max - (95 # 100) * value_min) / inject_Z max_ticks)%Q in
        if Qeq_bool (Qabs raw_pad) 0 then Raise (ValueError "math domain error")
        else
          let m := int_log10 (Qabs raw_pad) in
          let leader := leader_of (Qabs raw_pad) m in
          let pad := (leader * Qpower (10 # 1) m)%Q in
          let start := Qfloor ((95 # 100) * value_min / pad) in
          let end_ := Qceiling ((12 # 10) * value_max / pad) in
          Ok (map (fun y => (inject_Z y * pad)%Q) (range start (end_ + 1)))
  end.

(** ** Dates *)

Record date : Type := mkdate { year : Z; month : Z; day : Z }.

(** What [isinstance(v, dt.date)] accepts: a [date], or a [datetime] with
    the microseconds elapsed since midnight. *)
Inductive datelike : Type :=
| DDate (d : date)
| DDateTime (d : date) (us : Z).

Definition date_of (x : datelike) : date :=
  match x with DDate d => d | DDateTime d _ => d end.

Definition is_leap (y : Z) : bool :=
  (y mod 4 =? 0) && (negb (y mod 100 =? 0) || (y mod 400 =? 0)).

Definition days_in_month (y m : Z) : Z :=
  if m =? 2 then (if is_leap y then 29 else 28)
  else if (m =? 4) || (m =? 6) || (m =? 9) || (m =? 11) then 30
  else 31.

Definition days_before_year (y : Z) : Z :=
  (y - 1) * 365 + (y - 1) / 4 - (y - 1) / 100 + (y - 1) / 400.

Definition days_before_month (y m : Z) : Z :=
  fold_right Z.add 0 (map (days_in_month y) (range 1 m)).

(** [date.toordinal()] *)
Definition toordinal (d : date) : Z :=
  days_before_year (year d) + days_before_month (year d) (month d) + day d.

Definition well_formed (d : date) : Prop :=
  1 <= month d <= 12 /\ 1 <= day d <= days_in_month (year d) (month d).

(** Comparison of two dates, as tuples (year, month, day). *)
Definition date_ltb (a b : date) : bool :=
  (year a <? year b)
  || ((year a =? year b)
      && ((month a <? month b) || ((month a =? month b) && (day a <? day b)))).

Definition date_leb (a b : date) : bool := negb (date_ltb b a).

Definition date_eqb (a b : date) : bool :=
  (year a =? year b) && (month a =? month b) && (day a =? day b).

(** [a < b] on date-like values; ordering a [date] against a [datetime]
    raises [TypeError]. *)
Definition datelike_ltb (a b : datelike) : result bool :=
  match a, b with
  | DDate x, DDate y => Ok (date_ltb x y)
  | DDateTime x s, DDateTime y t =>
      Ok (date_ltb x y || (date_eqb x y && (s <? t)))
  | _, _ => Raise TypeError
  end.

Fixpoint datelike_min (v : datelike) (vs : list datelike) : result datelike :=
  match vs with
  | [] => Ok v
  | x :: vs' => b <- datelike_ltb x v ;; datelike_min (if b then x else v) vs'
  end.

Fixpoint datelike_max (v : datelike) (vs : list datelike) : result datelike :=
  match vs with
  | [] => Ok v
  | x :: vs' => b <- datelike_ltb v x ;; datelike_max (if b then x else v) vs'
  end.

Definition us_per_day : Z := 86400000000.

(** [(b - a).days] *)
Definition days_between (a b : datelike) : result Z :=
  match a, b with
  | DDate x, DDate y => Ok (toordinal y - toordinal x)
  | DDateTime x s, DDateTime y t =>
      Ok (((toordinal y - toordinal x) * us_per_day + (t - s)) / us_per_day)
  | _, _ => Raise TypeError
  end.

(** The day after [d]. *)
Definition next_day (d : date) : date :=
  if day d <? days_in_month (year d) (month d)
  then mkdate (year d) (month d) (day d + 1)
  else if month d <? 12 then mkdate (year d) (month d + 1) 1
  else mkdate (year d + 1) 1 1.

(** [d + dt.timedelta(days=n)] *)
Definition add_days (d : date) (n : nat) : date := Nat.iter n next_day d.

(** ** [get_big_date_limits] *)

Definition interval_of (raw_interval : Q) : Z :=
  if Qle_bool raw_interval 1 then 1
  else if Qle_bool raw_interval 2 then 2
  else if Qle_bool raw_interval 3 then 3
  else if Qle_bool raw_interval 6 then 6
  else 12.

(** The tick that follows [current_tick], [interval_months] later. *)
Definition next_tick (interval_months : Z) (current_tick : date) : date :=
  let month0 := month current_tick + interval_months in
  let year' := year current_tick + (month0 - 1) / 12 in
  let month' := (month0 - 1) mod 12 + 1 in
  mkdate year' month' 1.

(** The [while current_tick <= end] loop; [None] when [fuel] iterations do
    not reach the exit. *)
Fixpoint ticks_loop (fuel : nat) (interval_months : Z) (end_ : date)
    (current_tick : date) : option (list date) :=
  match fuel with
  | O => None
  | S fuel' =>
      if date_leb current_tick end_
      then option_map (cons current_tick)
             (ticks_loop fuel' interval_months end_ (next_tick interval_months current_tick))
      else Some []
  end.

Definition month_index (d : date) : Z := 12 * year d + (month d - 1).

Definition get_big_date_limits (dates : list datelike) (max_ticks : Z)
  : result (list date) :=
  match dates with
  | [] => Raise (ValueError "min() arg is an empty sequence")
  | v :: vs =>
      date_min <- datelike_min v vs ;;
      date_max <- datelike_max v vs ;;
      total_days <- days_between date_min date_max ;;
      if total_days <=? 0 then Raise (ValueError "Dates must have a positive range.")
      else if max_ticks =? 0 then Raise ZeroDivisionError
      else
        let approx_months := (inject_Z total_days / 30)%Q in
        let raw_interval := (approx_months / inject_Z max_ticks)%Q in
        let interval_months := interval_of raw_interval in
        let start := mkdate (year (date_of date_min)) (month (date_of date_min)) 1 in
        let end0 :=
          add_days (mkdate (year (date_of date_max)) (month (date_of date_max)) 1) 31 in
        let end_ := mkdate (year end0) (month end0) 1 in
        match ticks_loop (Z.to_nat (month_index end_ - month_index start + 2))
                interval_months end_ start with
        | Some ticks => Ok ticks
        | None => Raise RecursionError
        end
  end.

(** ** [get_limits] *)

Inductive value : Type :=
| VInt (z : Z)
| VFloat (q : Q)
| VDate (d : date)
| VDateTime (d : date) (us : Z)
| VStr (s : string).

(** A tick value: a number or a date. *)
Inductive tick : Type :=
| TNum (q : Q)
| TDate (d : date).

(** [isinstance(v, int) or isinstance(v, float)], with the number. *)
Definition number_of (v : value) : option Q :=
  match v with
  | VInt z => Some (inject_Z z)
  | VFloat q => Some q
  | _ => None
  end.

(** [isinstance(v, dt.datetime) or isinstance(v, dt.date)], with the date. *)
Definition datelike_of (v : value) : option datelike :=
  match v with
  | VDate d => Some (DDate d)
  | VDateTime d us => Some (DDateTime d us)
  | _ => None
  end.

Definition is_number (v : value) : bool :=
  match number_of v with Some _ => true | None => false end.

Definition is_datelike (v : value) : bool :=
  match datelike_of v with Some _ => true | None => false end.

Fixpoint choose {A B : Type} (f : A -> option B) (l : list A) : list B :=
  match l with
  | [] => []
  | a :: l' => match f a with Some b => b :: choose f l' | None => choose f l' end
  end.

(** [a == b], the equality [set] uses: numbers by value, a [date] never
    equal to a [datetime]. *)
Definition py_eqb (a b : value) : bool :=
  match a, b with
  | VDate x, VDate y => date_eqb x y
  | VDateTime x s, VDateTime y t => date_eqb x y && (s =? t)
  | VStr x, VStr y => String.eqb x y
  | _, _ =>
      match number_of a, number_of b with
      | Some x, Some y => Qeq_bool x y
      | _, _ => false
      end
  end.

(** The elements of [set(values)]. *)
Fixpoint set_of (values : list value) : list value :=
  match values with
  | [] => []
  | v :: values' =>
      let s := set_of values' in
      if existsb (py_eqb v) s then s else v :: s
  end.

Definition get_limits (values : list value) (max_ticks : Z) : result (list tick) :=
  if (Z.of_nat (List.length (set_of values)) <=? 1)
  then Raise (ValueError "Values must be a non-empty iterable with at least two unique elements.")
  else if forallb is_datelike values
  then ticks <- get_big_date_limits (choose datelike_of values) max_ticks ;;
       Ok (map TDate ticks)
  else if forallb is_number values
  then ticks <- get_numeric_limits (choose number_of values) max_ticks ;;
       Ok (map TNum ticks)
  else Raise (ValueError "Invalid numeric data").

(** ** Shapes *)

Record Point : Type := mkPoint { x : Q; y : Q }.

(** A style [dict]: attribute names and values in insertion order. *)
Definition dict (V : Type) : Type := list (string * V).

Fixpoint dict_set {V : Type} (d : dict V) (k : string) (v : V) : dict V :=
  match d with
  | [] => [(k, v)]
  | (k', v') :: d' =>
      if String.eqb k' k then (k', v) :: d' else (k', v') :: dict_set d' k v
  end.

Definition dict_of {V : Type} (items : list (string * V)) : dict V :=
  fold_left (fun d kv => dict_set d (fst kv) (snd kv)) items [].

Record Shape : Type := mkShape { position : Point; styles : dict string }.

Definition Shape_init (x_position y_position : Q) : Shape :=
  mkShape (mkPoint x_position y_position) [].

Definition with_styles (s : Shape) (st : dict string) : Shape :=
  mkShape (position s) st.

Record Line : Type := mkLine { Line_shape : Shape; end_ : Point }.

Definition Line_init (x_position y_position width height : Q)
    (styles : option (dict string)) : Line :=
  mkLine
    (with_styles (Shape_init x_position y_position)
       (match styles with None => [] | Some st => st end))
    (mkPoint (x_position + width) (y_position + height))%Q.

Definition start (l : Line) : Point := position (Line_shape l).

Record Circle : Type := mkCircle { Circle_shape : Shape; radius : Q }.

Definition Circle_init (x_position y_position radius : Q)
    (styles : option (dict string)) : Circle :=
  mkCircle
    (with_styles (Shape_init x_position y_position)
       (match styles with None => [] | Some st => st end))
    radius.

Record Text : Type := mkText { Text_shape : Shape; content : string }.

Definition Text_init (x_position y_position : Q) (content : string)
    (styles : option (dict string)) : Text :=
  mkText
    (with_styles (Shape_init x_position y_position)
       (match styles with None => [] | Some st => st end))
    content.

Record SimpleLineSeries : Type :=
  mkSeries { Series_shape : Shape; points : list Point }.

Definition path_default_styles : dict string := [("stroke-width", "2")]%string.

Definition SimpleLineSeries_init (points : list Point) : result SimpleLineSeries :=
  match points with
  | [] => Raise IndexError
  | p :: _ => Ok (mkSeries (with_styles (Shape_init (x p) (y p)) path_default_styles) points)
  end.

(** ** Axes *)

Record Axis : Type := mkAxis {
  Axis_shape : Shape;
  data_points : list value;
  length : Q;
  limits : list tick;
  label_format : tick -> string;
  axis_line : option Line;
  tick_lines : list Line;
  tick_text : list Text;
  grid_lines : list Line
}.

Definition default_axis_styles : dict string := [("stroke", "#2e2e2c")]%string.

Definition Axis_init (x_position y_position : Q) (data_points : list value)
    (axis_length : Q) (label_format : tick -> string) (max_ticks : Z) : result Axis :=
  limits <- get_limits data_points max_ticks ;;
  Ok (mkAxis (Shape_init x_position y_position) data_points axis_length limits
        label_format None [] [] []).

Definition set_axis_line (a : Axis) (l : option Line) : Axis :=
  mkAxis (Axis_shape a) (data_points a) (length a) (limits a) (label_format a)
    l (tick_lines a) (tick_text a) (grid_lines a).

Definition append_tick (a : Axis) (l : Line) (t : Text) : Axis :=
  mkAxis (Axis_shape a) (data_points a) (length a) (limits a) (label_format a)
    (axis_line a) (tick_lines a ++ [l]) (tick_text a ++ [t]) (grid_lines a).

Definition append_grid_line (a : Axis) (l : Line) : Axis :=
  mkAxis (Axis_shape a) (data_points a) (length a) (limits a) (label_format a)
    (axis_line a) (tick_lines a) (tick_text a) (grid_lines a ++ [l]).

(** [n / d] *)
Definition py_div (n d : Q) : result Q :=
  if Qeq_bool d 0 then Raise ZeroDivisionError else Ok (n / d)%Q.

Definition enumerate {A : Type} (l : list A) : list (Z * A) :=
  combine (range 0 (Z.of_nat (List.length l))) l.

(** A [for] loop that threads a state and stops at the first exception. *)
Fixpoint for_each {A S : Type} (l : list A) (body : S -> A -> result S) (s : S)
  : result S :=
  match l with
  | [] => Ok s
  | a :: l' => s' <- body s a ;; for_each l' body s'
  end.

Definition len {A : Type} (l : list A) : Q := inject_Z (Z.of_nat (List.length l)).

(** [tick - min(limits)] and [max(limits) - min(limits)] as a number: the
    difference of two numbers, or the days between two dates. *)
Definition tick_sub (a b : tick) : result Q :=
  match a, b with
  | TNum p, TNum q => Ok (p - q)%Q
  | TDate d, TDate e => Ok (inject_Z (toordinal d - toordinal e))
  | _, _ => Raise TypeError
  end.

Definition tick_ltb (a b : tick) : result bool :=
  match a, b with
  | TNum p, TNum q => Ok (Qltb p q)
  | TDate d, TDate e => Ok (date_ltb d e)
  | _, _ => Raise TypeError
  end.

Fixpoint tick_min_from (v : tick) (vs : list tick) : result tick :=
  match vs with
  | [] => Ok v
  | t :: vs' => b <- tick_ltb t v ;; tick_min_from (if b then t else v) vs'
  end.

Fixpoint tick_max_from (v : tick) (vs : list tick) : result tick :=
  match vs with
  | [] => Ok v
  | t :: vs' => b <- tick_ltb v t ;; tick_max_from (if b then t else v) vs'
  end.

Definition tick_min (l : list tick) : result tick :=
  match l with
  | [] => Raise (ValueError "min() arg is an empty sequence")
  | v :: vs => tick_min_from v vs
  end.

Definition tick_max (l : list tick) : result tick :=
  match l with
  | [] => Raise (ValueError "max() arg is an empty sequence")
  | v :: vs => tick_max_from v vs
  end.

Definition proportion_of_range (a : Axis) (value : tick) : result Q :=
  lo <- tick_min (limits a) ;;
  num <- tick_sub value lo ;;
  hi <- tick_max (limits a) ;;
  lo' <- tick_min (limits a) ;;
  den <- tick_sub hi lo' ;;
  py_div num den.

Definition XAxis_tick_text_styles : dict string :=
  [("text-anchor", "middle"); ("dominant-baseline", "hanging")]%string.

Definition YAxis_tick_text_styles : dict string :=
  [("text-anchor", "end"); ("dominant-baseline", "middle")]%string.

(** [axis_styles or self.default_axis_styles.copy()] *)
Definition styles_or_default (axis_styles : option (dict string)) : dict string :=
  match axis_styles with
  | Some (kv :: st) => kv :: st
  | _ => default_axis_styles
  end.

Definition XAxis_init (x_position y_position : Q) (data_points : list value)
    (axis_length : Q) (label_format : tick -> string) (max_ticks : Z)
    (axis_styles : option (dict string)) (tick_length : Q) : result Axis :=
  self <- Axis_init x_position y_position data_points axis_length label_format max_ticks ;;
  let styles := styles_or_default axis_styles in
  let self := set_axis_line self
    (Some (Line_init (x (position (Axis_shape self))) (y (position (Axis_shape self)))
             axis_length 0 (Some styles))) in
  for_each (enumerate (limits self))
    (fun self im =>
       let '(i, m) := im in
       q <- py_div (inject_Z i * length self) (len (limits self) - 1) ;;
       let width_offset := (q + x (position (Axis_shape self)))%Q in
       Ok (append_tick self
             (Line_init width_offset (y (position (Axis_shape self))) 0 tick_length
                (Some styles))
             (Text_init width_offset
                (y (position (Axis_shape self)) + 2 * tick_length)%Q
                (label_format m) (Some XAxis_tick_text_styles))))
    self.

Definition YAxis_init (x_position y_position : Q) (data_points : list value)
    (axis_length : Q) (label_format : tick -> string) (max_ticks : Z)
    (axis_styles : option (dict string)) (tick_length : Q) : result Axis :=
  self <- Axis_init x_position y_position data_points axis_length label_format max_ticks ;;
  let styles := styles_or_default axis_styles in
  let self := set_axis_line self
    (Some (Line_init (x (position (Axis_shape self))) (y (position (Axis_shape self)))
             0 axis_length (Some styles))) in
  for_each (enumerate (limits self))
    (fun self im =>
       let '(i, m) := im in
       q <- py_div ((len (limits self) - 1 - inject_Z i) * length self)
              (len (limits self) - 1) ;;
       let height_offset := (q + y (position (Axis_shape self)))%Q in
       Ok (append_tick self
             (Line_init (x (position (Axis_shape self)) - tick_length)%Q height_offset
                tick_length 0 (Some styles))
             (Text_init (x (position (Axis_shape self)) - 2 * tick_length)%Q
                height_offset (label_format m) (Some YAxis_tick_text_styles))))
    self.

(** The argument of [proportion_of_range] for a data value. *)
Definition tick_of (v : value) : result tick :=
  match v with
  | VInt z => Ok (TNum (inject_Z z))
  | VFloat q => Ok (TNum q)
  | VDate d => Ok (TDate d)
  | _ => Raise TypeError
  end.

Definition XAxis_get_positions (self : Axis) (values : list value) : result (list Q) :=
  mapM (fun v => t <- tick_of v ;; p <- proportion_of_range self t ;;
                 Ok (x (position (Axis_shape self)) + p * length self)%Q) values.

Definition YAxis_get_positions (self : Axis) (values : list value) : result (list Q) :=
  mapM (fun v => t <- tick_of v ;; p <- proportion_of_range self t ;;
                 Ok (y (position (Axis_shape self)) + length self * (1 - p))%Q) values.

Definition SimpleXAxis_get_positions (self : Axis) (x_values : list value)
  : result (list Q) :=
  mapM (fun i => q <- py_div (inject_Z i * length self) (len x_values - 1) ;;
                 Ok (x (position (Axis_shape self)) + q)%Q)
    (range 0 (Z.of_nat (List.length x_values))).

(** ** Legend and chart *)

Record LineLegend : Type := mkLegend {
  Legend_shape : Shape;
  legend_series : dict SimpleLineSeries;
  lines : list Line;
  texts : list Text
}.

Definition default_line_legend_text_styles : dict string :=
  [("alignment-baseline", "middle")]%string.

Definition LineLegend_init (x_position y_position : Q) (series : dict SimpleLineSeries)
    (element_x element_y line_length line_text_gap : Q) : LineLegend :=
  let self := mkLegend (Shape_init x_position y_position) series [] [] in
  fst (fst
    (fold_left
       (fun st ns =>
          let '(self, x_pos, y_pos) := st in
          (mkLegend (Legend_shape self) (legend_series self)
             (lines self ++
                [Line_init x_pos y_pos line_length 0
                   (Some (styles (Series_shape (snd ns))))])
             (texts self ++
                [Text_init (x_pos + line_length + line_text_gap)%Q y_pos (fst ns)
                   (Some default_line_legend_text_styles)]),
           (x_pos + element_x)%Q, (y_pos + element_y)%Q))
       series
       (self, x (position (Legend_shape self)), y (position (Legend_shape self))))).

(** What [add_custom_element] accepts: any of the drawable primitives. *)
Inductive Element : Type :=
| ELine (l : Line)
| ECircle (c : Circle)
| EText (t : Text)
| EPath (s : SimpleLineSeries).

Record Chart : Type := mkChart {
  height : Q;
  width : Q;
  y_axis : option Axis;
  x_axis : option Axis;
  legend : option LineLegend;
  series : dict SimpleLineSeries;
  custom_elements : list Element
}.

Definition Chart_init (height width : Q) : Chart :=
  mkChart height width None None None [] [].

Definition add_custom_element (self : Chart) (custom_element : Element) : Chart :=
  mkChart (height self) (width self) (y_axis self) (x_axis self) (legend self)
    (series self) (custom_elements self ++ [custom_element]).

Definition set_axes (self : Chart) (ya xa : Axis) : Chart :=
  mkChart (height self) (width self) (Some ya) (Some xa) (legend self)
    (series self) (custom_elements self).

Definition default_major_grid_styles : dict string := [("stroke", "#2e2e2c")]%string.

Definition default_minor_grid_styles : dict string :=
  [("stroke", "#2e2e2c"); ("stroke-width", "0.4")]%string.

Definition style_or (st : option (dict string)) (default : dict string) : dict string :=
  match st with Some s => s | None => default end.

(** The two axes of a chart, as the grid methods read [self.x_axis] and
    [self.y_axis]. *)
Definition axes (self : Chart) : result (Axis * Axis) :=
  match x_axis self, y_axis self with
  | Some xa, Some ya => Ok (xa, ya)
  | _, _ => Raise AttributeError
  end.

(** The state of the grid loops is the pair (x axis, y axis). *)
Definition add_y_grid (self : Chart) (minor_ticks : Z)
    (major_grid_style minor_grid_style : option (dict string)) : result Chart :=
  let major_style := style_or major_grid_style default_major_grid_styles in
  let minor_style := style_or minor_grid_style default_minor_grid_styles in
  match x_axis self with
  | None => Raise AttributeError
  | Some xa0 =>
      st <- for_each (enumerate (tl (limits xa0)))
        (fun st im =>
           let '(i, m) := im in
           xy <- match st with
                 | (xa, Some ya) => Ok (xa, ya)
                 | (_, None) => Raise AttributeError
                 end ;;
           let '(xa, ya) := xy in
           q <- py_div ((inject_Z i + 1) * length xa) (len (limits xa) - 1) ;;
           let width_offset := (q + x (position (Axis_shape ya)))%Q in
           let ya := append_grid_line ya
             (Line_init width_offset (y (position (Axis_shape xa)) - length ya)%Q
                0 (length ya) (Some major_style)) in
           q1 <- py_div (length xa) (len (limits xa) - 1) ;;
           minor_step <- py_div q1 (inject_Z minor_ticks + 1) ;;
           let ya := fold_left
             (fun ya j =>
                let minor_offset := (width_offset - inject_Z j * minor_step)%Q in
                append_grid_line ya
                  (Line_init minor_offset (y (position (Axis_shape xa)) - length ya)%Q
                     0 (length ya) (Some minor_style)))
             (range 1 (minor_ticks + 1)) ya in
           Ok (xa, Some ya))
        (xa0, y_axis self) ;;
      Ok (mkChart (height self) (width self) (snd st) (Some (fst st)) (legend self)
            (series self) (custom_elements self))
  end.

Definition add_x_grid (self : Chart) (minor_ticks : Z)
    (major_grid_style minor_grid_style : option (dict string)) : result Chart :=
  let major_style := style_or major_grid_style default_major_grid_styles in
  let minor_style := style_or minor_grid_style default_minor_grid_styles in
  match y_axis self with
  | None => Raise AttributeError
  | Some ya0 =>
      st <- for_each (enumerate (tl (limits ya0)))
        (fun st im =>
           let '(i, m) := im in
           xy <- match st with
                 | (Some xa, ya) => Ok (xa, ya)
                 | (None, _) => Raise AttributeError
                 end ;;
           let '(xa, ya) := xy in
           q <- py_div ((len (limits ya) - 2 - inject_Z i) * length ya)
                  (len (limits ya) - 1) ;;
           let height_offset := (q + y (position (Axis_shape xa)))%Q in
           let xa := append_grid_line xa
             (Line_init (x (position (Axis_shape ya))) (height_offset - length ya)%Q
                (length xa) 0 (Some major_style)) in
           q1 <- py_div (length ya) (len (limits ya) - 1) ;;
           minor_step <- py_div q1 (inject_Z minor_ticks + 1) ;;
           let ya := fold_left
             (fun ya j =>
                let minor_offset := (height_offset + inject_Z j * minor_step)%Q in
                append_grid_line ya
                  (Line_init (x (position (Axis_shape ya))) (minor_offset - length ya)%Q
                     (length xa) 0 (Some minor_style)))
             (range 1 (minor_ticks + 1)) ya in
           Ok (Some xa, ya))
        (x_axis self, ya0) ;;
      Ok (mkChart (height self) (width self) (Some (snd st)) (fst st) (legend self)
            (series self) (custom_elements self))
  end.


(** ** [SimpleLineChart] *)

Definition line_colour_defaults : list string := ["green"; "red"; "blue"]%string.

(** [str(n)] for a length. *)
Definition str_of_nat (n : nat) : string := NilEmpty.string_of_uint (Nat.to_uint n).

(** ['Series {0}'.format(range(len(y_values)))] *)
Definition default_series_name (y_values : list (list value)) : string :=
  ("Series range(0, " ++ str_of_nat (List.length y_values) ++ ")")%string.

Definition set_series_styles (s : SimpleLineSeries) (st : dict string) : SimpleLineSeries :=
  mkSeries (with_styles (Series_shape s) st) (points s).

(** The dict comprehension that builds [self.series]. *)
Definition build_series (xa ya : Axis) (x_values : list value)
    (series_names : list string) (y_values : list (list value))
  : result (dict SimpleLineSeries) :=
  for_each (combine series_names y_values)
    (fun d ny =>
       xs <- SimpleXAxis_get_positions xa x_values ;;
       ys <- YAxis_get_positions ya (snd ny) ;;
       s <- SimpleLineSeries_init (map (fun p => mkPoint (fst p) (snd p)) (combine xs ys)) ;;
       Ok (dict_set d (fst ny) s))
    [].

(** The loop that gives every series its default stroke colour. *)
Definition assign_colours (series : dict SimpleLineSeries)
  : result (dict SimpleLineSeries) :=
  for_each (enumerate (map fst series))
    (fun d ik =>
       let '(index, name) := ik in
       match nth_error line_colour_defaults (Z.to_nat index) with
       | None => Raise IndexError
       | Some colour =>
           Ok (map (fun ns =>
                      if String.eqb (fst ns) name
                      then (fst ns,
                            set_series_styles (snd ns)
                              (dict_set (styles (Series_shape (snd ns))) "stroke" colour))
                      else ns) d)
       end)
    series.

Definition SimpleLineChart_init (x_values : list value) (y_values : list (list value))
    (y_names : option (list string)) (x_max_ticks y_max_ticks : Z)
    (x_margin y_margin height width : Q) (x_labels y_labels : tick -> string)
  : result Chart :=
  let self := Chart_init height width in
  let series_names :=
    match y_names with
    | Some names => names
    | None => [default_series_name y_values]
    end in
  let all_y_values := List.concat y_values in
  ya <- YAxis_init x_margin y_margin all_y_values (height - 2 * y_margin)%Q y_labels
          y_max_ticks None 5 ;;
  xa <- XAxis_init x_margin (height - y_margin)%Q x_values (width - 2 * x_margin)%Q
          x_labels x_max_ticks None 5 ;;
  series <- build_series xa ya x_values series_names y_values ;;
  series <- assign_colours series ;;
  Ok (mkChart height width (Some ya) (Some xa) None series []).

Definition add_legend (self : Chart) (x_position y_position element_x element_y
    line_length line_text_gap : Q) : Chart :=
  mkChart (height self) (width self) (y_axis self) (x_axis self)
    (Some (LineLegend_init x_position y_position (series self) element_x element_y
             line_length line_text_gap))
    (series self) (custom_elements self).

(** ** Element lists *)

Definition dquote : string := String (ascii_of_nat 34) EmptyString.

Definition newline : string := String (ascii_of_nat 10) EmptyString.

(** [name="value"] *)
Definition attr (name v : string) : string :=
  (name ++ "=" ++ dquote ++ v ++ dquote)%string.

Definition render_styles (s : Shape) : string :=
  String.concat " " (map (fun kv => attr (fst kv) (snd kv)) (styles s)).

Definition collapse_element_list {A : Type} (get_element_list : A -> list string)
    (built_ins : list A) : list string :=
  flat_map get_element_list built_ins.

Definition safe_get_element_list {A : Type} (get_element_list : A -> list string)
    (built_in : option A) : list string :=
  match built_in with
  | Some b => get_element_list b
  | None => []
  end.

(** An entry of [targets] in [Chart.get_element_list]. *)
Inductive Target : Type :=
| TargetAxis (a : Axis)
| TargetLegend (l : LineLegend)
| TargetSeries (s : SimpleLineSeries)
| TargetElement (e : Element).

Section Rendering.

(** How [str.format] writes a number. *)
Variable fmt : Q -> string.

Definition line_fragment (l : Line) : string :=
  ("<line " ++ attr "x1" (fmt (x (start l))) ++ " " ++ attr "y1" (fmt (y (start l)))
    ++ " " ++ attr "x2" (fmt (x (end_ l))) ++ " " ++ attr "y2" (fmt (y (end_ l)))
    ++ " " ++ render_styles (Line_shape l) ++ "/>")%string.

Definition Line_get_element_list (l : Line) : list string := [line_fragment l].

Definition circle_fragment (c : Circle) : string :=
  ("<circle " ++ attr "cx" (fmt (x (position (Circle_shape c))))
    ++ " " ++ attr "cy" (fmt (y (position (Circle_shape c))))
    ++ " " ++ attr "r" (fmt (radius c))
    ++ " " ++ render_styles (Circle_shape c) ++ "/>")%string.

Definition Circle_get_element_list (c : Circle) : list string := [circle_fragment c].

Definition text_fragment (t : Text) : string :=
  ("<text " ++ attr "x" (fmt (x (position (Text_shape t))))
    ++ " " ++ attr "y" (fmt (y (position (Text_shape t))))
    ++ " " ++ render_styles (Text_shape t) ++ ">" ++ content t ++ "</text>")%string.

Definition Text_get_element_list (t : Text) : list string := [text_fragment t].

Definition path_of (points : list Point) : string :=
  String.concat " "
    (map (fun ip =>
            ((if Z.eqb (fst ip) 0 then "M" else "L") ++ " " ++ fmt (x (snd ip)) ++ " "
               ++ fmt (y (snd ip)))%string)
       (enumerate points)).

Definition path_fragment (s : SimpleLineSeries) : string :=
  ("<path " ++ attr "d" (path_of (points s)) ++ " " ++ attr "fill" "none" ++ " "
    ++ render_styles (Series_shape s) ++ "/>")%string.

Definition SimpleLineSeries_get_element_list (s : SimpleLineSeries) : list string :=
  [path_fragment s].

Definition Axis_get_element_list (self : Axis) : list string :=
  safe_get_element_list Line_get_element_list (axis_line self)
    ++ collapse_element_list Line_get_element_list (tick_lines self)
    ++ collapse_element_list Text_get_element_list (tick_text self)
    ++ collapse_element_list Line_get_element_list (grid_lines self).

Definition LineLegend_get_element_list (self : LineLegend) : list string :=
  collapse_element_list Line_get_element_list (lines self)
    ++ collapse_element_list Text_get_element_list (texts self).

Definition Element_get_element_list (e : Element) : list string :=
  match e with
  | ELine l => Line_get_element_list l
  | ECircle c => Circle_get_element_list c
  | EText t => Text_get_element_list t
  | EPath s => SimpleLineSeries_get_element_list s
  end.

Definition Target_get_element_list (t : Target) : list string :=
  match t with
  | TargetAxis a => Axis_get_element_list a
  | TargetLegend l => LineLegend_get_element_list l
  | TargetSeries s => SimpleLineSeries_get_element_list s
  | TargetElement e => Element_get_element_list e
  end.

Definition present {A : Type} (inj : A -> Target) (o : option A) : list Target :=
  match o with Some a => [inj a] | None => [] end.

Definition Chart_get_element_list (self : Chart) : list string :=
  let targets :=
    present TargetAxis (x_axis self) ++ present TargetAxis (y_axis self)
      ++ present TargetLegend (legend self) in
  let targets := targets ++ map (fun ns => TargetSeries (snd ns)) (series self) in
  let targets := targets ++ map TargetElement (custom_elements self) in
  flat_map Target_get_element_list targets.

Definition svg_begin (self : Chart) : string :=
  ("<svg " ++ attr "viewBox" ("0 0 " ++ fmt (width self) ++ " " ++ fmt (height self))
    ++ " " ++ attr "xmlns" "http://www.w3.org/2000/svg" ++ ">")%string.

Definition render (self : Chart) : string :=
  String.concat newline ([svg_begin self] ++ Chart_get_element_list self ++ ["</svg>"%string]).

End Rendering.

(** ** The length of a path *)

Section PathLength.

Import Reals Qreals.
Local Open Scope R_scope.

(** [math.sqrt((p2.x - p1.x) ** 2 + (p2.y - p1.y) ** 2)] *)
Definition segment_length (p1 p2 : Point) : R :=
  sqrt (Q2R ((x p2 - x p1) ^ 2 + (y p2 - y p1) ^ 2)%Q).

(** [sum(... for p1, p2 in zip(self.points, self.points[1:]))
    if len(self.points) > 2 else 0] *)
Definition path_length (self : SimpleLineSeries) : R :=
  if (2 <? List.length (points self))%nat
  then fold_left Rplus
         (map (fun pp => segment_length (fst pp) (snd pp))
            (combine (points self) (tl (points self))))
         0
  else 0.

End PathLength.

(** ** The step rule as the description of the algorithm words it *)

(** [step = leader * 10^m] with [m = floor(log10 |rawStep|)],
    [r = log10 |rawStep| - m], and [leader] 2 if [r < 0.301], 5 if
    [r < 0.698], 10 otherwise. *)
Definition described_step (raw_step : Q) : Q :=
  let m := floor_log10 (Qabs raw_step) in
  (leader_of (Qabs raw_step) m * Qpower (10 # 1) m)%Q.

Definition raw_step_of (value_min value_max : Q) (max_ticks : Z) : Q :=
  (((12 # 10) * value_max - (95 # 100) * value_min) / inject_Z max_ticks)%Q.

(** The smallest candidate of 1, 2, 3, 6, 12 months that is at least
    [raw_interval], 12 when there is none. *)
Definition smallest_candidate (raw_interval : Q) : Z :=
  match filter (fun c => Qle_bool raw_interval (inject_Z c)) [1; 2; 3; 6; 12] with
  | c :: _ => c
  | [] => 12
  end.

(** The first-of-month date at a month index. *)
Definition first_of_month (idx : Z) : date := mkdate (idx / 12) (idx mod 12 + 1) 1.

(** ** Notions used to state the properties *)

(** [a == b] on tick values. *)
Definition tick_eqb (a b : tick) : bool :=
  match a, b with
  | TNum p, TNum q => Qeq_bool p q
  | TDate d, TDate e => date_eqb d e
  | _, _ => false
  end.

(** [min] and [max] of dates, as [min(limits)] computes them. *)
Definition date_min (v : date) (vs : list date) : date :=
  fold_left (fun m d => if date_ltb d m then d else m) vs v.

Definition date_max (v : date) (vs : list date) : date :=
  fold_left (fun m d => if date_ltb m d then d else m) vs v.

(** [ym_le a b]: the month of [a] is not after the month of [b]. *)
Definition ym_le (a b : date) : Prop :=
  year a < year b \/ (year a = year b /\ month a <= month b).

(** [date_le a b]: [a] is not after [b]. *)
Definition date_le (a b : date) : Prop := date_ltb b a = false.


(** The ends of a line in lowest terms, with its styles. *)
Definition line_ends (l : Line) : Q * Q * Q * Q * dict string :=
  (Qred (x (start l)), Qred (y (start l)), Qred (x (end_ l)), Qred (y (end_ l)),
   styles (Line_shape l)).

(** The grid lines an axis of a chart owns. *)
Definition grid_of (a : option Axis) : list (Q * Q * Q * Q * dict string) :=
  match a with Some a => map line_ends (grid_lines a) | None => [] end.

(** An axis with more tick lines and tick labels at the end of its lists. *)
Definition extend_ticks (a : Axis) (tl : list Line) (tt : list Text) : Axis :=
  mkAxis (Axis_shape a) (data_points a) (length a) (limits a) (label_format a)
    (axis_line a) (tick_lines a ++ tl) (tick_text a ++ tt) (grid_lines a).

(** The rows of a legend: each series with the position [x_pos], [y_pos]
    the loop of [LineLegend] has reached when it draws it. *)
Fixpoint legend_rows (x_pos y_pos element_x element_y : Q)
    (series : dict SimpleLineSeries) : list (Q * Q * (string * SimpleLineSeries)) :=
  match series with
  | [] => []
  | ns :: series' =>
      (x_pos, y_pos, ns)
        :: legend_rows (x_pos + element_x)%Q (y_pos + element_y)%Q element_x element_y
             series'
  end.

(** A series with the default stroke [colour] set, as the loop of
    [SimpleLineChart] leaves it. *)
Definition coloured (colour : string) (ns : string * SimpleLineSeries)
  : string * SimpleLineSeries :=
  (fst ns,
   set_series_styles (snd ns) (dict_set (styles (Series_shape (snd ns))) "stroke" colour)).

(** ** Worked examples *)

(** The value of a computation that succeeds. *)
Definition value_of {A : Type} (r : result A) (default : A) : A :=
  match r with Ok a => a | Raise _ => default end.

Definition sample_label : tick -> string := fun _ => "tick"%string.

Definition sample_x_values : list value := [VInt 0; VInt 1; VInt 2].

Definition sample_y_values : list (list value) :=
  [[VInt 1; VInt 2; VInt 3]; [VInt 2; VInt 3; VInt 4]].

Definition sample_y_values4 : list (list value) :=
  [[VInt 1; VInt 2; VInt 3]; [VInt 2; VInt 3; VInt 4];
   [VInt 3; VInt 4; VInt 5]; [VInt 4; VInt 5; VInt 6]].

Definition sample_names4 : list string := ["a"; "b"; "c"; "d"]%string.

Definition empty_axis : Axis :=
  mkAxis (Shape_init 0 0) [] 0 [] sample_label None [] [] [].

(** An axis with the limits 0, 2, 4 and nothing drawn on it. *)
Definition sample_axis : Axis :=
  mkAxis (Shape_init 100 100) [VInt 1; VInt 3] 400
    [TNum (0 # 1); TNum (2 # 1); TNum (4 # 1)] sample_label None [] [] [].

(** [SimpleLineChart(x_values=[0, 1, 2], y_values=[[1, 2, 3], [2, 3, 4]],
    y_names=['a', 'b'])] *)
Definition chart_named : Chart :=
  Eval vm_compute in
    value_of
      (SimpleLineChart_init sample_x_values sample_y_values (Some ["a"; "b"]%string)
         12 12 100 100 600 800 sample_label sample_label)
      (Chart_init 0 0).

(** The same chart without [y_names]. *)
Definition chart_unnamed : Chart :=
  Eval vm_compute in
    value_of
      (SimpleLineChart_init sample_x_values sample_y_values None
         12 12 100 100 600 800 sample_label sample_label)
      (Chart_init 0 0).

(** [chart_named] after [add_x_grid(minor_ticks=1)] and after
    [add_y_grid(minor_ticks=1)]. *)
Definition chart_named_x_grid : Chart :=
  Eval vm_compute in value_of (add_x_grid chart_named 1 None None) (Chart_init 0 0).

Definition chart_named_y_grid : Chart :=
  Eval vm_compute in value_of (add_y_grid chart_named 1 None None) (Chart_init 0 0).

(** The axes and the series dict of a chart with four named series. *)
Definition y_axis4 : Axis :=
  Eval vm_compute in
    value_of
      (YAxis_init 100 100 (List.concat sample_y_values4) (600 - 2 * 100)%Q
         sample_label 12 None 5)
      empty_axis.

Definition x_axis4 : Axis :=
  Eval vm_compute in
    value_of
      (XAxis_init 100 (600 - 100)%Q sample_x_values (800 - 2 * 100)%Q
         sample_label 12 None 5)
      empty_axis.

Definition series4 : dict SimpleLineSeries :=
  Eval vm_compute in
    value_of (build_series x_axis4 y_axis4 sample_x_values sample_names4 sample_y_values4)
      [].

(** [SimpleLineChart(x_values=[0, 1, 2], y_values=<four lists>,
    y_names=['a', 'a', 'b', 'c'])]: four names, one of them twice. *)
Definition sample_names_repeated : list string := ["a"; "a"; "b"; "c"]%string.

Definition chart_repeated : Chart :=
  Eval vm_compute in
    value_of
      (SimpleLineChart_init sample_x_values sample_y_values4 (Some sample_names_repeated)
         12 12 100 100 600 800 sample_label sample_label)
      (Chart_init 0 0).

(** Two series as a chart holds them, and the axes of [chart_named]. *)
Definition sample_series_a : SimpleLineSeries :=
  mkSeries (mkShape (mkPoint 100 500) [("stroke-width", "2"); ("stroke", "green")]%string)
    [mkPoint 100 500; mkPoint 700 100].

Definition sample_series_b : SimpleLineSeries :=
  mkSeries (mkShape (mkPoint 100 400) [("stroke-width", "2"); ("stroke", "red")]%string)
    [mkPoint 100 400; mkPoint 700 200].

Definition sample_series : dict SimpleLineSeries :=
  [("a", sample_series_a); ("b", sample_series_b)]%string.



(** * Properties *)

(** ** [range] *)

Lemma range_nil (lo hi : Z) : hi <= lo -> range lo hi = [].
Proof.
  intros H. unfold range. replace (Z.to_nat (hi - lo)) with 0%nat by lia. reflexivity.
Qed.

Lemma range_shift (lo hi d : Z) :
  range (lo + d) (hi + d) = map (fun j => j + d) (range lo hi).
Proof.
  unfold range. replace (hi + d - (lo + d)) with (hi - lo) by lia.
  rewrite map_map. apply map_ext. intros i. lia.
Qed.

Lemma range_cons (lo hi : Z) : lo < hi -> range lo hi = lo :: range (lo + 1) hi.
Proof.
  intros H. unfold range.
  replace (Z.to_nat (hi - lo)) with (S (Z.to_nat (hi - (lo + 1)))) by lia.
  cbn [seq map]. f_equal; [lia|].
  rewrite <- seq_shift, map_map. apply map_ext. intros i. lia.
Qed.

Lemma range_length (lo hi : Z) : List.length (range lo hi) = Z.to_nat (hi - lo).
Proof. unfold range. rewrite length_map, length_seq. reflexivity. Qed.

Lemma range_In (lo hi j : Z) : In j (range lo hi) <-> lo <= j < hi.
Proof.
  unfold range. rewrite in_map_iff. split.
  - intros [i [<- Hi]]. apply in_seq in Hi. lia.
  - intros Hj. exists (Z.to_nat (j - lo)). split; [lia|]. apply in_seq. lia.
Qed.

(** ** Powers and the thresholds of the leading digit *)

Lemma Qltb_lt (x y : Q) : Qltb x y = true <-> (x < y)%Q.
Proof.
  unfold Qltb. rewrite negb_true_iff. split.
  - intros H. apply Qnot_le_lt. intros N. apply Qle_bool_iff in N. congruence.
  - intros H. destruct (Qle_bool y x) eqn:E; [|reflexivity].
    apply Qle_bool_iff in E. exfalso. exact (Qlt_not_le _ _ H E).
Qed.

Lemma Qltb_ge (x y : Q) : Qltb x y = false <-> (y <= x)%Q.
Proof.
  unfold Qltb. rewrite negb_false_iff. apply Qle_bool_iff.
Qed.

Lemma Qpower_base_le (x y : Q) (n : positive) :
  (0 <= x -> x <= y -> x ^ Zpos n <= y ^ Zpos n)%Q.
Proof.
  intros Hx Hxy. cbn [Qpower].
  induction n as [|n IH] using Pos.peano_ind.
  - exact Hxy.
  - rewrite <- !Pos.add_1_r, !Qpower_plus_positive.
    apply Qmult_le_compat_nonneg.
    + split; [apply Qpower_pos_positive; exact Hx|exact IH].
    + split; assumption.
Qed.

Lemma ten_pos (k : Z) : (0 < (10 # 1) ^ k)%Q.
Proof. apply Qpower_0_lt. reflexivity. Qed.

Lemma ten_shift (j k : Z) : ((10 # 1) ^ j * ((10 # 1) ^ k) ^ 10 == (10 # 1) ^ (j + 10 * k))%Q.
Proof.
  rewrite <- Qpower_mult, Qpower_plus by discriminate.
  rewrite (Z.mul_comm k 10). reflexivity.
Qed.

(** One stage of a bound on a tenth power: from [x <= c * 10^k] and
    [c^10 <= c' * 10^j] to [x^10 <= c' * 10^(j + 10 k)]. *)
Lemma pow10_stage_le (x c c' : Q) (k j : Z) :
  (0 <= x -> x <= c * (10 # 1) ^ k -> c ^ 10 <= c' * (10 # 1) ^ j ->
   x ^ 10 <= c' * (10 # 1) ^ (j + 10 * k))%Q.
Proof.
  intros Hx Hxc Hc.
  eapply Qle_trans; [apply Qpower_base_le; [exact Hx|exact Hxc]|].
  rewrite Qmult_power, <- ten_shift, Qmult_assoc.
  apply Qmult_le_compat_r; [exact Hc|].
  apply Qpower_0_le. apply Qlt_le_weak, ten_pos.
Qed.

Lemma pow10_stage_ge (x c c' : Q) (k j : Z) :
  (0 <= c -> c * (10 # 1) ^ k <= x -> c' * (10 # 1) ^ j <= c ^ 10 ->
   c' * (10 # 1) ^ (j + 10 * k) <= x ^ 10)%Q.
Proof.
  intros Hc0 Hxc Hc.
  eapply Qle_trans; [|apply Qpower_base_le; [|exact Hxc]].
  - rewrite Qmult_power, <- ten_shift, Qmult_assoc.
    apply Qmult_le_compat_r; [exact Hc|].
    apply Qpower_0_le. apply Qlt_le_weak, ten_pos.
  - apply Qmult_le_0_compat; [exact Hc0|apply Qlt_le_weak, ten_pos].
Qed.

Lemma pow_1000 (a : Q) : (a ^ 1000 == ((a ^ 10) ^ 10) ^ 10)%Q.
Proof. rewrite <- !Qpower_mult. reflexivity. Qed.

Lemma log10_ltb_unfold (a : Q) (m n : Z) :
  log10_ltb a (inject_Z m + (n # 1000)) = Qltb (a ^ 1000) ((10 # 1) ^ (m * 1000 + n)).
Proof.
  unfold log10_ltb. cbn [Qplus inject_Z Qnum Qden].
  rewrite Z.mul_1_r, Pos.mul_1_l. reflexivity.
Qed.

(** [log10 a < m + 0.301] when [a <= 1.99 * 10^m]. *)
Lemma log10_ltb_301_true (a : Q) (m : Z) :
  (0 <= a)%Q -> (a <= (199 # 100) * (10 # 1) ^ m)%Q ->
  log10_ltb a (inject_Z m + (301 # 1000)) = true.
Proof.
  intros H0 Ha. rewrite log10_ltb_unfold. apply Qltb_lt. rewrite pow_1000.
  pose proof (pow10_stage_le a (199 # 100) 1 m 3 H0 Ha ltac:(vm_compute; discriminate)) as S1.
  assert (P1 : (0 <= a ^ 10)%Q) by (apply Qpower_0_le; exact H0).
  pose proof (pow10_stage_le _ 1 1 _ 0 P1 S1 ltac:(vm_compute; discriminate)) as S2.
  assert (P2 : (0 <= (a ^ 10) ^ 10)%Q) by (apply Qpower_0_le; exact P1).
  pose proof (pow10_stage_le _ 1 1 _ 0 P2 S2 ltac:(vm_compute; discriminate)) as S3.
  eapply Qle_lt_trans; [exact S3|].
  rewrite Qmult_1_l. apply Qpower_lt_compat_l; [lia|reflexivity].
Qed.

(** [log10 a >= m + 0.301] when [2 * 10^m <= a]. *)
Lemma log10_ltb_301_false (a : Q) (m : Z) :
  ((2 # 1) * (10 # 1) ^ m <= a)%Q ->
  log10_ltb a (inject_Z m + (301 # 1000)) = false.
Proof.
  intros Ha. rewrite log10_ltb_unfold. apply Qltb_ge. rewrite pow_1000.
  pose proof (pow10_stage_ge a (2 # 1) (1024 # 1) m 0 ltac:(discriminate) Ha
                ltac:(vm_compute; discriminate)) as S1.
  pose proof (pow10_stage_ge _ (1024 # 1) (126 # 1) _ 28 ltac:(discriminate) S1
                ltac:(vm_compute; discriminate)) as S2.
  pose proof (pow10_stage_ge _ (126 # 1) 1 _ 21 ltac:(discriminate) S2
                ltac:(vm_compute; discriminate)) as S3.
  eapply Qle_trans; [|exact S3].
  rewrite Qmult_1_l. apply Qpower_le_compat_l; [lia|discriminate].
Qed.

(** [log10 a < m + 0.698] when [a <= 4.9 * 10^m]. *)
Lemma log10_ltb_698_true (a : Q) (m : Z) :
  (0 <= a)%Q -> (a <= (49 # 10) * (10 # 1) ^ m)%Q ->
  log10_ltb a (inject_Z m + (698 # 1000)) = true.
Proof.
  intros H0 Ha. rewrite log10_ltb_unfold. apply Qltb_lt. rewrite pow_1000.
  pose proof (pow10_stage_le a (49 # 10) (798 # 1) m 4 H0 Ha ltac:(vm_compute; discriminate)) as S1.
  assert (P1 : (0 <= a ^ 10)%Q) by (apply Qpower_0_le; exact H0).
  pose proof (pow10_stage_le _ (798 # 1) (105 # 1) _ 27 P1 S1 ltac:(vm_compute; discriminate)) as S2.
  assert (P2 : (0 <= (a ^ 10) ^ 10)%Q) by (apply Qpower_0_le; exact P1).
  pose proof (pow10_stage_le _ (105 # 1) 1 _ 21 P2 S2 ltac:(vm_compute; discriminate)) as S3.
  eapply Qle_lt_trans; [exact S3|].
  rewrite Qmult_1_l. apply Qpower_lt_compat_l; [lia|reflexivity].
Qed.

(** [log10 a >= m + 0.698] when [5 * 10^m <= a]. *)
Lemma log10_ltb_698_false (a : Q) (m : Z) :
  ((5 # 1) * (10 # 1) ^ m <= a)%Q ->
  log10_ltb a (inject_Z m + (698 # 1000)) = false.
Proof.
  intros Ha. rewrite log10_ltb_unfold. apply Qltb_ge. rewrite pow_1000.
  pose proof (pow10_stage_ge a (5 # 1) (976 # 1) m 4 ltac:(discriminate) Ha
                ltac:(vm_compute; discriminate)) as S1.
  pose proof (pow10_stage_ge _ (976 # 1) (78 # 1) _ 28 ltac:(discriminate) S1
                ltac:(vm_compute; discriminate)) as S2.
  pose proof (pow10_stage_ge _ (78 # 1) 1 _ 18 ltac:(discriminate) S2
                ltac:(vm_compute; discriminate)) as S3.
  eapply Qle_trans; [|exact S3].
  rewrite Qmult_1_l. apply Qpower_le_compat_l; [lia|discriminate].
Qed.

Lemma leader_of_2 (a : Q) (m : Z) :
  (0 <= a)%Q -> (a <= (199 # 100) * (10 # 1) ^ m)%Q -> leader_of a m = 2 # 1.
Proof.
  intros H0 Ha. unfold leader_of. rewrite log10_ltb_301_true by assumption. reflexivity.
Qed.

Lemma leader_of_5 (a : Q) (m : Z) :
  ((2 # 1) * (10 # 1) ^ m <= a)%Q -> (a <= (49 # 10) * (10 # 1) ^ m)%Q ->
  leader_of a m = 5 # 1.
Proof.
  intros Hlo Hhi. unfold leader_of.
  rewrite log10_ltb_301_false by assumption.
  rewrite log10_ltb_698_true; [reflexivity| |exact Hhi].
  eapply Qle_trans; [|exact Hlo].
  apply Qmult_le_0_compat; [discriminate|apply Qlt_le_weak, ten_pos].
Qed.

Lemma leader_of_10 (a : Q) (m : Z) :
  ((5 # 1) * (10 # 1) ^ m <= a)%Q -> leader_of a m = 10 # 1.
Proof.
  intros Ha. unfold leader_of.
  rewrite log10_ltb_301_false.
  - rewrite log10_ltb_698_false by assumption. reflexivity.
  - eapply Qle_trans; [|exact Ha].
    apply Qmult_le_compat_r; [discriminate|apply Qlt_le_weak, ten_pos].
Qed.

Lemma leader_of_pos (a : Q) (m : Z) : (0 < leader_of a m)%Q.
Proof.
  unfold leader_of.
  destruct (log10_ltb a _); [reflexivity|].
  destruct (log10_ltb a _); reflexivity.
Qed.

(** ** [int_log10] truncates the logarithm toward zero *)

Lemma ilog10_aux_spec (fuel : nat) :
  forall n, 1 <= n < 10 ^ Z.of_nat fuel ->
    0 <= ilog10_aux fuel n
    /\ 10 ^ ilog10_aux fuel n <= n < 10 ^ (ilog10_aux fuel n + 1).
Proof.
  induction fuel as [|fuel IH]; intros n Hn.
  - change (10 ^ Z.of_nat 0) with 1 in Hn. lia.
  - cbn [ilog10_aux]. destruct (n <? 10) eqn:E.
    + apply Z.ltb_lt in E. change (10 ^ 0) with 1. change (10 ^ (0 + 1)) with 10. lia.
    + apply Z.ltb_ge in E.
      rewrite Nat2Z.inj_succ, Z.pow_succ_r in Hn by lia.
      assert (Hq : 1 <= n / 10 < 10 ^ Z.of_nat fuel).
      { split.
        - apply Z.div_le_lower_bound; lia.
        - apply Z.div_lt_upper_bound; lia. }
      destruct (IH _ Hq) as [H0 [Hlo Hhi]].
      pose proof (Z.div_mod n 10 ltac:(lia)) as Hd.
      pose proof (Z.mod_pos_bound n 10 ltac:(lia)) as Hb.
      split; [lia|].
      replace (1 + ilog10_aux fuel (n / 10)) with (Z.succ (ilog10_aux fuel (n / 10))) by lia.
      replace (Z.succ (ilog10_aux fuel (n / 10)) + 1)
        with (Z.succ (ilog10_aux fuel (n / 10) + 1)) by lia.
      rewrite !Z.pow_succ_r by lia. lia.
Qed.

Lemma ilog10_spec (n : Z) :
  1 <= n -> 0 <= ilog10 n /\ 10 ^ ilog10 n <= n < 10 ^ (ilog10 n + 1).
Proof.
  intros Hn. unfold ilog10. apply ilog10_aux_spec. split; [exact Hn|].
  pose proof (Z.log2_nonneg n) as H0.
  destruct (Z.log2_spec n ltac:(lia)) as [_ Hlt].
  rewrite Nat2Z.inj_succ, Z2Nat.id by lia.
  eapply Z.lt_le_trans; [exact Hlt|].
  apply Z.pow_le_mono_l. lia.
Qed.

Lemma ten_power_inject (k : Z) : 0 <= k -> (inject_Z (10 ^ k) == (10 # 1) ^ k)%Q.
Proof. intros Hk. apply (Zpower_Qpower 10 k Hk). Qed.

(** Between two powers of ten: [10^k <= b < 10^(k+1)] for [k] the
    number of digits of [floor b] minus one. *)
Lemma ilog10_floor_bounds (b : Q) :
  (1 <= b)%Q ->
  0 <= ilog10 (Qfloor b)
  /\ ((10 # 1) ^ ilog10 (Qfloor b) <= b)%Q
  /\ (b < (10 # 1) ^ (ilog10 (Qfloor b) + 1))%Q.
Proof.
  intros Hb.
  assert (Hn : 1 <= Qfloor b).
  { change 1 with (Qfloor 1). apply Qfloor_resp_le. exact Hb. }
  destruct (ilog10_spec _ Hn) as [H0 [Hlo Hhi]].
  split; [exact H0|]. split.
  - rewrite <- ten_power_inject by exact H0.
    eapply Qle_trans; [|apply Qfloor_le]. rewrite <- Zle_Qle. exact Hlo.
  - rewrite <- ten_power_inject by lia.
    eapply Qlt_le_trans; [apply Qlt_floor|]. rewrite <- Zle_Qle. lia.
Qed.


(** For [0 < a < 1], [int_log10 a] is [ceil(log10 a)]. *)
Lemma int_log10_below_one (a : Q) :
  (0 < a)%Q -> (a < 1)%Q ->
  int_log10 a <= 0
  /\ ((10 # 1) ^ (int_log10 a - 1) < a)%Q
  /\ (a <= (10 # 1) ^ int_log10 a)%Q.
Proof.
  intros H0 H1. unfold int_log10.
  replace (Qle_bool 1 a) with false.
  2:{ symmetry. destruct (Qle_bool 1 a) eqn:E; [|reflexivity].
      apply Qle_bool_iff in E. exfalso. exact (Qlt_not_le _ _ H1 E). }
  assert (Hb0 : (0 < / a)%Q) by (apply Qinv_lt_0_compat; exact H0).
  assert (Hb : (1 <= / a)%Q).
  { apply Qle_shift_inv_l; [exact H0|]. rewrite Qmult_1_l. apply Qlt_le_weak. exact H1. }
  destruct (ilog10_floor_bounds _ Hb) as [Hk [Hlo Hhi]].
  set (k := ilog10 (Qfloor (/ a))) in *.
  split; [lia|]. split.
  - replace (- k - 1) with (- (k + 1)) by lia. rewrite Qpower_opp.
    eapply Qlt_le_trans; [|rewrite <- (Qinv_involutive a); apply Qle_refl].
    apply -> Qinv_lt_contravar; [exact Hhi|apply ten_pos|exact Hb0].
  - rewrite Qpower_opp. apply Qle_shift_inv_l; [apply ten_pos|].
    apply (Qmult_le_l _ _ (/ a)); [exact Hb0|].
    setoid_replace (/ a * (a * (10 # 1) ^ k))%Q with ((10 # 1) ^ k)%Q
      by (field; intros E; rewrite E in H0; discriminate H0).
    rewrite Qmult_1_r. exact Hlo.
Qed.

(** [floor_log10] is the floor of the logarithm on both sides of 1, and
    agrees with [int_log10] from 1 on. *)
Lemma floor_log10_above_one (a : Q) : (1 <= a)%Q -> floor_log10 a = int_log10 a.
Proof.
  intros Ha. unfold floor_log10, int_log10.
  replace (Qle_bool 1 a) with true by (symmetry; apply Qle_bool_iff; exact Ha).
  reflexivity.
Qed.

Lemma floor_log10_below_one (a : Q) :
  (0 < a)%Q -> (a < 1)%Q ->
  ((10 # 1) ^ floor_log10 a <= a)%Q /\ (a < (10 # 1) ^ (floor_log10 a + 1))%Q.
Proof.
  intros H0 H1.
  destruct (int_log10_below_one a H0 H1) as [_ [Hdown Hup]].
  unfold floor_log10, int_log10 in *.
  replace (Qle_bool 1 a) with false in *.
  2:{ symmetry. destruct (Qle_bool 1 a) eqn:E; [|reflexivity].
      apply Qle_bool_iff in E. exfalso. exact (Qlt_not_le _ _ H1 E). }
  assert (Hb : (1 <= / a)%Q).
  { apply Qle_shift_inv_l; [exact H0|]. rewrite Qmult_1_l. apply Qlt_le_weak. exact H1. }
  destruct (ilog10_floor_bounds _ Hb) as [Hk _].
  cbv zeta. set (k := ilog10 (Qfloor (/ a))) in *.
  destruct (Qeq_bool (/ a) (inject_Z (10 ^ k))) eqn:E.
  - apply Qeq_bool_iff in E. rewrite ten_power_inject in E by exact Hk.
    assert (Ea : (a == (10 # 1) ^ (- k))%Q).
    { rewrite Qpower_opp, <- E, Qinv_involutive. reflexivity. }
    split.
    + rewrite Ea. apply Qle_refl.
    + rewrite Ea. apply Qpower_lt_compat_l; [lia|reflexivity].
  - apply Qeq_bool_neq in E. rewrite ten_power_inject in E by exact Hk.
    split.
    + apply Qlt_le_weak. exact Hdown.
    + replace (- k - 1 + 1) with (- k) by lia.
      apply Qle_lt_or_eq in Hup. destruct Hup as [Hup|Hup]; [exact Hup|].
      exfalso. apply E. rewrite Hup, Qpower_opp, Qinv_involutive. reflexivity.
Qed.

(** Below 1 the two differ unless [a] is a power of ten: there
    [int(log10 a) = floor(log10 a) + 1]. *)
Lemma int_log10_floor_log10_below_one (a : Q) :
  (0 < a)%Q -> (a < 1)%Q ->
  int_log10 a = floor_log10 a \/ int_log10 a = floor_log10 a + 1.
Proof.
  intros H0 H1. unfold floor_log10, int_log10.
  replace (Qle_bool 1 a) with false.
  2:{ symmetry. destruct (Qle_bool 1 a) eqn:E; [|reflexivity].
      apply Qle_bool_iff in E. exfalso. exact (Qlt_not_le _ _ H1 E). }
  cbv zeta. destruct (Qeq_bool _ _); [left; reflexivity|right; lia].
Qed.

(** ** Running [get_numeric_limits] *)

(** The result of [get_numeric_limits] once the leading digit is known. *)
Lemma get_numeric_limits_run (v : Q) (vs : list Q) (max_ticks : Z)
    (leader : Q) (ticks : list Q) :
  max_ticks <> 0 ->
  Qeq_bool (Qabs (raw_step_of (q_min v vs) (q_max v vs) max_ticks)) 0 = false ->
  leader_of (Qabs (raw_step_of (q_min v vs) (q_max v vs) max_ticks))
    (int_log10 (Qabs (raw_step_of (q_min v vs) (q_max v vs) max_ticks))) = leader ->
  map (fun y =>
         (inject_Z y
          * (leader
             * Qpower (10 # 1)
                 (int_log10 (Qabs (raw_step_of (q_min v vs) (q_max v vs) max_ticks)))))%Q)
    (range
       (Qfloor ((95 # 100) * q_min v vs
                / (leader
                   * Qpower (10 # 1)
                       (int_log10 (Qabs (raw_step_of (q_min v vs) (q_max v vs) max_ticks))))))
       (Qceiling ((12 # 10) * q_max v vs
                  / (leader
                     * Qpower (10 # 1)
                         (int_log10 (Qabs (raw_step_of (q_min v vs) (q_max v vs) max_ticks)))))
        + 1))
  = ticks ->
  get_numeric_limits (v :: vs) max_ticks = Ok ticks.
Proof.
  intros Hm Hz Hl Ht. unfold get_numeric_limits.
  rewrite (proj2 (Z.eqb_neq _ _) Hm).
  fold (raw_step_of (q_min v vs) (q_max v vs) max_ticks).
  rewrite Hz. cbv zeta. rewrite Hl, Ht. reflexivity.
Qed.

Lemma get_limits_numeric (values : list value) (max_ticks : Z) :
  (Z.of_nat (List.length (set_of values)) <=? 1) = false ->
  forallb is_datelike values = false ->
  forallb is_number values = true ->
  get_limits values max_ticks
  = (ticks <- get_numeric_limits (choose number_of values) max_ticks ;; Ok (map TNum ticks)).
Proof.
  intros H1 H2 H3. unfold get_limits. rewrite H1, H2, H3. reflexivity.
Qed.

Lemma described_step_run (raw_step leader : Q) (m : Z) :
  floor_log10 (Qabs raw_step) = m ->
  leader_of (Qabs raw_step) m = leader ->
  described_step raw_step = (leader * Qpower (10 # 1) m)%Q.
Proof. intros Hm Hl. unfold described_step. rewrite Hm, Hl. reflexivity. Qed.

(** ** Numeric limits on concrete inputs *)

Lemma limits_of_minus_103_and_0 :
  get_numeric_limits [-103 # 1; 0 # 1] 10
  = Ok [-100 # 1; -90 # 1; -80 # 1; -70 # 1; -60 # 1; -50 # 1;
        -40 # 1; -30 # 1; -20 # 1; -10 # 1; 0 # 1].
Proof.
  apply (get_numeric_limits_run _ _ _ (10 # 1)).
  - discriminate.
  - vm_compute; reflexivity.
  - apply leader_of_10. vm_compute; discriminate.
  - vm_compute; reflexivity.
Qed.

(** C1. The limits are meant to bracket the data, [min(limits) <= min(values)]
    and [max(limits) >= max(values)].  For [values = [-103, 0]] and
    [max_ticks = 10] the code pads the negative minimum toward zero
    ([0.95 * -103 = -97.85]) and returns the ticks -100, -90, ..., 0: the
    smallest tick, -100, lies above the smallest value, -103. *)
Theorem get_numeric_limits_misses_negative_minimum :
  get_limits [VInt (-103); VInt 0] 10
  = Ok (map TNum [-100 # 1; -90 # 1; -80 # 1; -70 # 1; -60 # 1; -50 # 1;
                  -40 # 1; -30 # 1; -20 # 1; -10 # 1; 0 # 1])
  /\ (q_min (-103 # 1) [0 # 1]
      < q_min (-100 # 1) [-90 # 1; -80 # 1; -70 # 1; -60 # 1; -50 # 1;
                          -40 # 1; -30 # 1; -20 # 1; -10 # 1; 0 # 1])%Q.
Proof.
  split.
  - rewrite get_limits_numeric by (vm_compute; reflexivity).
    change (choose number_of [VInt (-103); VInt 0]) with [-103 # 1; 0 # 1]%Q.
    rewrite limits_of_minus_103_and_0. reflexivity.
  - vm_compute; reflexivity.
Qed.

(** The same defect on the other side: for [values = [-100, -50]] the
    largest tick, -60, lies below the largest value, -50. *)
Example get_numeric_limits_misses_negative_maximum :
  get_numeric_limits [-100 # 1; -50 # 1] 10
  = Ok [-95 # 1; -90 # 1; -85 # 1; -80 # 1; -75 # 1; -70 # 1; -65 # 1; -60 # 1].
Proof.
  apply (get_numeric_limits_run _ _ _ (5 # 1)).
  - discriminate.
  - vm_compute; reflexivity.
  - apply leader_of_5; vm_compute; discriminate.
  - vm_compute; reflexivity.
Qed.

Lemma limits_of_minus_100_and_minus_90 :
  get_numeric_limits [-100 # 1; -90 # 1] 10 = Ok [].
Proof.
  apply (get_numeric_limits_run _ _ _ (2 # 1)).
  - discriminate.
  - vm_compute; reflexivity.
  - apply leader_of_2; vm_compute; discriminate.
  - vm_compute; reflexivity.
Qed.

(** C2. [get_limits] is meant to return at least two strictly increasing
    ticks.  For [values = [-100, -90]] and [max_ticks = 10] the padded upper
    bound [1.2 * -90 = -108] lies below the padded lower bound
    [0.95 * -100 = -95], [range(-48, -53)] is empty and the code returns the
    empty list.  For the dates 2024-01-01 and 2024-07-19 with
    [max_ticks = 1] the interval is 12 months and the only tick is
    2024-01-01. *)
Theorem get_limits_too_short :
  get_limits [VInt (-100); VInt (-90)] 10 = Ok []
  /\ get_limits [VDate (mkdate 2024 1 1); VDate (mkdate 2024 7 19)] 1
     = Ok [TDate (mkdate 2024 1 1)].
Proof.
  split.
  - rewrite get_limits_numeric by (vm_compute; reflexivity).
    change (choose number_of [VInt (-100); VInt (-90)]) with [-100 # 1; -90 # 1]%Q.
    rewrite limits_of_minus_100_and_minus_90. reflexivity.
  - vm_compute; reflexivity.
Qed.

Lemma limits_of_0_and_1 :
  get_numeric_limits [0 # 1; 1 # 1] 10 = Ok [0 # 1; 2 # 1].
Proof.
  apply (get_numeric_limits_run _ _ _ (2 # 1)).
  - discriminate.
  - vm_compute; reflexivity.
  - apply leader_of_2; vm_compute; discriminate.
  - vm_compute; reflexivity.
Qed.

(** C3. The step is meant to be [leader * 10^m] with
    [m = floor(log10 |rawStep|)].  The code takes [int(log10 |rawStep|)],
    which truncates toward zero.  For [values = [0, 1]] and [max_ticks = 10]
    the raw step is 0.12: the described step is 0.2, the code's ticks are
    0 and 2, a step of 2. *)
Theorem get_numeric_limits_step_below_one :
  (raw_step_of (q_min (0 # 1) [1 # 1]) (q_max (0 # 1) [1 # 1]) 10 == 12 # 100)%Q
  /\ floor_log10 (Qabs (raw_step_of (q_min (0 # 1) [1 # 1]) (q_max (0 # 1) [1 # 1]) 10)) = -1
  /\ int_log10 (Qabs (raw_step_of (q_min (0 # 1) [1 # 1]) (q_max (0 # 1) [1 # 1]) 10)) = 0
  /\ (described_step (raw_step_of (q_min (0 # 1) [1 # 1]) (q_max (0 # 1) [1 # 1]) 10) == 2 # 10)%Q
  /\ get_limits [VInt 0; VInt 1] 10 = Ok [TNum (0 # 1); TNum (2 # 1)].
Proof.
  split; [vm_compute; reflexivity|].
  split; [vm_compute; reflexivity|].
  split; [vm_compute; reflexivity|].
  split.
  - rewrite (described_step_run _ (2 # 1) (-1)).
    + vm_compute; reflexivity.
    + vm_compute; reflexivity.
    + apply leader_of_2; vm_compute; discriminate.
  - rewrite get_limits_numeric by (vm_compute; reflexivity).
    change (choose number_of [VInt 0; VInt 1]) with [0 # 1; 1 # 1]%Q.
    rewrite limits_of_0_and_1. reflexivity.
Qed.

(** C4. [get_limits] is meant to raise only for an empty collection, fewer
    than two distinct elements, mixed types or dates without a positive
    span.  [values = [-120, -95]] is none of these, yet
    [1.2 * -95 = 0.95 * -120 = -114], the raw step is 0 and [math.log10(0)]
    raises [ValueError]. *)
Theorem get_limits_raises_on_zero_raw_step :
  List.length (set_of [VInt (-120); VInt (-95)]) = 2%nat
  /\ forallb is_number [VInt (-120); VInt (-95)] = true
  /\ get_limits [VInt (-120); VInt (-95)] 10 = Raise (ValueError "math domain error").
Proof.
  split; [vm_compute; reflexivity|].
  split; vm_compute; reflexivity.
Qed.

(** From a raw step of 1 on, the step of the code is the described step. *)
Lemma described_step_from_one (raw_step : Q) :
  (1 <= Qabs raw_step)%Q ->
  described_step raw_step
  = (leader_of (Qabs raw_step) (int_log10 (Qabs raw_step))
     * Qpower (10 # 1) (int_log10 (Qabs raw_step)))%Q.
Proof.
  intros H. unfold described_step. rewrite floor_log10_above_one by exact H. reflexivity.
Qed.

(** ** Numeric limits of non-negative data *)

Lemma inject_Z_pos (z : Z) : 0 < z -> (0 < inject_Z z)%Q.
Proof. intros H. change 0%Q with (inject_Z 0). rewrite <- Zlt_Qlt. exact H. Qed.

Lemma raw_step_pos (lo hi : Q) (max_ticks : Z) :
  0 < max_ticks -> (0 <= lo)%Q -> (lo < hi)%Q -> (0 < raw_step_of lo hi max_ticks)%Q.
Proof.
  intros Hm Hlo Hlt. unfold raw_step_of.
  apply Qlt_shift_div_l; [apply inject_Z_pos; exact Hm|]. lra.
Qed.

Lemma pad_pos (a : Q) (m : Z) : (0 < leader_of a m * Qpower (10 # 1) m)%Q.
Proof. apply Qmult_lt_0_compat; [apply leader_of_pos|apply ten_pos]. Qed.

(** The ticks [y * pad] for [y] in a range grow strictly. *)
Lemma ticks_strictly_increasing (pad : Q) (n : nat) :
  (0 < pad)%Q ->
  forall lo hi, Z.to_nat (hi - lo) = n ->
    StronglySorted Qlt (map (fun y => (inject_Z y * pad)%Q) (range lo hi)).
Proof.
  intros Hp. induction n as [|n IH]; intros lo hi Hn.
  - rewrite range_nil by lia. constructor.
  - rewrite range_cons by lia. cbn [map]. constructor.
    + apply IH. lia.
    + apply Forall_forall. intros t Ht. apply in_map_iff in Ht.
      destruct Ht as [j [<- Hj]]. apply range_In in Hj.
      apply Qmult_lt_compat_r; [exact Hp|]. rewrite <- Zlt_Qlt. lia.
Qed.

(** For non-negative values with two distinct elements and a positive
    [max_ticks], [get_numeric_limits] returns the ticks [start * pad], ...,
    [end * pad] with [0 < pad] and [start < end]: at least two ticks,
    strictly increasing, the first at most [min(values)] and the last at
    least [max(values)], even [1.2 * max(values)]. *)
Lemma get_numeric_limits_nonneg (v : Q) (vs : list Q) (max_ticks : Z) :
  0 < max_ticks ->
  (0 <= q_min v vs)%Q ->
  (q_min v vs < q_max v vs)%Q ->
  exists (pad : Q) (start end_ : Z),
    (0 < pad)%Q
    /\ start < end_
    /\ get_numeric_limits (v :: vs) max_ticks
       = Ok (map (fun y => (inject_Z y * pad)%Q) (range start (end_ + 1)))
    /\ (inject_Z start * pad <= q_min v vs)%Q
    /\ (q_max v vs <= inject_Z end_ * pad)%Q
    /\ StronglySorted Qlt (map (fun y => (inject_Z y * pad)%Q) (range start (end_ + 1)))
    /\ (2 <= List.length (range start (end_ + 1)))%nat
    /\ ((12 # 10) * q_max v vs <= inject_Z end_ * pad)%Q.
Proof.
  intros Hm Hlo Hlt.
  pose proof (raw_step_pos _ _ _ Hm Hlo Hlt) as Hraw.
  set (raw := raw_step_of (q_min v vs) (q_max v vs) max_ticks) in *.
  set (pad := (leader_of (Qabs raw) (int_log10 (Qabs raw))
               * Qpower (10 # 1) (int_log10 (Qabs raw)))%Q).
  assert (Hpad : (0 < pad)%Q) by apply pad_pos.
  set (start := Qfloor ((95 # 100) * q_min v vs / pad)).
  set (end_ := Qceiling ((12 # 10) * q_max v vs / pad)).
  assert (Hs : (inject_Z start * pad <= (95 # 100) * q_min v vs)%Q).
  { setoid_replace ((95 # 100) * q_min v vs)%Q
      with ((95 # 100) * q_min v vs / pad * pad)%Q
      by (field; intros E; rewrite E in Hpad; discriminate Hpad).
    apply Qmult_le_compat_r; [apply Qfloor_le|apply Qlt_le_weak; exact Hpad]. }
  assert (He : ((12 # 10) * q_max v vs <= inject_Z end_ * pad)%Q).
  { setoid_replace ((12 # 10) * q_max v vs)%Q
      with ((12 # 10) * q_max v vs / pad * pad)%Q
      by (field; intros E; rewrite E in Hpad; discriminate Hpad).
    apply Qmult_le_compat_r; [apply Qle_ceiling|apply Qlt_le_weak; exact Hpad]. }
  assert (Hse : start < end_).
  { rewrite Zlt_Qlt.
    eapply Qle_lt_trans; [apply Qfloor_le|].
    eapply Qlt_le_trans; [|apply Qle_ceiling].
    apply Qmult_lt_compat_r; [apply Qinv_lt_0_compat; exact Hpad|]. lra. }
  exists pad, start, end_.
  split; [exact Hpad|]. split; [exact Hse|].
  split; [|split; [|split; [|split; [|split; [|exact He]]]]].
  - unfold get_numeric_limits.
    replace (max_ticks =? 0) with false by (symmetry; apply Z.eqb_neq; lia).
    fold (raw_step_of (q_min v vs) (q_max v vs) max_ticks). fold raw.
    replace (Qeq_bool (Qabs raw) 0) with false; [reflexivity|].
    symmetry. destruct (Qeq_bool (Qabs raw) 0) eqn:E; [|reflexivity].
    apply Qeq_bool_iff in E. rewrite Qabs_pos in E by (apply Qlt_le_weak; exact Hraw).
    rewrite E in Hraw. discriminate Hraw.
  - lra.
  - lra.
  - apply (ticks_strictly_increasing pad (Z.to_nat (end_ + 1 - start))); [exact Hpad|].
    reflexivity.
  - rewrite range_length. lia.
Qed.

(** ** Date ticks *)

Lemma first_of_month_leb (a b : Z) :
  date_leb (first_of_month a) (first_of_month b) = (a <=? b).
Proof.
  unfold date_leb, date_ltb, first_of_month; cbn [year month day].
  destruct (a <=? b) eqn:E.
  - apply Z.leb_le in E. apply negb_true_iff.
    apply orb_false_iff; split.
    + apply Z.ltb_ge. apply Z.div_le_mono; lia.
    + apply andb_false_iff.
      destruct (Z.eq_dec (b / 12) (a / 12)) as [Hq|Hq].
      * right. apply orb_false_iff; split.
        -- apply Z.ltb_ge.
           pose proof (Z.div_mod a 12 ltac:(lia)).
           pose proof (Z.div_mod b 12 ltac:(lia)). lia.
        -- apply andb_false_iff; right. reflexivity.
      * left. apply Z.eqb_neq. exact Hq.
  - apply Z.leb_gt in E. apply negb_false_iff.
    pose proof (Z.div_mod a 12 ltac:(lia)).
    pose proof (Z.div_mod b 12 ltac:(lia)).
    pose proof (Z.mod_pos_bound a 12 ltac:(lia)).
    pose proof (Z.mod_pos_bound b 12 ltac:(lia)).
    assert (Hle : b / 12 <= a / 12) by (apply Z.div_le_mono; lia).
    destruct (Z.eq_dec (b / 12) (a / 12)) as [Hq|Hq].
    + apply orb_true_iff; right. apply andb_true_iff; split.
      * apply Z.eqb_eq; exact Hq.
      * apply orb_true_iff; left. apply Z.ltb_lt. lia.
    + apply orb_true_iff; left. apply Z.ltb_lt. lia.
Qed.

Lemma next_tick_first_of_month (iv c : Z) :
  next_tick iv (first_of_month c) = first_of_month (c + iv).
Proof.
  unfold next_tick, first_of_month; cbn [year month day].
  pose proof (Z.div_mod c 12 ltac:(lia)) as Hc.
  pose proof (Z.mod_pos_bound c 12 ltac:(lia)) as Hb.
  replace (c mod 12 + 1 + iv - 1) with (c mod 12 + iv) by lia.
  assert (Hq : c / 12 + (c mod 12 + iv) / 12 = (c + iv) / 12).
  { replace (c + iv) with (c mod 12 + iv + (c / 12) * 12) by lia.
    rewrite Z.div_add by lia. lia. }
  assert (Hr : (c mod 12 + iv) mod 12 = (c + iv) mod 12).
  { replace (c + iv) with (c mod 12 + iv + (c / 12) * 12) by lia.
    rewrite Z.mod_add by lia. reflexivity. }
  rewrite Hq, Hr. reflexivity.
Qed.

Lemma first_of_month_index (d : date) :
  1 <= month d <= 12 ->
  mkdate (year d) (month d) 1 = first_of_month (month_index d).
Proof.
  intros Hm. unfold first_of_month, month_index.
  replace (12 * year d + (month d - 1)) with (month d - 1 + year d * 12) by lia.
  rewrite Z.div_add, Z.mod_add by lia.
  rewrite Z.div_small, Z.mod_small by lia.
  f_equal; lia.
Qed.

Lemma ticks_loop_first_of_month (iv e : Z) :
  0 < iv ->
  forall (k : nat) (fuel : nat) (c : Z),
    (k < fuel)%nat ->
    c + (Z.of_nat k - 1) * iv <= e < c + Z.of_nat k * iv ->
    ticks_loop fuel iv (first_of_month e) (first_of_month c)
    = Some (map (fun j => first_of_month (c + j * iv)) (range 0 (Z.of_nat k))).
Proof.
  intros Hiv k. induction k as [|k IH]; intros fuel c Hf Hk.
  - destruct fuel as [|fuel]; [lia|].
    cbn [ticks_loop]. rewrite first_of_month_leb.
    replace (c <=? e) with false by (symmetry; apply Z.leb_gt; lia).
    reflexivity.
  - destruct fuel as [|fuel]; [lia|].
    cbn [ticks_loop]. rewrite first_of_month_leb.
    replace (c <=? e) with true by (symmetry; apply Z.leb_le; nia).
    rewrite next_tick_first_of_month.
    rewrite (IH fuel (c + iv)) by (try lia; nia).
    cbn [option_map]. f_equal.
    rewrite (range_cons 0 (Z.of_nat (S k))) by lia.
    replace (Z.of_nat (S k)) with (Z.of_nat k + 1) by lia.
    rewrite (range_shift 0 (Z.of_nat k) 1).
    cbn [map]. f_equal.
    + f_equal. lia.
    + rewrite map_map. apply map_ext. intros j. f_equal. lia.
Qed.

Lemma days_in_month_bounds (y m : Z) : 28 <= days_in_month y m <= 31.
Proof.
  unfold days_in_month.
  destruct (m =? 2); [destruct (is_leap y); lia|].
  destruct ((m =? 4) || (m =? 6) || (m =? 9) || (m =? 11)); lia.
Qed.

Lemma iter_next_day_within (k : nat) (y m d : Z) :
  d + Z.of_nat k <= days_in_month y m ->
  Nat.iter k next_day (mkdate y m d) = mkdate y m (d + Z.of_nat k).
Proof.
  induction k as [|k IH]; intros H.
  - change (Nat.iter 0 next_day (mkdate y m d)) with (mkdate y m d). f_equal. lia.
  - rewrite Nat.iter_succ, IH by lia.
    unfold next_day; cbn [year month day].
    replace (d + Z.of_nat k <? days_in_month y m) with true
      by (symmetry; apply Z.ltb_lt; lia).
    f_equal. lia.
Qed.

Lemma next_day_last (y m : Z) :
  next_day (mkdate y m (days_in_month y m))
  = if m <? 12 then mkdate y (m + 1) 1 else mkdate (y + 1) 1 1.
Proof.
  unfold next_day; cbn [year month day]. rewrite Z.ltb_irrefl. reflexivity.
Qed.

Lemma add_31_days_next_month (y m : Z) :
  1 <= m <= 12 ->
  year (add_days (mkdate y m 1) 31) = y + m / 12
  /\ month (add_days (mkdate y m 1) 31) = m mod 12 + 1.
Proof.
  intros Hm. unfold add_days.
  pose proof (days_in_month_bounds y m) as Hb.
  set (a := Z.to_nat (31 - days_in_month y m)).
  set (b := Z.to_nat (days_in_month y m - 1)).
  replace 31%nat with (a + (1 + b))%nat by (subst a b; lia).
  rewrite !Nat.iter_add.
  rewrite (iter_next_day_within b) by (subst b; lia).
  replace (1 + Z.of_nat b) with (days_in_month y m) by (subst b; lia).
  change (Nat.iter 1 next_day ?d) with (next_day d). rewrite next_day_last.
  destruct (m <? 12) eqn:E.
  - apply Z.ltb_lt in E.
    pose proof (days_in_month_bounds y (m + 1)).
    rewrite iter_next_day_within by (subst a; lia).
    cbn [year month]. rewrite Z.div_small, Z.mod_small by lia. lia.
  - apply Z.ltb_ge in E. assert (m = 12) by lia. subst m.
    pose proof (days_in_month_bounds (y + 1) 1).
    rewrite iter_next_day_within by (subst a; lia).
    cbn [year month]. change (12 / 12) with 1. change (12 mod 12) with 0. lia.
Qed.

(** ** Order on dates *)

Lemma date_ltb_spec (a b : date) :
  date_ltb a b = true <->
  year a < year b
  \/ (year a = year b /\ (month a < month b \/ (month a = month b /\ day a < day b))).
Proof.
  unfold date_ltb.
  rewrite orb_true_iff, andb_true_iff, orb_true_iff, andb_true_iff.
  rewrite !Z.ltb_lt, !Z.eqb_eq. tauto.
Qed.

Lemma date_eqb_spec (a b : date) :
  date_eqb a b = true <-> year a = year b /\ month a = month b /\ day a = day b.
Proof.
  unfold date_eqb. rewrite !andb_true_iff, !Z.eqb_eq. tauto.
Qed.

Lemma ym_le_refl (a : date) : ym_le a a.
Proof. unfold ym_le. lia. Qed.

Lemma ym_le_trans (a b c : date) : ym_le a b -> ym_le b c -> ym_le a c.
Proof. unfold ym_le. lia. Qed.

Lemma datelike_ltb_true (a b : datelike) :
  datelike_ltb a b = Ok true -> ym_le (date_of a) (date_of b).
Proof.
  destruct a as [p|p s], b as [q|q t]; cbn; intros H; inversion H as [H1]; clear H.
  - apply date_ltb_spec in H1. unfold ym_le. lia.
  - apply orb_true_iff in H1. destruct H1 as [H1|H1].
    + apply date_ltb_spec in H1. unfold ym_le. lia.
    + apply andb_true_iff in H1. destruct H1 as [H1 _].
      apply date_eqb_spec in H1. unfold ym_le. lia.
Qed.

Lemma datelike_ltb_false (a b : datelike) :
  datelike_ltb a b = Ok false -> ym_le (date_of b) (date_of a).
Proof.
  destruct a as [p|p s], b as [q|q t]; cbn; intros H; inversion H as [H1]; clear H.
  - assert (N : ~ date_ltb p q = true) by congruence.
    rewrite date_ltb_spec in N. unfold ym_le. lia.
  - apply orb_false_iff in H1. destruct H1 as [H1 _].
    assert (N : ~ date_ltb p q = true) by congruence.
    rewrite date_ltb_spec in N. unfold ym_le. lia.
Qed.

Lemma datelike_min_le (vs : list datelike) :
  forall v lo, datelike_min v vs = Ok lo -> ym_le (date_of lo) (date_of v).
Proof.
  induction vs as [|w vs IH]; intros v lo H; cbn in H.
  - inversion H. apply ym_le_refl.
  - destruct (datelike_ltb w v) as [[|]|e] eqn:E; cbn in H; try discriminate.
    + apply IH in H. eapply ym_le_trans; [exact H|].
      apply datelike_ltb_true; exact E.
    + apply IH in H. exact H.
Qed.

Lemma datelike_max_ge (vs : list datelike) :
  forall v hi, datelike_max v vs = Ok hi -> ym_le (date_of v) (date_of hi).
Proof.
  induction vs as [|w vs IH]; intros v hi H; cbn in H.
  - inversion H. apply ym_le_refl.
  - destruct (datelike_ltb v w) as [[|]|e] eqn:E; cbn in H; try discriminate.
    + apply IH in H. eapply ym_le_trans; [|exact H].
      apply datelike_ltb_true; exact E.
    + apply IH in H. exact H.
Qed.

Lemma datelike_min_In (vs : list datelike) :
  forall v lo, datelike_min v vs = Ok lo -> In lo (v :: vs).
Proof.
  induction vs as [|w vs IH]; intros v lo H; cbn in H.
  - inversion H. left; reflexivity.
  - destruct (datelike_ltb w v) as [[|]|e]; cbn in H; try discriminate;
      apply IH in H; destruct H as [H|H]; subst; cbn; auto.
Qed.

Lemma datelike_max_In (vs : list datelike) :
  forall v hi, datelike_max v vs = Ok hi -> In hi (v :: vs).
Proof.
  induction vs as [|w vs IH]; intros v hi H; cbn in H.
  - inversion H. left; reflexivity.
  - destruct (datelike_ltb v w) as [[|]|e]; cbn in H; try discriminate;
      apply IH in H; destruct H as [H|H]; subst; cbn; auto.
Qed.

Lemma ym_le_month_index (a b : date) :
  1 <= month a <= 12 -> 1 <= month b <= 12 ->
  ym_le a b -> month_index a <= month_index b.
Proof. unfold ym_le, month_index. lia. Qed.

Lemma interval_of_smallest_candidate (raw : Q) :
  interval_of raw = smallest_candidate raw.
Proof.
  unfold interval_of, smallest_candidate. cbn [filter]. unfold inject_Z.
  destruct (Qle_bool raw 1); [reflexivity|].
  destruct (Qle_bool raw 2); [reflexivity|].
  destruct (Qle_bool raw 3); [reflexivity|].
  destruct (Qle_bool raw 6); [reflexivity|].
  destruct (Qle_bool raw 12); reflexivity.
Qed.

Lemma interval_of_pos (raw : Q) : 1 <= interval_of raw <= 12.
Proof.
  unfold interval_of.
  repeat match goal with |- context [if ?b then _ else _] => destruct b end; lia.
Qed.

Lemma month_index_first_of_month (i : Z) : month_index (first_of_month i) = i.
Proof.
  unfold month_index, first_of_month; cbn [year month].
  pose proof (Z.div_mod i 12 ltac:(lia)). lia.
Qed.

Lemma first_of_next_month (y m : Z) :
  1 <= m <= 12 ->
  mkdate (year (add_days (mkdate y m 1) 31)) (month (add_days (mkdate y m 1) 31)) 1
  = first_of_month (month_index (mkdate y m 1) + 1).
Proof.
  intros Hm. destruct (add_31_days_next_month y m Hm) as [Hy Hmo].
  rewrite Hy, Hmo. unfold first_of_month, month_index; cbn [year month].
  replace (12 * y + (m - 1) + 1) with (m + y * 12) by lia.
  rewrite Z.div_add, Z.mod_add by lia. f_equal. lia.
Qed.

Lemma first_of_month_succ (i : Z) :
  first_of_month (i + 1)
  = if month (first_of_month i) <? 12
    then mkdate (year (first_of_month i)) (month (first_of_month i) + 1) 1
    else mkdate (year (first_of_month i) + 1) 1 1.
Proof.
  unfold first_of_month; cbn [year month].
  pose proof (Z.div_mod i 12 ltac:(lia)) as Hd.
  pose proof (Z.mod_pos_bound i 12 ltac:(lia)) as Hb.
  destruct (i mod 12 + 1 <? 12) eqn:E.
  - apply Z.ltb_lt in E.
    replace (i + 1) with (i mod 12 + 1 + (i / 12) * 12) by lia.
    rewrite Z.div_add, Z.mod_add by lia.
    rewrite Z.div_small, Z.mod_small by lia. f_equal; lia.
  - apply Z.ltb_ge in E.
    replace (i + 1) with (0 + (i / 12 + 1) * 12) by lia.
    rewrite Z.div_add, Z.mod_add by lia.
    rewrite Z.div_small, Z.mod_small by lia. f_equal; lia.
Qed.

(** C5. For date-like values whose smallest and largest element are [lo]
    and [hi], [total_days] apart with [0 < total_days], and a positive
    [max_ticks], [get_big_date_limits] returns the first-of-month dates
    [start], [start + interval], [start + 2 interval], ... where [start] is
    the first day of the month of [lo], [interval] is the smallest of 1, 2,
    3, 6, 12 months that is at least [total_days / 30 / max_ticks] (12 when
    there is none), and the ticks run as long as they do not exceed the
    first day of the month after the month of [hi], that day included when
    it is hit. *)
Theorem get_big_date_limits_ticks (v : datelike) (vs : list datelike)
    (max_ticks : Z) (lo hi : datelike) (total_days : Z) :
  Forall (fun d => 1 <= month (date_of d) <= 12) (v :: vs) ->
  datelike_min v vs = Ok lo ->
  datelike_max v vs = Ok hi ->
  days_between lo hi = Ok total_days ->
  0 < total_days ->
  0 < max_ticks ->
  let interval := smallest_candidate (inject_Z total_days / 30 / inject_Z max_ticks) in
  let s := month_index (date_of lo) in
  let e := month_index (date_of hi) + 1 in
  get_big_date_limits (v :: vs) max_ticks
  = Ok (map (fun k => first_of_month (s + k * interval))
          (range 0 ((e - s) / interval + 1)))
  /\ first_of_month s = mkdate (year (date_of lo)) (month (date_of lo)) 1
  /\ first_of_month e
     = (if month (date_of hi) <? 12
        then mkdate (year (date_of hi)) (month (date_of hi) + 1) 1
        else mkdate (year (date_of hi) + 1) 1 1)
  /\ In interval [1; 2; 3; 6; 12]
  /\ (forall k, 0 <= k -> (s + k * interval <= e <-> k < (e - s) / interval + 1)).
Proof.
  intros Hwf Hmin Hmax Hdays Hpos Hticks interval s e.
  assert (Hlo : 1 <= month (date_of lo) <= 12).
  { rewrite Forall_forall in Hwf. apply Hwf. eapply datelike_min_In; exact Hmin. }
  assert (Hhi : 1 <= month (date_of hi) <= 12).
  { rewrite Forall_forall in Hwf. apply Hwf. eapply datelike_max_In; exact Hmax. }
  assert (Hse : s < e).
  { subst s e.
    assert (month_index (date_of lo) <= month_index (date_of hi)); [|lia].
    apply ym_le_month_index; try assumption.
    eapply ym_le_trans.
    - eapply datelike_min_le; exact Hmin.
    - eapply datelike_max_ge; exact Hmax. }
  assert (Hiv : 1 <= interval <= 12).
  { subst interval. rewrite <- interval_of_smallest_candidate. apply interval_of_pos. }
  assert (Hq : 0 <= (e - s) / interval) by (apply Z.div_pos; lia).
  assert (Hdm : interval * ((e - s) / interval) <= e - s
                /\ e - s < interval * ((e - s) / interval + 1)).
  { split.
    - apply Z.mul_div_le; lia.
    - replace ((e - s) / interval + 1) with (Z.succ ((e - s) / interval)) by lia.
      apply Z.mul_succ_div_gt; lia. }
  split; [|split; [|split; [|split]]].
  - unfold get_big_date_limits. rewrite Hmin, Hmax. cbn [bind].
    rewrite Hdays. cbn [bind].
    replace (total_days <=? 0) with false by (symmetry; apply Z.leb_gt; lia).
    replace (max_ticks =? 0) with false by (symmetry; apply Z.eqb_neq; lia).
    cbv zeta. rewrite interval_of_smallest_candidate. fold interval.
    rewrite first_of_next_month by exact Hhi.
    rewrite (first_of_month_index (date_of lo)) by exact Hlo.
    rewrite !month_index_first_of_month.
    replace (month_index {| year := year (date_of hi); month := month (date_of hi); day := 1 |})
      with (month_index (date_of hi)) by reflexivity.
    fold s. fold e.
    rewrite (ticks_loop_first_of_month interval e ltac:(lia)
               (Z.to_nat ((e - s) / interval + 1))).
    + rewrite Z2Nat.id by lia. reflexivity.
    + assert ((e - s) / interval <= e - s); [|lia].
      apply Z.div_le_upper_bound; nia.
    + rewrite Z2Nat.id by lia. nia.
  - subst s. symmetry. apply first_of_month_index. exact Hlo.
  - subst e. rewrite first_of_month_succ.
    rewrite <- (first_of_month_index (date_of hi)) by exact Hhi. reflexivity.
  - subst interval. unfold smallest_candidate. cbn [filter].
    repeat match goal with |- context [if ?b then _ else _] => destruct b end;
      cbn; tauto.
  - intros k Hk. split; intros H; nia.
Qed.

Lemma get_big_date_limits_ticks_witness :
  get_big_date_limits [DDate (mkdate 2024 1 15); DDate (mkdate 2024 6 20)] 6
  = Ok [mkdate 2024 1 1; mkdate 2024 2 1; mkdate 2024 3 1; mkdate 2024 4 1;
        mkdate 2024 5 1; mkdate 2024 6 1; mkdate 2024 7 1].
Proof.
  refine (proj1 (get_big_date_limits_ticks
            (DDate (mkdate 2024 1 15)) [DDate (mkdate 2024 6 20)] 6
            (DDate (mkdate 2024 1 15)) (DDate (mkdate 2024 6 20)) 157
            _ eq_refl eq_refl eq_refl eq_refl eq_refl)).
  repeat constructor; cbn; lia.
Defined.

(** ** Element lists *)

Lemma collapse_singletons {A : Type} (fragment : A -> string) (l : list A) :
  collapse_element_list (fun a => [fragment a]) l = map fragment l.
Proof.
  unfold collapse_element_list.
  induction l as [|a l IH]; cbn [flat_map map app]; [reflexivity|].
  rewrite IH. reflexivity.
Qed.

Lemma Axis_get_element_list_fragments (fmt : Q -> string) (a : Axis) :
  Axis_get_element_list fmt a
  = match axis_line a with Some l => [line_fragment fmt l] | None => [] end
    ++ map (line_fragment fmt) (tick_lines a)
    ++ map (text_fragment fmt) (tick_text a)
    ++ map (line_fragment fmt) (grid_lines a).
Proof.
  unfold Axis_get_element_list, Line_get_element_list, Text_get_element_list.
  rewrite !collapse_singletons.
  destruct (axis_line a); reflexivity.
Qed.

Lemma Chart_get_element_list_targets (fmt : Q -> string) (c : Chart) :
  Chart_get_element_list fmt c
  = safe_get_element_list (Axis_get_element_list fmt) (x_axis c)
    ++ safe_get_element_list (Axis_get_element_list fmt) (y_axis c)
    ++ safe_get_element_list (LineLegend_get_element_list fmt) (legend c)
    ++ map (fun ns => path_fragment fmt (snd ns)) (series c)
    ++ flat_map (Element_get_element_list fmt) (custom_elements c).
Proof.
  unfold Chart_get_element_list. rewrite !flat_map_app.
  rewrite <- !app_assoc. repeat f_equal.
  - destruct (x_axis c); cbn; [apply app_nil_r|reflexivity].
  - destruct (y_axis c); cbn; [apply app_nil_r|reflexivity].
  - destruct (legend c); cbn; [apply app_nil_r|reflexivity].
  - induction (series c) as [|ns l IH]; cbn; [reflexivity|]. rewrite IH. reflexivity.
  - induction (custom_elements c) as [|e l IH]; cbn; [reflexivity|].
    rewrite IH. reflexivity.
Qed.

(** C6. The element list of an axis is the baseline fragment (when the axis
    has a baseline), then one fragment per tick line, then one per tick
    label, then one per grid line, each group in list order.  The element
    list of a chart is the element list of the x axis, then that of the y
    axis, then that of the legend, each when present, then the path
    fragment of every series in insertion order, then the fragments of the
    custom elements in insertion order. *)
Theorem get_element_list_order (fmt : Q -> string) :
  (forall a : Axis,
      Axis_get_element_list fmt a
      = match axis_line a with Some l => [line_fragment fmt l] | None => [] end
        ++ map (line_fragment fmt) (tick_lines a)
        ++ map (text_fragment fmt) (tick_text a)
        ++ map (line_fragment fmt) (grid_lines a))
  /\ (forall c : Chart,
         Chart_get_element_list fmt c
         = match x_axis c with Some a => Axis_get_element_list fmt a | None => [] end
           ++ match y_axis c with Some a => Axis_get_element_list fmt a | None => [] end
           ++ match legend c with
              | Some l => LineLegend_get_element_list fmt l
              | None => []
              end
           ++ map (fun ns => path_fragment fmt (snd ns)) (series c)
           ++ flat_map (Element_get_element_list fmt) (custom_elements c)).
Proof.
  split.
  - apply Axis_get_element_list_fragments.
  - intros c. apply Chart_get_element_list_targets.
Qed.

(** Rendering reads the chart and returns text: a chart renders to the
    same document every time, header first and footer last. *)
Lemma render_document (fmt : Q -> string) (c : Chart) :
  render fmt c
  = String.concat newline
      (svg_begin fmt c :: Chart_get_element_list fmt c ++ ["</svg>"%string]).
Proof. reflexivity. Qed.

(** ** Minimum and maximum *)

Lemma q_min_acc (vs : list Q) : forall v, (q_min v vs <= v)%Q.
Proof.
  unfold q_min. induction vs as [|w vs IH]; intros v; cbn [fold_left].
  - apply Qle_refl.
  - destruct (Qltb w v) eqn:E.
    + eapply Qle_trans; [apply IH|]. apply Qlt_le_weak, Qltb_lt, E.
    + apply IH.
Qed.

Lemma q_min_le (vs : list Q) : forall v u, In u (v :: vs) -> (q_min v vs <= u)%Q.
Proof.
  induction vs as [|w vs IH]; intros v u Hx.
  - destruct Hx as [<-|[]]. apply Qle_refl.
  - destruct Hx as [<-|Hx].
    + apply q_min_acc.
    + change (q_min v (w :: vs)) with (q_min (if Qltb w v then w else v) vs).
      destruct Hx as [<-|Hx].
      * eapply Qle_trans; [apply q_min_acc|].
        destruct (Qltb w v) eqn:E; [apply Qle_refl|apply Qltb_ge, E].
      * apply IH. right. exact Hx.
Qed.

Lemma q_max_acc (vs : list Q) : forall v, (v <= q_max v vs)%Q.
Proof.
  unfold q_max. induction vs as [|w vs IH]; intros v; cbn [fold_left].
  - apply Qle_refl.
  - destruct (Qltb v w) eqn:E.
    + eapply Qle_trans; [|apply IH]. apply Qlt_le_weak, Qltb_lt, E.
    + apply IH.
Qed.

Lemma q_max_ge (vs : list Q) : forall v u, In u (v :: vs) -> (u <= q_max v vs)%Q.
Proof.
  induction vs as [|w vs IH]; intros v u Hx.
  - destruct Hx as [<-|[]]. apply Qle_refl.
  - destruct Hx as [<-|Hx].
    + apply q_max_acc.
    + change (q_max v (w :: vs)) with (q_max (if Qltb v w then w else v) vs).
      destruct Hx as [<-|Hx].
      * eapply Qle_trans; [|apply q_max_acc].
        destruct (Qltb v w) eqn:E; [apply Qle_refl|apply Qltb_ge, E].
      * apply IH. right. exact Hx.
Qed.

Lemma tick_min_from_numbers (vs : list Q) :
  forall v, tick_min_from (TNum v) (map TNum vs) = Ok (TNum (q_min v vs)).
Proof.
  induction vs as [|w vs IH]; intros v; [reflexivity|].
  cbn [map tick_min_from tick_ltb bind].
  change (q_min v (w :: vs)) with (q_min (if Qltb w v then w else v) vs).
  destruct (Qltb w v); apply IH.
Qed.

Lemma tick_max_from_numbers (vs : list Q) :
  forall v, tick_max_from (TNum v) (map TNum vs) = Ok (TNum (q_max v vs)).
Proof.
  induction vs as [|w vs IH]; intros v; [reflexivity|].
  cbn [map tick_max_from tick_ltb bind].
  change (q_max v (w :: vs)) with (q_max (if Qltb v w then w else v) vs).
  destruct (Qltb v w); apply IH.
Qed.

Lemma tick_min_from_dates (vs : list date) :
  forall v, tick_min_from (TDate v) (map TDate vs) = Ok (TDate (date_min v vs)).
Proof.
  induction vs as [|w vs IH]; intros v; [reflexivity|].
  cbn [map tick_min_from tick_ltb bind].
  change (date_min v (w :: vs)) with (date_min (if date_ltb w v then w else v) vs).
  destruct (date_ltb w v); apply IH.
Qed.

Lemma tick_max_from_dates (vs : list date) :
  forall v, tick_max_from (TDate v) (map TDate vs) = Ok (TDate (date_max v vs)).
Proof.
  induction vs as [|w vs IH]; intros v; [reflexivity|].
  cbn [map tick_max_from tick_ltb bind].
  change (date_max v (w :: vs)) with (date_max (if date_ltb v w then w else v) vs).
  destruct (date_ltb v w); apply IH.
Qed.

Lemma date_le_spec (a b : date) :
  date_le a b <->
  year a < year b
  \/ (year a = year b /\ (month a < month b \/ (month a = month b /\ day a <= day b))).
Proof.
  unfold date_le. split.
  - intros H. assert (N : ~ date_ltb b a = true) by congruence.
    rewrite date_ltb_spec in N. lia.
  - intros H. destruct (date_ltb b a) eqn:E; [|reflexivity].
    apply date_ltb_spec in E. lia.
Qed.

Lemma date_le_refl (a : date) : date_le a a.
Proof. apply date_le_spec. lia. Qed.

Lemma date_le_trans (a b c : date) : date_le a b -> date_le b c -> date_le a c.
Proof. rewrite !date_le_spec. lia. Qed.

Lemma date_min_acc (vs : list date) : forall v, date_le (date_min v vs) v.
Proof.
  unfold date_min. induction vs as [|w vs IH]; intros v; cbn [fold_left].
  - apply date_le_refl.
  - destruct (date_ltb w v) eqn:E.
    + eapply date_le_trans; [apply IH|].
      apply date_le_spec. apply date_ltb_spec in E. lia.
    + apply IH.
Qed.

Lemma date_min_le (vs : list date) : forall v d, In d (v :: vs) -> date_le (date_min v vs) d.
Proof.
  induction vs as [|w vs IH]; intros v d Hd.
  - destruct Hd as [<-|[]]. apply date_le_refl.
  - destruct Hd as [<-|Hd].
    + apply date_min_acc.
    + change (date_min v (w :: vs)) with (date_min (if date_ltb w v then w else v) vs).
      destruct Hd as [<-|Hd].
      * eapply date_le_trans; [apply date_min_acc|].
        destruct (date_ltb w v) eqn:E; [apply date_le_refl|].
        exact E.
      * apply IH. right. exact Hd.
Qed.

Lemma date_max_acc (vs : list date) : forall v, date_le v (date_max v vs).
Proof.
  unfold date_max. induction vs as [|w vs IH]; intros v; cbn [fold_left].
  - apply date_le_refl.
  - destruct (date_ltb v w) eqn:E.
    + eapply date_le_trans; [|apply IH].
      apply date_le_spec. apply date_ltb_spec in E. lia.
    + apply IH.
Qed.

Lemma date_max_ge (vs : list date) : forall v d, In d (v :: vs) -> date_le d (date_max v vs).
Proof.
  induction vs as [|w vs IH]; intros v d Hd.
  - destruct Hd as [<-|[]]. apply date_le_refl.
  - destruct Hd as [<-|Hd].
    + apply date_max_acc.
    + change (date_max v (w :: vs)) with (date_max (if date_ltb v w then w else v) vs).
      destruct Hd as [<-|Hd].
      * eapply date_le_trans; [|apply date_max_acc].
        destruct (date_ltb v w) eqn:E; [apply date_le_refl|].
        exact E.
      * apply IH. right. exact Hd.
Qed.

(** ** The ordinal of a date grows with the date *)

Lemma range_snoc (lo hi : Z) : lo <= hi -> range lo (hi + 1) = range lo hi ++ [hi].
Proof.
  intros H. unfold range.
  replace (Z.to_nat (hi + 1 - lo)) with (Z.to_nat (hi - lo) + 1)%nat by lia.
  rewrite seq_app, map_app. cbn [seq map]. do 2 f_equal. lia.
Qed.

Lemma days_before_month_succ (y m : Z) :
  1 <= m -> days_before_month y (m + 1) = days_before_month y m + days_in_month y m.
Proof.
  intros Hm. unfold days_before_month. rewrite range_snoc by lia.
  rewrite map_app. cbn [map].
  induction (map (days_in_month y) (range 1 m)) as [|d l IH]; cbn [app fold_right]; lia.
Qed.

Lemma days_before_month_mono (y m : Z) :
  1 <= m -> forall k, 0 <= k -> days_before_month y m <= days_before_month y (m + k).
Proof.
  intros Hm. apply natlike_ind.
  - rewrite Z.add_0_r. lia.
  - intros k Hk IH. replace (m + Z.succ k) with (m + k + 1) by lia.
    rewrite days_before_month_succ by lia.
    pose proof (days_in_month_bounds y (m + k)). lia.
Qed.

Lemma days_before_month_13 (y : Z) :
  days_before_month y 13 = 365 + (if is_leap y then 1 else 0).
Proof.
  unfold days_before_month.
  change (range 1 13) with [1; 2; 3; 4; 5; 6; 7; 8; 9; 10; 11; 12].
  unfold days_in_month. cbn [map fold_right Z.eqb Pos.eqb orb].
  destruct (is_leap y); lia.
Qed.

Lemma days_before_year_succ (y : Z) :
  days_before_year (y + 1) = days_before_year y + 365 + (if is_leap y then 1 else 0).
Proof.
  unfold days_before_year, is_leap. replace (y + 1 - 1) with y by lia.
  destruct (Z.eqb_spec (y mod 4) 0) as [H4|H4];
    destruct (Z.eqb_spec (y mod 100) 0) as [H100|H100];
    destruct (Z.eqb_spec (y mod 400) 0) as [H400|H400];
    cbn [andb orb negb]; Z.div_mod_to_equations; lia.
Qed.

Lemma days_before_year_mono (y : Z) :
  forall k, 0 <= k -> days_before_year y <= days_before_year (y + k).
Proof.
  apply natlike_ind.
  - rewrite Z.add_0_r. lia.
  - intros k Hk IH. replace (y + Z.succ k) with (y + k + 1) by lia.
    rewrite days_before_year_succ. destruct (is_leap (y + k)); lia.
Qed.

Lemma toordinal_lt (a b : date) :
  well_formed a -> well_formed b -> date_ltb a b = true -> toordinal a < toordinal b.
Proof.
  intros [Hma Hda] [Hmb Hdb] H. apply date_ltb_spec in H. unfold toordinal.
  assert (Hend : days_before_month (year a) (month a) + day a
                 <= days_before_month (year a) (month a + 1)).
  { rewrite days_before_month_succ by lia. lia. }
  destruct H as [H|[Hy [H|[Hm H]]]].
  - pose proof (days_before_month_mono (year a) (month a + 1) ltac:(lia)
                  (13 - (month a + 1)) ltac:(lia)) as M.
    replace (month a + 1 + (13 - (month a + 1))) with 13 in M by lia.
    rewrite days_before_month_13 in M.
    pose proof (days_before_year_succ (year a)) as S.
    pose proof (days_before_year_mono (year a + 1) (year b - (year a + 1)) ltac:(lia)) as Y.
    replace (year a + 1 + (year b - (year a + 1))) with (year b) in Y by lia.
    pose proof (days_before_month_mono (year b) 1 ltac:(lia) (month b - 1) ltac:(lia)) as B.
    replace (1 + (month b - 1)) with (month b) in B by lia.
    assert (B0 : days_before_month (year b) 1 = 0) by reflexivity.
    lia.
  - rewrite <- Hy.
    pose proof (days_before_month_mono (year a) (month a + 1) ltac:(lia)
                  (month b - (month a + 1)) ltac:(lia)) as M.
    replace (month a + 1 + (month b - (month a + 1))) with (month b) in M by lia.
    lia.
  - rewrite <- Hy, <- Hm. lia.
Qed.

(** ** [proportion_of_range] *)

Lemma proportion_of_range_numbers (a : Axis) (q : Q) (qs : list Q) (v : Q) :
  limits a = map TNum (q :: qs) ->
  proportion_of_range a (TNum v)
  = py_div (v - q_min q qs) (q_max q qs - q_min q qs).
Proof.
  intros H. unfold proportion_of_range, tick_min, tick_max. rewrite H.
  cbn [map]. rewrite tick_min_from_numbers, tick_max_from_numbers. reflexivity.
Qed.

Lemma proportion_of_range_dates (a : Axis) (d : date) (ds : list date) (v : date) :
  limits a = map TDate (d :: ds) ->
  proportion_of_range a (TDate v)
  = py_div (inject_Z (toordinal v - toordinal (date_min d ds)))
      (inject_Z (toordinal (date_max d ds) - toordinal (date_min d ds))).
Proof.
  intros H. unfold proportion_of_range, tick_min, tick_max. rewrite H.
  cbn [map]. rewrite tick_min_from_dates, tick_max_from_dates. reflexivity.
Qed.

Lemma py_div_ok (n d : Q) : ~ (d == 0)%Q -> py_div n d = Ok (n / d)%Q.
Proof.
  intros H. unfold py_div. destruct (Qeq_bool d 0) eqn:E; [|reflexivity].
  apply Qeq_bool_iff in E. contradiction.
Qed.

Lemma date_min_In (vs : list date) : forall v, In (date_min v vs) (v :: vs).
Proof.
  unfold date_min. induction vs as [|w vs IH]; intros v; cbn [fold_left].
  - left; reflexivity.
  - destruct (IH (if date_ltb w v then w else v)) as [H|H].
    + rewrite <- H. destruct (date_ltb w v); cbn; auto.
    + right; right; exact H.
Qed.

Lemma date_max_In (vs : list date) : forall v, In (date_max v vs) (v :: vs).
Proof.
  unfold date_max. induction vs as [|w vs IH]; intros v; cbn [fold_left].
  - left; reflexivity.
  - destruct (IH (if date_ltb v w then w else v)) as [H|H].
    + rewrite <- H. destruct (date_ltb v w); cbn; auto.
    + right; right; exact H.
Qed.

(** C8. On an axis whose limits hold at least two distinct values, numbers
    or well-formed dates as [get_limits] returns them,
    [proportion_of_range(min(limits))] is 0 and
    [proportion_of_range(max(limits))] is 1. *)
Theorem proportion_of_range_endpoints (a : Axis) (t1 t2 : tick) :
  (exists qs, limits a = map TNum qs)
  \/ (exists ds, limits a = map TDate ds /\ Forall well_formed ds) ->
  In t1 (limits a) ->
  In t2 (limits a) ->
  tick_eqb t1 t2 = false ->
  exists lo hi p0 p1,
    tick_min (limits a) = Ok lo
    /\ tick_max (limits a) = Ok hi
    /\ proportion_of_range a lo = Ok p0 /\ (p0 == 0)%Q
    /\ proportion_of_range a hi = Ok p1 /\ (p1 == 1)%Q.
Proof.
  intros [[qs Hl]|[ds [Hl Hwf]]] H1 H2 Hne.
  - rewrite Hl in H1, H2.
    apply in_map_iff in H1. destruct H1 as [u1 [<- H1]].
    apply in_map_iff in H2. destruct H2 as [u2 [<- H2]].
    destruct qs as [|q qs]; [destruct H1|].
    cbn [tick_eqb] in Hne. apply Qeq_bool_neq in Hne.
    pose proof (q_min_le qs q u1 H1) as L1.
    pose proof (q_min_le qs q u2 H2) as L2.
    pose proof (q_max_ge qs q u1 H1) as G1.
    pose proof (q_max_ge qs q u2 H2) as G2.
    assert (Hd : ~ (q_max q qs - q_min q qs == 0)%Q).
    { intros E. apply Hne.
      assert (E' : (q_max q qs == q_min q qs)%Q).
      { setoid_replace (q_max q qs) with (q_max q qs - q_min q qs + q_min q qs)%Q by ring.
        rewrite E. ring. }
      rewrite E' in G1, G2.
      transitivity (q_min q qs); [|symmetry]; apply Qle_antisym; assumption. }
    exists (TNum (q_min q qs)), (TNum (q_max q qs)).
    exists ((q_min q qs - q_min q qs) / (q_max q qs - q_min q qs))%Q.
    exists ((q_max q qs - q_min q qs) / (q_max q qs - q_min q qs))%Q.
    rewrite Hl. unfold tick_min, tick_max. cbn [map].
    rewrite tick_min_from_numbers, tick_max_from_numbers.
    rewrite !(proportion_of_range_numbers a q qs) by exact Hl.
    rewrite !py_div_ok by exact Hd.
    repeat split.
    + unfold Qdiv. setoid_replace (q_min q qs - q_min q qs)%Q with 0%Q by ring. ring.
    + apply Qmult_inv_r. exact Hd.
  - rewrite Hl in H1, H2.
    apply in_map_iff in H1. destruct H1 as [u1 [<- H1]].
    apply in_map_iff in H2. destruct H2 as [u2 [<- H2]].
    destruct ds as [|d ds]; [destruct H1|].
    cbn [tick_eqb] in Hne.
    assert (Hne' : ~ (year u1 = year u2 /\ month u1 = month u2 /\ day u1 = day u2)).
    { intros E. apply date_eqb_spec in E. congruence. }
    pose proof (proj1 (date_le_spec _ _) (date_min_le ds d u1 H1)) as L1.
    pose proof (proj1 (date_le_spec _ _) (date_min_le ds d u2 H2)) as L2.
    pose proof (proj1 (date_le_spec _ _) (date_max_ge ds d u1 H1)) as G1.
    pose proof (proj1 (date_le_spec _ _) (date_max_ge ds d u2 H2)) as G2.
    assert (Hlt : date_ltb (date_min d ds) (date_max d ds) = true).
    { apply date_ltb_spec. lia. }
    rewrite Forall_forall in Hwf.
    apply toordinal_lt in Hlt;
      [|apply Hwf, date_min_In|apply Hwf, date_max_In].
    assert (Hd : ~ (inject_Z (toordinal (date_max d ds) - toordinal (date_min d ds)) == 0)%Q).
    { intros E. unfold Qeq, inject_Z in E. cbn [Qnum Qden] in E. lia. }
    exists (TDate (date_min d ds)), (TDate (date_max d ds)).
    eexists. eexists.
    rewrite Hl. unfold tick_min, tick_max. cbn [map].
    rewrite tick_min_from_dates, tick_max_from_dates.
    rewrite !(proportion_of_range_dates a d ds) by exact Hl.
    rewrite !py_div_ok by exact Hd.
    repeat split.
    + rewrite Z.sub_diag. unfold Qdiv. ring.
    + apply Qmult_inv_r. exact Hd.
Qed.

Lemma proportion_of_range_endpoints_witness :
  exists lo hi p0 p1,
    tick_min (limits sample_axis) = Ok lo
    /\ tick_max (limits sample_axis) = Ok hi
    /\ proportion_of_range sample_axis lo = Ok p0 /\ (p0 == 0)%Q
    /\ proportion_of_range sample_axis hi = Ok p1 /\ (p1 == 1)%Q.
Proof.
  apply (proportion_of_range_endpoints sample_axis (TNum (0 # 1)) (TNum (2 # 1))).
  - left. exists [0 # 1; 2 # 1; 4 # 1]%Q. reflexivity.
  - cbn. auto.
  - cbn. auto.
  - reflexivity.
Defined.

(** ** [get_limits]: when it raises, and non-negative numbers *)

Lemma get_limits_few_values (values : list value) (max_ticks : Z) :
  (List.length (set_of values) <= 1)%nat ->
  get_limits values max_ticks
  = Raise (ValueError
             "Values must be a non-empty iterable with at least two unique elements.").
Proof.
  intros H. unfold get_limits.
  replace (Z.of_nat (List.length (set_of values)) <=? 1) with true
    by (symmetry; apply Z.leb_le; lia).
  reflexivity.
Qed.

Lemma get_limits_mixed (values : list value) (max_ticks : Z) :
  (2 <= List.length (set_of values))%nat ->
  forallb is_datelike values = false ->
  forallb is_number values = false ->
  get_limits values max_ticks = Raise (ValueError "Invalid numeric data").
Proof.
  intros H Hd Hn. unfold get_limits.
  replace (Z.of_nat (List.length (set_of values)) <=? 1) with false
    by (symmetry; apply Z.leb_gt; lia).
  rewrite Hd, Hn. reflexivity.
Qed.

Lemma get_big_date_limits_no_span (v : datelike) (vs : list datelike)
    (max_ticks : Z) (lo hi : datelike) (total_days : Z) :
  datelike_min v vs = Ok lo ->
  datelike_max v vs = Ok hi ->
  days_between lo hi = Ok total_days ->
  total_days <= 0 ->
  get_big_date_limits (v :: vs) max_ticks
  = Raise (ValueError "Dates must have a positive range.").
Proof.
  intros Hmin Hmax Hd Hle. unfold get_big_date_limits.
  rewrite Hmin, Hmax. cbn [bind]. rewrite Hd. cbn [bind].
  replace (total_days <=? 0) with true by (symmetry; apply Z.leb_le; exact Hle).
  reflexivity.
Qed.

Lemma set_of_incl (values : list value) : forall v, In v (set_of values) -> In v values.
Proof.
  induction values as [|w values IH]; intros v Hv; cbn [set_of] in Hv; [exact Hv|].
  destruct (existsb (py_eqb w) (set_of values)).
  - right. apply IH. exact Hv.
  - destruct Hv as [<-|Hv]; [left; reflexivity|right; apply IH; exact Hv].
Qed.

(** Values that are all equal make a set of at most one element. *)
Lemma set_of_all_equal (values : list value) :
  (forall a b, In a values -> In b values -> py_eqb a b = true) ->
  (List.length (set_of values) <= 1)%nat.
Proof.
  induction values as [|w values IH]; intros H; cbn [set_of]; [cbn; lia|].
  assert (IH' : (List.length (set_of values) <= 1)%nat).
  { apply IH. intros a b Ha Hb. apply H; right; assumption. }
  destruct (set_of values) as [|u s] eqn:E.
  - cbn. lia.
  - assert (Hu : In u values) by (apply set_of_incl; rewrite E; left; reflexivity).
    cbn [existsb]. rewrite (H w u) by (cbn; auto). cbn [orb]. exact IH'.
Qed.

Lemma choose_number_of_In (values : list value) (q : Q) :
  In q (choose number_of values) -> exists v, In v values /\ number_of v = Some q.
Proof.
  induction values as [|w values IH]; cbn [choose]; intros H; [destruct H|].
  destruct (number_of w) as [p|] eqn:E.
  - destruct H as [<-|H].
    + exists w. split; [left; reflexivity|exact E].
    + destruct (IH H) as [v [Hv Hq]]. exists v. split; [right; exact Hv|exact Hq].
  - destruct (IH H) as [v [Hv Hq]]. exists v. split; [right; exact Hv|exact Hq].
Qed.

Lemma number_of_In_choose (values : list value) (v : value) (q : Q) :
  In v values -> number_of v = Some q -> In q (choose number_of values).
Proof.
  induction values as [|w values IH]; intros Hv Hq; [destruct Hv|].
  cbn [choose]. destruct Hv as [->|Hv].
  - rewrite Hq. left. reflexivity.
  - destruct (number_of w); [right|]; apply IH; assumption.
Qed.

Lemma py_eqb_numbers (a b : value) (p q : Q) :
  number_of a = Some p -> number_of b = Some q -> py_eqb a b = Qeq_bool p q.
Proof.
  destruct a, b; cbn; intros Ha Hb; try discriminate; inversion Ha; inversion Hb;
    reflexivity.
Qed.

(** Numbers with at least two distinct elements: the smallest is below
    the largest. *)
Lemma distinct_numbers_min_lt_max (values : list value) (v : Q) (vs : list Q) :
  forallb is_number values = true ->
  (2 <= List.length (set_of values))%nat ->
  choose number_of values = v :: vs ->
  (q_min v vs < q_max v vs)%Q.
Proof.
  intros Hnum Hset Hch.
  apply Qnot_le_lt. intros Hle.
  assert (Hall : forall q, In q (v :: vs) -> (q == q_min v vs)%Q).
  { intros q Hq. apply Qle_antisym.
    - eapply Qle_trans; [apply q_max_ge; exact Hq|exact Hle].
    - apply q_min_le. exact Hq. }
  assert (Hone : (List.length (set_of values) <= 1)%nat); [|lia].
  apply set_of_all_equal. intros a b Ha Hb.
  rewrite forallb_forall in Hnum.
  pose proof (Hnum a Ha) as Na. pose proof (Hnum b Hb) as Nb.
  unfold is_number in Na, Nb.
  destruct (number_of a) as [p|] eqn:Ea; [|discriminate].
  destruct (number_of b) as [q|] eqn:Eb; [|discriminate].
  rewrite (py_eqb_numbers a b p q Ea Eb). apply Qeq_bool_iff.
  assert (Hp : In p (v :: vs))
    by (rewrite <- Hch; exact (number_of_In_choose _ a p Ha Ea)).
  assert (Hq : In q (v :: vs))
    by (rewrite <- Hch; exact (number_of_In_choose _ b q Hb Eb)).
  rewrite (Hall p Hp), (Hall q Hq). reflexivity.
Qed.

(** The run of [get_limits] on non-negative numbers with two distinct
    elements. *)
Lemma get_limits_nonneg_run (values : list value) (max_ticks : Z) :
  0 < max_ticks ->
  forallb is_number values = true ->
  (2 <= List.length (set_of values))%nat ->
  (forall q, In q (choose number_of values) -> (0 <= q)%Q) ->
  exists (pad : Q) (start end_ : Z),
    (0 < pad)%Q
    /\ start < end_
    /\ get_limits values max_ticks
       = Ok (map TNum (map (fun y => (inject_Z y * pad)%Q) (range start (end_ + 1))))
    /\ StronglySorted Qlt (map (fun y => (inject_Z y * pad)%Q) (range start (end_ + 1)))
    /\ (2 <= List.length (range start (end_ + 1)))%nat
    /\ (forall q, In q (choose number_of values) ->
          (inject_Z start * pad <= q)%Q /\ (q <= inject_Z end_ * pad)%Q).
Proof.
  intros Hm Hnum Hset Hpos.
  destruct values as [|w values]; [cbn in Hset; lia|].
  assert (Hw : is_number w = true) by (cbn [forallb] in Hnum; apply andb_true_iff in Hnum; tauto).
  assert (Hdl : forallb is_datelike (w :: values) = false).
  { cbn [forallb]. apply andb_false_iff. left.
    destruct w; cbn in Hw |- *; try discriminate; reflexivity. }
  destruct (choose number_of (w :: values)) as [|v vs] eqn:Hch.
  { cbn [choose] in Hch. unfold is_number in Hw.
    destruct (number_of w); discriminate. }
  pose proof (distinct_numbers_min_lt_max _ _ _ Hnum Hset Hch) as Hlt.
  assert (Hlo : (0 <= q_min v vs)%Q).
  { apply Hpos. unfold q_min.
    clear -v. revert v. induction vs as [|u vs IH]; intros v; cbn [fold_left].
    - left; reflexivity.
    - destruct (IH (if Qltb u v then u else v)) as [H|H].
      + rewrite <- H. destruct (Qltb u v); cbn; auto.
      + right; right; exact H. }
  destruct (get_numeric_limits_nonneg v vs max_ticks Hm Hlo Hlt)
    as (pad & start & end_ & Hpad & Hse & Heq & Hfirst & Hlast & Hsorted & Hlen & _).
  exists pad, start, end_.
  split; [exact Hpad|]. split; [exact Hse|]. split; [|split; [exact Hsorted|split; [exact Hlen|]]].
  - rewrite get_limits_numeric; [|apply Z.leb_gt; lia|exact Hdl|exact Hnum].
    rewrite Hch, Heq. reflexivity.
  - intros q Hq. split.
    + eapply Qle_trans; [exact Hfirst|]. apply q_min_le. exact Hq.
    + eapply Qle_trans; [|exact Hlast]. apply q_max_ge. exact Hq.
Qed.

(** X3. What the limits promise, on non-negative numbers: for numbers with at
    least two distinct elements, none negative, and a positive
    [max_ticks], [get_limits] returns at least two strictly increasing
    ticks, the first at most every value and the last at least every
    value. *)
Theorem get_limits_nonneg_numbers (values : list value) (max_ticks : Z) :
  0 < max_ticks ->
  forallb is_number values = true ->
  (2 <= List.length (set_of values))%nat ->
  (forall q, In q (choose number_of values) -> (0 <= q)%Q) ->
  exists (pad : Q) (start end_ : Z),
    (0 < pad)%Q
    /\ start < end_
    /\ get_limits values max_ticks
       = Ok (map TNum (map (fun y => (inject_Z y * pad)%Q) (range start (end_ + 1))))
    /\ StronglySorted Qlt (map (fun y => (inject_Z y * pad)%Q) (range start (end_ + 1)))
    /\ (2 <= List.length (range start (end_ + 1)))%nat
    /\ (forall q, In q (choose number_of values) ->
          (inject_Z start * pad <= q)%Q /\ (q <= inject_Z end_ * pad)%Q).
Proof. exact (get_limits_nonneg_run values max_ticks). Qed.

Lemma get_limits_nonneg_numbers_witness :
  exists (pad : Q) (start end_ : Z),
    (0 < pad)%Q
    /\ start < end_
    /\ get_limits [VInt 1; VInt 3; VFloat (5 # 2)] 10
       = Ok (map TNum (map (fun y => (inject_Z y * pad)%Q) (range start (end_ + 1))))
    /\ StronglySorted Qlt (map (fun y => (inject_Z y * pad)%Q) (range start (end_ + 1)))
    /\ (2 <= List.length (range start (end_ + 1)))%nat
    /\ (forall q, In q (choose number_of [VInt 1; VInt 3; VFloat (5 # 2)]) ->
          (inject_Z start * pad <= q)%Q /\ (q <= inject_Z end_ * pad)%Q).
Proof.
  apply (get_limits_nonneg_numbers [VInt 1; VInt 3; VFloat (5 # 2)] 10).
  - lia.
  - reflexivity.
  - vm_compute. lia.
  - intros q Hq. cbn in Hq.
    destruct Hq as [<-|[<-|[<-|[]]]]; discriminate.
Defined.

(** ** Date ticks grow, and there are at least two from two ticks on *)

Lemma first_of_month_ltb (a b : Z) :
  date_ltb (first_of_month a) (first_of_month b) = (a <? b).
Proof.
  pose proof (first_of_month_leb b a) as H. unfold date_leb in H.
  apply (f_equal negb) in H. rewrite negb_involutive in H. rewrite H.
  rewrite Z.leb_antisym, negb_involutive. reflexivity.
Qed.

Lemma date_ticks_strictly_increasing (s iv : Z) (n : nat) :
  0 < iv ->
  forall lo hi, Z.to_nat (hi - lo) = n ->
    StronglySorted (fun a b => date_ltb a b = true)
      (map (fun k => first_of_month (s + k * iv)) (range lo hi)).
Proof.
  intros Hiv. induction n as [|n IH]; intros lo hi Hn.
  - rewrite range_nil by lia. constructor.
  - rewrite range_cons by lia. cbn [map]. constructor.
    + apply IH. lia.
    + apply Forall_forall. intros t Ht. apply in_map_iff in Ht.
      destruct Ht as [j [<- Hj]]. apply range_In in Hj.
      rewrite first_of_month_ltb. apply Z.ltb_lt. nia.
Qed.

(** The ordinal of the first day of a month. *)
Lemma toordinal_first_of_month_succ (i : Z) :
  toordinal (first_of_month (i + 1))
  = toordinal (first_of_month i)
    + days_in_month (year (first_of_month i)) (month (first_of_month i)).
Proof.
  rewrite first_of_month_succ.
  assert (Hm : 1 <= month (first_of_month i) <= 12).
  { unfold first_of_month; cbn [month].
    pose proof (Z.mod_pos_bound i 12 ltac:(lia)). lia. }
  assert (Hd : day (first_of_month i) = 1) by reflexivity.
  destruct (month (first_of_month i) <? 12) eqn:E.
  - unfold toordinal. cbn [year month day]. rewrite Hd.
    rewrite days_before_month_succ by lia. lia.
  - apply Z.ltb_ge in E. assert (E12 : month (first_of_month i) = 12) by lia.
    unfold toordinal. cbn [year month day]. rewrite Hd, E12.
    rewrite days_before_year_succ.
    pose proof (days_before_month_13 (year (first_of_month i))) as H13.
    change 13 with (12 + 1) in H13. rewrite days_before_month_succ in H13 by lia.
    change (days_before_month (year (first_of_month i) + 1) 1) with 0. lia.
Qed.

Lemma toordinal_first_of_month_bound (i : Z) :
  forall n, 0 <= n ->
    toordinal (first_of_month (i + n)) <= toordinal (first_of_month i) + 31 * n.
Proof.
  apply natlike_ind.
  - rewrite Z.add_0_r. lia.
  - intros n Hn IH. replace (i + Z.succ n) with (i + n + 1) by lia.
    rewrite toordinal_first_of_month_succ.
    pose proof (days_in_month_bounds (year (first_of_month (i + n)))
                  (month (first_of_month (i + n)))). lia.
Qed.

(** Dates [days] apart lie in months at least [(days + 1) / 31] apart. *)
Lemma toordinal_span (lo hi : date) :
  well_formed lo -> well_formed hi ->
  month_index lo <= month_index hi ->
  toordinal hi - toordinal lo + 1 <= 31 * (month_index hi + 1 - month_index lo).
Proof.
  intros [Hml Hdl] [Hmh Hdh] Hle.
  pose proof (toordinal_first_of_month_bound (month_index lo)
                (month_index hi + 1 - month_index lo) ltac:(lia)) as B.
  replace (month_index lo + (month_index hi + 1 - month_index lo))
    with (month_index hi + 1) in B by lia.
  rewrite toordinal_first_of_month_succ in B.
  rewrite <- !first_of_month_index in B by assumption.
  unfold toordinal in *. cbn [year month day] in B. lia.
Qed.

Lemma raw_interval_above (total_days max_ticks c : Z) :
  0 < max_ticks -> 0 <= c ->
  Qle_bool (inject_Z total_days / 30 / inject_Z max_ticks) (inject_Z c) = false ->
  30 * c * max_ticks < total_days.
Proof.
  intros Hm Hc E.
  assert (H : (inject_Z c < inject_Z total_days / 30 / inject_Z max_ticks)%Q).
  { apply Qnot_le_lt. intros N. apply Qle_bool_iff in N. congruence. }
  assert (Hmq : (0 < inject_Z max_ticks)%Q) by (apply inject_Z_pos; exact Hm).
  assert (H' : (inject_Z c * inject_Z max_ticks * inject_Z 30 < inject_Z total_days)%Q).
  { setoid_replace (inject_Z total_days)
      with (inject_Z total_days / 30 / inject_Z max_ticks * inject_Z max_ticks
            * inject_Z 30)%Q
      by (field; intros N; rewrite N in Hmq; discriminate Hmq).
    apply Qmult_lt_compat_r; [reflexivity|].
    apply Qmult_lt_compat_r; [exact Hmq|exact H]. }
  rewrite <- !inject_Z_mult in H'.
  rewrite <- Zlt_Qlt in H'. lia.
Qed.

(** With at least two ticks asked for, the interval fits between the
    first tick and the end: there are at least two ticks. *)
Lemma interval_fits (total_days max_ticks span : Z) :
  2 <= max_ticks ->
  1 <= span ->
  total_days + 1 <= 31 * span ->
  smallest_candidate (inject_Z total_days / 30 / inject_Z max_ticks) <= span.
Proof.
  intros Hm Hs Hd. rewrite <- interval_of_smallest_candidate. unfold interval_of.
  destruct (Qle_bool _ 1) eqn:E1; [lia|].
  apply (raw_interval_above _ _ 1) in E1; try lia.
  destruct (Qle_bool _ 2) eqn:E2; [lia|].
  apply (raw_interval_above _ _ 2) in E2; try lia.
  destruct (Qle_bool _ 3) eqn:E3; [lia|].
  apply (raw_interval_above _ _ 3) in E3; try lia.
  destruct (Qle_bool _ 6) eqn:E6; [lia|].
  apply (raw_interval_above _ _ 6) in E6; try lia.
Qed.

(** The run of [get_big_date_limits] on a positive span: the ticks are
    the first days of the months [s], [s + interval], ... up to the month
    after the latest date. *)
Lemma get_big_date_limits_run (v : datelike) (vs : list datelike)
    (max_ticks : Z) (lo hi : datelike) (total_days : Z) :
  Forall (fun d => 1 <= month (date_of d) <= 12) (v :: vs) ->
  datelike_min v vs = Ok lo ->
  datelike_max v vs = Ok hi ->
  days_between lo hi = Ok total_days ->
  0 < total_days ->
  0 < max_ticks ->
  let interval := smallest_candidate (inject_Z total_days / 30 / inject_Z max_ticks) in
  let s := month_index (date_of lo) in
  let e := month_index (date_of hi) + 1 in
  1 <= interval <= 12
  /\ s < e
  /\ get_big_date_limits (v :: vs) max_ticks
     = Ok (map (fun k => first_of_month (s + k * interval))
             (range 0 ((e - s) / interval + 1))).
Proof.
  intros Hwf Hmin Hmax Hdays Hpos Hticks interval s e.
  rewrite Forall_forall in Hwf.
  pose proof (Hwf _ (datelike_min_In _ _ _ Hmin)) as Hlo.
  pose proof (Hwf _ (datelike_max_In _ _ _ Hmax)) as Hhi.
  assert (Hiv : 1 <= interval <= 12).
  { subst interval. rewrite <- interval_of_smallest_candidate. apply interval_of_pos. }
  assert (Hse : s < e).
  { assert (month_index (date_of lo) <= month_index (date_of hi)); [|subst s e; lia].
    apply ym_le_month_index; try assumption.
    exact (ym_le_trans _ _ _ (datelike_min_le _ _ _ Hmin) (datelike_max_ge _ _ _ Hmax)). }
  split; [exact Hiv|]. split; [exact Hse|].
  assert (Hq : 0 <= (e - s) / interval) by (apply Z.div_pos; lia).
  pose proof (Z.mul_div_le (e - s) interval ltac:(lia)) as Hd1.
  pose proof (Z.mul_succ_div_gt (e - s) interval ltac:(lia)) as Hd2.
  unfold get_big_date_limits. rewrite Hmin, Hmax. cbn [bind].
  rewrite Hdays. cbn [bind].
  replace (total_days <=? 0) with false by (symmetry; apply Z.leb_gt; lia).
  replace (max_ticks =? 0) with false by (symmetry; apply Z.eqb_neq; lia).
  cbv zeta. rewrite interval_of_smallest_candidate. fold interval.
  rewrite first_of_next_month by exact Hhi.
  rewrite (first_of_month_index (date_of lo)) by exact Hlo.
  rewrite !month_index_first_of_month.
  replace (month_index {| year := year (date_of hi); month := month (date_of hi); day := 1 |})
    with (month_index (date_of hi)) by reflexivity.
  fold s. fold e.
  rewrite (ticks_loop_first_of_month interval e ltac:(lia)
             (Z.to_nat ((e - s) / interval + 1))).
  - rewrite Z2Nat.id by lia. reflexivity.
  - assert ((e - s) / interval <= e - s); [|lia].
    apply Z.div_le_upper_bound; nia.
  - rewrite Z2Nat.id by lia. nia.
Qed.

(** X7. For dates (not datetimes) and [2 <= max_ticks] the ticks of
    [get_big_date_limits] are at least two and strictly increasing. *)
Theorem get_big_date_limits_at_least_two (v : date) (vs : list date)
    (max_ticks : Z) (lo hi : date) :
  Forall well_formed (v :: vs) ->
  datelike_min (DDate v) (map DDate vs) = Ok (DDate lo) ->
  datelike_max (DDate v) (map DDate vs) = Ok (DDate hi) ->
  0 < toordinal hi - toordinal lo ->
  2 <= max_ticks ->
  exists ticks,
    get_big_date_limits (map DDate (v :: vs)) max_ticks = Ok ticks
    /\ (2 <= List.length ticks)%nat
    /\ StronglySorted (fun a b => date_ltb a b = true) ticks.
Proof.
  intros Hwf Hmin Hmax Hpos Hticks.
  assert (Hm : Forall (fun d => 1 <= month (date_of d) <= 12) (DDate v :: map DDate vs)).
  { change (DDate v :: map DDate vs) with (map DDate (v :: vs)).
    rewrite Forall_map. eapply Forall_impl; [|exact Hwf].
    intros d [H _]. exact H. }
  destruct (get_big_date_limits_run (DDate v) (map DDate vs) max_ticks
              (DDate lo) (DDate hi) (toordinal hi - toordinal lo)
              Hm Hmin Hmax eq_refl Hpos ltac:(lia))
    as [[Hiv _] [_ Heq]].
  cbn [date_of] in Heq.
  set (iv := smallest_candidate
               (inject_Z (toordinal hi - toordinal lo) / 30 / inject_Z max_ticks)) in *.
  assert (Hlo : well_formed lo).
  { rewrite Forall_forall in Hwf.
    pose proof (datelike_min_In _ _ _ Hmin) as Hi.
    change (DDate v :: map DDate vs) with (map DDate (v :: vs)) in Hi.
    apply in_map_iff in Hi. destruct Hi as [d [Ed Hd]]. inversion Ed. subst d.
    apply Hwf. exact Hd. }
  assert (Hhi : well_formed hi).
  { rewrite Forall_forall in Hwf.
    pose proof (datelike_max_In _ _ _ Hmax) as Hi.
    change (DDate v :: map DDate vs) with (map DDate (v :: vs)) in Hi.
    apply in_map_iff in Hi. destruct Hi as [d [Ed Hd]]. inversion Ed. subst d.
    apply Hwf. exact Hd. }
  assert (Hle : month_index lo <= month_index hi).
  { apply ym_le_month_index; [apply Hlo|apply Hhi|].
    eapply ym_le_trans.
    - apply (datelike_min_le _ _ _ Hmin).
    - apply (datelike_max_ge _ _ _ Hmax). }
  pose proof (toordinal_span lo hi Hlo Hhi Hle) as Hspan.
  assert (Hfit : iv <= month_index hi + 1 - month_index lo).
  { apply interval_fits; lia. }
  eexists. split; [exact Heq|]. split.
  - rewrite length_map, range_length.
    assert (1 <= (month_index hi + 1 - month_index lo) / iv).
    { apply Z.div_le_lower_bound; lia. }
    lia.
  - eapply date_ticks_strictly_increasing; [lia|reflexivity].
Qed.

Lemma get_big_date_limits_at_least_two_witness :
  exists ticks,
    get_big_date_limits (map DDate [mkdate 2024 1 15; mkdate 2024 6 20]) 6 = Ok ticks
    /\ (2 <= List.length ticks)%nat
    /\ StronglySorted (fun a b => date_ltb a b = true) ticks.
Proof.
  apply (get_big_date_limits_at_least_two (mkdate 2024 1 15) [mkdate 2024 6 20] 6
           (mkdate 2024 1 15) (mkdate 2024 6 20)).
  - repeat constructor; cbn; lia.
  - reflexivity.
  - reflexivity.
  - vm_compute. reflexivity.
  - lia.
Defined.

(** ** Loops *)

Lemma for_each_invariant {A S : Type} (P : S -> Prop) (body : S -> A -> result S)
    (l : list A) :
  (forall s a s', P s -> body s a = Ok s' -> P s') ->
  forall s s', P s -> for_each l body s = Ok s' -> P s'.
Proof.
  intros Hbody. induction l as [|a l IH]; intros s s' Hs H; cbn [for_each] in H.
  - inversion H. subst. exact Hs.
  - destruct (body s a) as [s1|e] eqn:E; cbn [bind] in H; [|discriminate].
    eapply IH; [|exact H]. eapply Hbody; eassumption.
Qed.

Lemma enumerate_seq {A : Type} (l : list A) :
  enumerate l = combine (map Z.of_nat (seq 0 (List.length l))) l.
Proof.
  unfold enumerate, range. rewrite Z.sub_0_r, Nat2Z.id. reflexivity.
Qed.

(** ** Default stroke colours *)

Lemma assign_colours_length (ser ser' : dict SimpleLineSeries) :
  assign_colours ser = Ok ser' -> List.length ser' = List.length ser.
Proof.
  unfold assign_colours.
  apply (for_each_invariant (fun d => List.length d = List.length ser)); [|reflexivity].
  intros d [index name] d' Hd H.
  destruct (nth_error line_colour_defaults (Z.to_nat index)); [|discriminate].
  inversion H. rewrite length_map. exact Hd.
Qed.

Lemma assign_colours_raise (ser : dict SimpleLineSeries) :
  (3 < List.length ser)%nat -> assign_colours ser = Raise IndexError.
Proof.
  intros H.
  destruct ser as [|e0 [|e1 [|e2 [|e3 ser]]]]; cbn [List.length] in H; try lia.
  unfold assign_colours. rewrite enumerate_seq.
  cbn [List.length map seq combine fst].
  reflexivity.
Qed.

Lemma assign_colours_at_most_three (ser ser' : dict SimpleLineSeries) :
  assign_colours ser = Ok ser' -> (List.length ser' <= 3)%nat.
Proof.
  intros H. rewrite (assign_colours_length _ _ H).
  destruct (Nat.le_gt_cases (List.length ser) 3) as [L|L]; [exact L|].
  rewrite (assign_colours_raise ser L) in H. discriminate.
Qed.

(** ** The series dict *)

Lemma dict_set_fresh {V : Type} (d : dict V) (k : string) (v : V) :
  ~ In k (map fst d) -> dict_set d k v = d ++ [(k, v)].
Proof.
  induction d as [|[k' v'] d IH]; intros H; cbn [dict_set app]; [reflexivity|].
  cbn [map fst In] in H.
  destruct (String.eqb_spec k' k) as [E|E]; [exfalso; apply H; left; exact E|].
  rewrite IH by tauto. reflexivity.
Qed.

Lemma build_series_keys (xa ya : Axis) (x_values : list value) :
  forall (pairs : list (string * list value)) (d d' : dict SimpleLineSeries),
    NoDup (map fst d ++ map fst pairs) ->
    for_each pairs
      (fun d ny =>
         xs <- SimpleXAxis_get_positions xa x_values ;;
         ys <- YAxis_get_positions ya (snd ny) ;;
         s <- SimpleLineSeries_init
                (map (fun p => mkPoint (fst p) (snd p)) (combine xs ys)) ;;
         Ok (dict_set d (fst ny) s))
      d = Ok d' ->
    map fst d' = map fst d ++ map fst pairs.
Proof.
  induction pairs as [|[n yv] pairs IH]; intros d d' Hnd H; cbn [for_each] in H.
  - inversion H. cbn [map]. rewrite app_nil_r. reflexivity.
  - destruct (SimpleXAxis_get_positions xa x_values) as [xs|e]; cbn [bind] in H;
      [|discriminate].
    cbn [snd fst] in H.
    destruct (YAxis_get_positions ya yv) as [ys|e]; cbn [bind] in H; [|discriminate].
    destruct (SimpleLineSeries_init _) as [s|e]; cbn [bind] in H; [|discriminate].
    cbn [map fst] in Hnd |- *.
    assert (Hfresh : ~ In n (map fst d)).
    { apply NoDup_remove_2 in Hnd. intros Hin. apply Hnd. apply in_or_app. left. exact Hin. }
    rewrite dict_set_fresh in H by exact Hfresh.
    apply IH in H.
    + rewrite H, map_app. cbn [map fst]. rewrite <- app_assoc. reflexivity.
    + rewrite map_app. cbn [map fst]. rewrite <- app_assoc. exact Hnd.
Qed.

Lemma build_series_length (xa ya : Axis) (x_values : list value)
    (series_names : list string) (y_values : list (list value))
    (ser : dict SimpleLineSeries) :
  NoDup series_names ->
  build_series xa ya x_values series_names y_values = Ok ser ->
  List.length ser = Nat.min (List.length series_names) (List.length y_values).
Proof.
  intros Hnd H. unfold build_series in H.
  apply build_series_keys in H.
  - cbn [map app] in H.
    rewrite <- (length_map fst ser), H, length_map. apply length_combine.
  - cbn [map app].
    clear H. revert y_values.
    induction Hnd as [|n names Hn Hnd IH]; intros y_values; [constructor|].
    destruct y_values as [|yv y_values]; [constructor|].
    cbn [combine map fst]. constructor.
    + intros Hin. apply Hn. clear -Hin. revert y_values Hin.
      induction names as [|m names IHn]; intros y_values Hin; [destruct Hin|].
      destruct y_values as [|yv y_values]; [destruct Hin|].
      cbn [combine map fst In] in Hin. destruct Hin as [E|Hin]; [left; exact E|].
      right. eapply IHn. exact Hin.
    + apply IH.
Qed.

(** ** [SimpleLineChart] *)

(** A chart that was built holds at most three series. *)
Lemma SimpleLineChart_at_most_three_series (x_values : list value)
    (y_values : list (list value)) (y_names : option (list string))
    (x_max_ticks y_max_ticks : Z) (x_margin y_margin height width : Q)
    (x_labels y_labels : tick -> string) (c : Chart) :
  SimpleLineChart_init x_values y_values y_names x_max_ticks y_max_ticks
    x_margin y_margin height width x_labels y_labels = Ok c ->
  (List.length (series c) <= 3)%nat.
Proof.
  unfold SimpleLineChart_init. intros H.
  destruct (YAxis_init _ _ _ _ _ _ _ _) as [ya|e]; cbn [bind] in H; [|discriminate].
  destruct (XAxis_init _ _ _ _ _ _ _ _) as [xa|e]; cbn [bind] in H; [|discriminate].
  destruct (build_series _ _ _ _ _) as [ser|e]; cbn [bind] in H; [|discriminate].
  destruct (assign_colours ser) as [ser'|e] eqn:E; cbn [bind] in H; [|discriminate].
  inversion H. cbn [series]. eapply assign_colours_at_most_three. exact E.
Qed.

(** C9. A chart built without [y_names] holds exactly one series: it is
    named ['Series range(0, N)'] with [N] the number of y-value lists, its
    points come from the first list of y values alone, and it has the first
    default colour. *)
Theorem SimpleLineChart_default_name (x_values : list value)
    (y_values : list (list value))
    (x_max_ticks y_max_ticks : Z) (x_margin y_margin height width : Q)
    (x_labels y_labels : tick -> string) (c : Chart) :
  SimpleLineChart_init x_values y_values None x_max_ticks y_max_ticks
    x_margin y_margin height width x_labels y_labels = Ok c ->
  exists y0 rest ya xa xs ys s,
    y_values = y0 :: rest
    /\ y_axis c = Some ya
    /\ x_axis c = Some xa
    /\ SimpleXAxis_get_positions xa x_values = Ok xs
    /\ YAxis_get_positions ya y0 = Ok ys
    /\ SimpleLineSeries_init (map (fun p => mkPoint (fst p) (snd p)) (combine xs ys))
       = Ok s
    /\ series c
       = [(("Series range(0, " ++ str_of_nat (List.length y_values) ++ ")")%string,
           set_series_styles s
             (dict_set (styles (Series_shape s)) "stroke"%string "green"%string))].
Proof.
  unfold SimpleLineChart_init. intros H.
  destruct (YAxis_init _ _ _ _ _ _ _ _) as [ya|e] eqn:Hya; cbn [bind] in H; [|discriminate].
  destruct (XAxis_init _ _ _ _ _ _ _ _) as [xa|e] eqn:Hxa; cbn [bind] in H; [|discriminate].
  destruct y_values as [|y0 rest].
  { unfold YAxis_init, Axis_init in Hya. cbn in Hya. discriminate. }
  unfold build_series in H. cbn [combine for_each snd fst] in H.
  destruct (SimpleXAxis_get_positions xa x_values) as [xs|e] eqn:Hxs; cbn [bind] in H;
    [|discriminate].
  destruct (YAxis_get_positions ya y0) as [ys|e] eqn:Hys; cbn [bind] in H; [|discriminate].
  destruct (SimpleLineSeries_init _) as [s|e] eqn:Hs; cbn [bind] in H; [|discriminate].
  cbn [dict_set] in H.
  unfold assign_colours in H. rewrite enumerate_seq in H.
  cbn [List.length map seq combine fst for_each bind] in H.
  change (Z.to_nat (Z.of_nat 0)) with 0%nat in H.
  cbn [nth_error line_colour_defaults] in H.
  rewrite String.eqb_refl in H. cbn [bind fst snd] in H.
  inversion H. cbn [y_axis x_axis series].
  exists y0, rest, ya, xa, xs, ys, s.
  repeat split; try reflexivity; assumption.
Qed.

(** ** Grid lines *)






Lemma len_minus_1_nonzero {A : Type} (l : list A) :
  (2 <= List.length l)%nat -> ~ (len l - 1 == 0)%Q.
Proof.
  intros H. unfold len, Qeq, Qminus, Qplus, Qopp, inject_Z. cbn [Qnum Qden]. lia.
Qed.




(** ** The worked examples *)

Lemma value_of_ok {A : Type} (r : result A) (default a : A) :
  r = Ok a -> r = Ok (value_of r default).
Proof. intros ->. reflexivity. Qed.

Lemma sample_x_limits :
  get_limits sample_x_values 12 = Ok [TNum (0 # 1); TNum (2 # 1); TNum (4 # 1)].
Proof.
  rewrite get_limits_numeric by (vm_compute; reflexivity).
  change (choose number_of sample_x_values) with [0 # 1; 1 # 1; 2 # 1]%Q.
  rewrite (get_numeric_limits_run _ _ _ (2 # 1) [0 # 1; 2 # 1; 4 # 1]%Q).
  - reflexivity.
  - discriminate.
  - vm_compute; reflexivity.
  - apply leader_of_2; vm_compute; discriminate.
  - vm_compute; reflexivity.
Qed.

Lemma sample_y_limits :
  get_limits (List.concat sample_y_values) 12
  = Ok [TNum (0 # 1); TNum (2 # 1); TNum (4 # 1); TNum (6 # 1)].
Proof.
  rewrite get_limits_numeric by (vm_compute; reflexivity).
  change (choose number_of (List.concat sample_y_values))
    with [1 # 1; 2 # 1; 3 # 1; 2 # 1; 3 # 1; 4 # 1]%Q.
  rewrite (get_numeric_limits_run _ _ _ (2 # 1) [0 # 1; 2 # 1; 4 # 1; 6 # 1]%Q).
  - reflexivity.
  - discriminate.
  - vm_compute; reflexivity.
  - apply leader_of_2; vm_compute; discriminate.
  - vm_compute; reflexivity.
Qed.

Lemma sample_y_limits4 :
  get_limits (List.concat sample_y_values4) 12
  = Ok [TNum (0 # 1); TNum (2 # 1); TNum (4 # 1); TNum (6 # 1); TNum (8 # 1)].
Proof.
  rewrite get_limits_numeric by (vm_compute; reflexivity).
  change (choose number_of (List.concat sample_y_values4))
    with [1 # 1; 2 # 1; 3 # 1; 2 # 1; 3 # 1; 4 # 1; 3 # 1; 4 # 1; 5 # 1;
          4 # 1; 5 # 1; 6 # 1]%Q.
  rewrite (get_numeric_limits_run _ _ _ (2 # 1) [0 # 1; 2 # 1; 4 # 1; 6 # 1; 8 # 1]%Q).
  - reflexivity.
  - discriminate.
  - vm_compute; reflexivity.
  - apply leader_of_2; vm_compute; discriminate.
  - vm_compute; reflexivity.
Qed.

Lemma chart_named_built :
  SimpleLineChart_init sample_x_values sample_y_values (Some ["a"; "b"]%string)
    12 12 100 100 600 800 sample_label sample_label = Ok chart_named.
Proof.
  unfold SimpleLineChart_init, YAxis_init, XAxis_init, Axis_init.
  rewrite sample_y_limits, sample_x_limits.
  vm_compute. reflexivity.
Qed.

Lemma chart_unnamed_built :
  SimpleLineChart_init sample_x_values sample_y_values None
    12 12 100 100 600 800 sample_label sample_label = Ok chart_unnamed.
Proof.
  unfold SimpleLineChart_init, YAxis_init, XAxis_init, Axis_init.
  rewrite sample_y_limits, sample_x_limits.
  vm_compute. reflexivity.
Qed.

Lemma y_axis4_built :
  YAxis_init 100 100 (List.concat sample_y_values4) (600 - 2 * 100)%Q
    sample_label 12 None 5 = Ok y_axis4.
Proof.
  unfold YAxis_init, Axis_init. rewrite sample_y_limits4. vm_compute. reflexivity.
Qed.

Lemma x_axis4_built :
  XAxis_init 100 (600 - 100)%Q sample_x_values (800 - 2 * 100)%Q
    sample_label 12 None 5 = Ok x_axis4.
Proof.
  unfold XAxis_init, Axis_init. rewrite sample_x_limits. vm_compute. reflexivity.
Qed.

Lemma series4_built :
  build_series x_axis4 y_axis4 sample_x_values sample_names4 sample_y_values4
  = Ok series4.
Proof. vm_compute. reflexivity. Qed.

Lemma SimpleLineChart_default_name_witness :
  exists y0 rest ya xa xs ys s,
    sample_y_values = y0 :: rest
    /\ y_axis chart_unnamed = Some ya
    /\ x_axis chart_unnamed = Some xa
    /\ SimpleXAxis_get_positions xa sample_x_values = Ok xs
    /\ YAxis_get_positions ya y0 = Ok ys
    /\ SimpleLineSeries_init (map (fun p => mkPoint (fst p) (snd p)) (combine xs ys))
       = Ok s
    /\ series chart_unnamed
       = [(("Series range(0, " ++ str_of_nat (List.length sample_y_values) ++ ")")%string,
           set_series_styles s
             (dict_set (styles (Series_shape s)) "stroke"%string "green"%string))].
Proof.
  apply (SimpleLineChart_default_name sample_x_values sample_y_values
           12 12 100 100 600 800 sample_label sample_label chart_unnamed).
  exact chart_unnamed_built.
Defined.

(** The name of the only series of [chart_unnamed], written out. *)
Example chart_unnamed_series_names :
  map fst (series chart_unnamed) = ["Series range(0, 2)"%string].
Proof. vm_compute. reflexivity. Qed.

Example chart_named_series_names :
  map fst (series chart_named) = ["a"%string; "b"%string].
Proof. vm_compute. reflexivity. Qed.

Lemma chart_named_x_grid_built :
  add_x_grid chart_named 1 None None = Ok chart_named_x_grid.
Proof. vm_compute. reflexivity. Qed.

Lemma chart_named_y_grid_built :
  add_y_grid chart_named 1 None None = Ok chart_named_y_grid.
Proof. vm_compute. reflexivity. Qed.

(** C7. Every grid line of a call is meant to go to the grid-line list of
    one axis.  On the chart of [x_values = [0, 1, 2]],
    [y_values = [[1, 2, 3], [2, 3, 4]]], [y_names = ['a', 'b']] (y limits
    0, 2, 4, 6), [add_x_grid(minor_ticks=1)] appends the three major lines
    to [x_axis.grid_lines] and the three minor lines to
    [y_axis.grid_lines].  [add_y_grid(minor_ticks=1)] on the same chart
    appends major and minor lines alike to [y_axis.grid_lines]. *)
Theorem add_x_grid_minor_lines_on_y_axis :
  SimpleLineChart_init sample_x_values sample_y_values (Some ["a"; "b"]%string)
    12 12 100 100 600 800 sample_label sample_label = Ok chart_named
  /\ grid_of (x_axis chart_named) = []
  /\ grid_of (y_axis chart_named) = []
  /\ add_x_grid chart_named 1 None None = Ok chart_named_x_grid
  /\ grid_of (x_axis chart_named_x_grid)
     = [(100, 1100 # 3, 700, 1100 # 3, default_major_grid_styles);
        (100, 700 # 3, 700, 700 # 3, default_major_grid_styles);
        (100, 100, 700, 100, default_major_grid_styles)]%Q
  /\ grid_of (y_axis chart_named_x_grid)
     = [(100, 1300 # 3, 700, 1300 # 3, default_minor_grid_styles);
        (100, 300, 700, 300, default_minor_grid_styles);
        (100, 500 # 3, 700, 500 # 3, default_minor_grid_styles)]%Q
  /\ add_y_grid chart_named 1 None None = Ok chart_named_y_grid
  /\ grid_of (x_axis chart_named_y_grid) = []
  /\ grid_of (y_axis chart_named_y_grid)
     = [(400, 100, 400, 500, default_major_grid_styles);
        (250, 100, 250, 500, default_minor_grid_styles);
        (700, 100, 700, 500, default_major_grid_styles);
        (550, 100, 550, 500, default_minor_grid_styles)]%Q.
Proof.
  split; [exact chart_named_built|].
  split; [vm_compute; reflexivity|].
  split; [vm_compute; reflexivity|].
  split; [exact chart_named_x_grid_built|].
  split; [vm_compute; reflexivity|].
  split; [vm_compute; reflexivity|].
  split; [exact chart_named_y_grid_built|].
  split; vm_compute; reflexivity.
Qed.

(** * Further properties *)

(** ** Limits *)

(** X1. [get_limits] on values that are all equal, the empty collection
    included, raises [ValueError]: a constant series has no axis. *)
Theorem get_limits_all_equal (values : list value) (max_ticks : Z) :
  (forall a b, In a values -> In b values -> py_eqb a b = true) ->
  get_limits values max_ticks
  = Raise (ValueError
             "Values must be a non-empty iterable with at least two unique elements.").
Proof.
  intros H. apply get_limits_few_values. apply set_of_all_equal. exact H.
Qed.

Lemma get_limits_all_equal_witness :
  get_limits [VInt 1; VFloat (1 # 1); VInt 1] 10
  = Raise (ValueError
             "Values must be a non-empty iterable with at least two unique elements.").
Proof.
  apply get_limits_all_equal.
  intros a b Ha Hb. cbn [In] in Ha, Hb.
  destruct Ha as [<-|[<-|[<-|[]]]]; destruct Hb as [<-|[<-|[<-|[]]]]; reflexivity.
Defined.








Lemma number_not_datelike (a : value) : is_number a = true -> is_datelike a = false.
Proof. destruct a; cbn; intros H; try discriminate; reflexivity. Qed.

Lemma forallb_false_In {A : Type} (f : A -> bool) (l : list A) (a : A) :
  In a l -> f a = false -> forallb f l = false.
Proof.
  intros Hin Hf. destruct (forallb f l) eqn:E; [|reflexivity].
  rewrite forallb_forall in E. rewrite (E a Hin) in Hf. discriminate.
Qed.

(** X2. Values with at least two different elements that hold a string, or
    a number together with a date, are refused with
    [ValueError("Invalid numeric data")]. *)
Theorem get_limits_invalid_data (values : list value) (max_ticks : Z) :
  (2 <= List.length (set_of values))%nat ->
  (exists s, In (VStr s) values)
  \/ (exists a b, In a values /\ In b values
                  /\ is_number a = true /\ is_datelike b = true) ->
  get_limits values max_ticks = Raise (ValueError "Invalid numeric data").
Proof.
  intros Hset H. apply get_limits_mixed; [exact Hset| |].
  - destruct H as [[s Hs]|[a [b [Ha [_ [Hn _]]]]]].
    + apply (forallb_false_In _ _ _ Hs). reflexivity.
    + apply (forallb_false_In _ _ _ Ha). apply number_not_datelike. exact Hn.
  - destruct H as [[s Hs]|[a [b [_ [Hb [_ Hd]]]]]].
    + apply (forallb_false_In _ _ _ Hs). reflexivity.
    + apply (forallb_false_In _ _ _ Hb).
      destruct (is_number b) eqn:E; [|reflexivity].
      rewrite (number_not_datelike b E) in Hd. discriminate.
Qed.

Lemma get_limits_invalid_data_witness :
  get_limits [VInt 1; VDate (mkdate 2024 1 1)] 10
  = Raise (ValueError "Invalid numeric data").
Proof.
  apply (get_limits_invalid_data [VInt 1; VDate (mkdate 2024 1 1)] 10).
  - simpl. lia.
  - right. exists (VInt 1), (VDate (mkdate 2024 1 1)).
    simpl. repeat split; auto.
Defined.

Lemma datetimes_min (d : date) (us : list Z) :
  forall u, exists lo,
    datelike_min (DDateTime d u) (map (DDateTime d) us) = Ok (DDateTime d lo)
    /\ In lo (u :: us).
Proof.
  induction us as [|t us IH]; intros u; cbn [map datelike_min datelike_ltb bind].
  - exists u. split; [reflexivity|left; reflexivity].
  - destruct (IH (if date_ltb d d || date_eqb d d && (t <? u) then t else u))
      as [lo [E Hin]].
    exists lo. split.
    + rewrite <- E. destruct (date_ltb d d || date_eqb d d && (t <? u)); reflexivity.
    + destruct Hin as [<-|Hin]; [|right; right; exact Hin].
      destruct (date_ltb d d || date_eqb d d && (t <? u)); cbn; auto.
Qed.

Lemma datetimes_max (d : date) (us : list Z) :
  forall u, exists hi,
    datelike_max (DDateTime d u) (map (DDateTime d) us) = Ok (DDateTime d hi)
    /\ In hi (u :: us).
Proof.
  induction us as [|t us IH]; intros u; cbn [map datelike_max datelike_ltb bind].
  - exists u. split; [reflexivity|left; reflexivity].
  - destruct (IH (if date_ltb d d || date_eqb d d && (u <? t) then t else u))
      as [hi [E Hin]].
    exists hi. split.
    + rewrite <- E. destruct (date_ltb d d || date_eqb d d && (u <? t)); reflexivity.
    + destruct Hin as [<-|Hin]; [|right; right; exact Hin].
      destruct (date_ltb d d || date_eqb d d && (u <? t)); cbn; auto.
Qed.

(** X8. Datetimes that all fall on one day have no range in days: whatever
    their times, [get_limits] raises
    [ValueError("Dates must have a positive range.")]. *)
Theorem get_limits_datetimes_of_one_day (d : date) (u : Z) (us : list Z)
    (max_ticks : Z) :
  Forall (fun t => 0 <= t < us_per_day) (u :: us) ->
  (2 <= List.length (set_of (map (VDateTime d) (u :: us))))%nat ->
  get_limits (map (VDateTime d) (u :: us)) max_ticks
  = Raise (ValueError "Dates must have a positive range.").
Proof.
  intros Hus Hset. unfold get_limits.
  replace (Z.of_nat (List.length (set_of (map (VDateTime d) (u :: us)))) <=? 1)
    with false by (symmetry; apply Z.leb_gt; lia).
  assert (Hall : forall l, forallb is_datelike (map (VDateTime d) l) = true).
  { induction l as [|t l IH]; [reflexivity|exact IH]. }
  rewrite Hall.
  assert (Hch : forall l, choose datelike_of (map (VDateTime d) l) = map (DDateTime d) l).
  { induction l as [|t l IH]; [reflexivity|]. cbn [map choose datelike_of].
    rewrite IH. reflexivity. }
  rewrite Hch. cbn [map].
  destruct (datetimes_min d us u) as [lo [Emin Hlo]].
  destruct (datetimes_max d us u) as [hi [Emax Hhi]].
  rewrite Forall_forall in Hus.
  pose proof (Hus lo Hlo) as Blo. pose proof (Hus hi Hhi) as Bhi.
  rewrite (get_big_date_limits_no_span (DDateTime d u) (map (DDateTime d) us) max_ticks
             (DDateTime d lo) (DDateTime d hi)
             (((toordinal d - toordinal d) * us_per_day + (hi - lo)) / us_per_day)
             Emin Emax eq_refl).
  - reflexivity.
  - rewrite Z.sub_diag, Z.mul_0_l, Z.add_0_l.
    assert ((hi - lo) / us_per_day < 1); [|lia].
    apply Z.div_lt_upper_bound; [reflexivity|]. lia.
Qed.

Lemma get_limits_datetimes_of_one_day_witness :
  get_limits (map (VDateTime (mkdate 2024 3 5)) [0; 3600000000]) 10
  = Raise (ValueError "Dates must have a positive range.").
Proof.
  apply (get_limits_datetimes_of_one_day (mkdate 2024 3 5) 0 [3600000000] 10).
  - repeat constructor; vm_compute; discriminate.
  - vm_compute. lia.
Defined.

(** ** Axes *)

Lemma mapM_ok {A B : Type} (f : A -> result B) (g : A -> B) (l : list A) :
  (forall a, In a l -> f a = Ok (g a)) -> mapM f l = Ok (map g l).
Proof.
  induction l as [|a l IH]; intros H; cbn [mapM map]; [reflexivity|].
  rewrite (H a) by (left; reflexivity). cbn [bind].
  rewrite IH by (intros b Hb; apply H; right; exact Hb). reflexivity.
Qed.

Lemma map_fst_enumerate {A : Type} (l : list A) :
  map fst (enumerate l) = range 0 (Z.of_nat (List.length l)).
Proof.
  unfold enumerate.
  assert (H : forall (js : list Z) (m : list A),
             List.length js = List.length m -> map fst (combine js m) = js).
  { induction js as [|j js IH]; intros [|b m] E; cbn in *; try reflexivity; try lia.
    f_equal. apply IH. lia. }
  apply H. rewrite range_length. lia.
Qed.

Lemma extend_ticks_nil (a : Axis) : extend_ticks a [] [] = a.
Proof. destruct a. unfold extend_ticks. cbn. rewrite !app_nil_r. reflexivity. Qed.

Lemma append_tick_extend (a : Axis) (tl : list Line) (tt : list Text)
    (l : Line) (t : Text) :
  append_tick (extend_ticks a tl tt) l t = extend_ticks a (tl ++ [l]) (tt ++ [t]).
Proof. unfold append_tick, extend_ticks. cbn. rewrite <- !app_assoc. reflexivity. Qed.

(** A loop over the enumerated limits that appends one tick line and one
    label per step, each built from the index and the limit alone, appends
    them in order. *)
Lemma for_each_append_ticks (body : Axis -> Z * tick -> result Axis)
    (fl : Z -> Line) (ft : Z -> tick -> Text) (a0 : Axis) :
  (forall tl tt i m,
      body (extend_ticks a0 tl tt) (i, m)
      = Ok (append_tick (extend_ticks a0 tl tt) (fl i) (ft i m))) ->
  forall ims tl tt,
    for_each ims body (extend_ticks a0 tl tt)
    = Ok (extend_ticks a0 (tl ++ map (fun im => fl (fst im)) ims)
            (tt ++ map (fun im => ft (fst im) (snd im)) ims)).
Proof.
  intros Hbody. induction ims as [|[i m] ims IH]; intros tl tt; cbn [for_each map].
  - rewrite !app_nil_r. reflexivity.
  - rewrite Hbody. cbn [bind]. rewrite append_tick_extend, IH.
    rewrite <- !app_assoc. reflexivity.
Qed.

Lemma len_pred {A : Type} (l : list A) :
  (inject_Z (Z.of_nat (List.length l) - 1) == len l - 1)%Q.
Proof.
  unfold len, Z.sub. rewrite inject_Z_plus. reflexivity.
Qed.

(** X9. An axis whose limits are a single tick cannot be drawn: spacing the
    ticks divides by [len(limits) - 1 = 0]. *)
Theorem axis_single_limit_raises (x_position y_position : Q)
    (data_points : list value) (axis_length : Q) (label_format : tick -> string)
    (max_ticks : Z) (axis_styles : option (dict string)) (tick_length : Q)
    (t : tick) :
  get_limits data_points max_ticks = Ok [t] ->
  XAxis_init x_position y_position data_points axis_length label_format max_ticks
    axis_styles tick_length = Raise ZeroDivisionError
  /\ YAxis_init x_position y_position data_points axis_length label_format max_ticks
       axis_styles tick_length = Raise ZeroDivisionError.
Proof.
  intros H. unfold XAxis_init, YAxis_init, Axis_init. rewrite H.
  split; reflexivity.
Qed.

Lemma axis_single_limit_raises_witness :
  XAxis_init 100 500 [VDate (mkdate 2024 1 1); VDate (mkdate 2024 7 19)] 600
    sample_label 1 None 5 = Raise ZeroDivisionError
  /\ YAxis_init 100 500 [VDate (mkdate 2024 1 1); VDate (mkdate 2024 7 19)] 600
       sample_label 1 None 5 = Raise ZeroDivisionError.
Proof.
  apply (axis_single_limit_raises 100 500
           [VDate (mkdate 2024 1 1); VDate (mkdate 2024 7 19)] 600 sample_label 1
           None 5 (TDate (mkdate 2024 1 1))).
  vm_compute. reflexivity.
Defined.

(** The run of [XAxis.__init__] on at least two limits. *)
Lemma XAxis_init_run (x_position y_position : Q) (data_points : list value)
    (axis_length : Q) (label_format : tick -> string) (max_ticks : Z)
    (axis_styles : option (dict string)) (tick_length : Q) (lims : list tick) :
  get_limits data_points max_ticks = Ok lims ->
  (2 <= List.length lims)%nat ->
  XAxis_init x_position y_position data_points axis_length label_format max_ticks
    axis_styles tick_length
  = Ok (extend_ticks
          (mkAxis (Shape_init x_position y_position) data_points axis_length lims
             label_format
             (Some (Line_init x_position y_position axis_length 0
                      (Some (styles_or_default axis_styles))))
             [] [] [])
          (map (fun im => Line_init
                            (inject_Z (fst im) * axis_length / (len lims - 1)
                             + x_position)%Q
                            y_position 0 tick_length
                            (Some (styles_or_default axis_styles)))
             (enumerate lims))
          (map (fun im => Text_init
                            (inject_Z (fst im) * axis_length / (len lims - 1)
                             + x_position)%Q
                            (y_position + 2 * tick_length)%Q
                            (label_format (snd im)) (Some XAxis_tick_text_styles))
             (enumerate lims))).
Proof.
  intros Hl Hn.
  pose proof (len_minus_1_nonzero lims Hn) as Hd.
  set (st := styles_or_default axis_styles).
  set (a1 := mkAxis (Shape_init x_position y_position) data_points axis_length lims
               label_format
               (Some (Line_init x_position y_position axis_length 0 (Some st)))
               [] [] []).
  unfold XAxis_init, Axis_init. rewrite Hl. cbn [bind]. cbv zeta.
  match goal with
  | |- for_each _ ?b ?s = _ =>
      change s with (extend_ticks a1 [] []);
      apply (for_each_append_ticks b
               (fun i => Line_init
                           (inject_Z i * axis_length / (len lims - 1) + x_position)%Q
                           y_position 0 tick_length (Some st))
               (fun i m => Text_init
                             (inject_Z i * axis_length / (len lims - 1) + x_position)%Q
                             (y_position + 2 * tick_length)%Q
                             (label_format m) (Some XAxis_tick_text_styles))
               a1)
  end.
  intros tl tt i m. cbv beta iota.
  change (limits (extend_ticks a1 tl tt)) with lims.
  change (length (extend_ticks a1 tl tt)) with axis_length.
  rewrite (py_div_ok _ _ Hd). reflexivity.
Qed.

(** X10. With at least two limits [XAxis] draws the axis line, and for the
    [i]-th limit one tick line and one label at
    [i * axis_length / (len(limits) - 1) + x_position]: in the order of the
    limits, the first at [x_position] and the last at
    [x_position + axis_length]. The labels are [label_format] of the
    limits. *)
Theorem XAxis_init_ticks (x_position y_position : Q) (data_points : list value)
    (axis_length : Q) (label_format : tick -> string) (max_ticks : Z)
    (axis_styles : option (dict string)) (tick_length : Q) (lims : list tick) :
  get_limits data_points max_ticks = Ok lims ->
  (2 <= List.length lims)%nat ->
  let st := styles_or_default axis_styles in
  let offset := fun i : Z =>
    (inject_Z i * axis_length / (len lims - 1) + x_position)%Q in
  exists a : Axis,
    XAxis_init x_position y_position data_points axis_length label_format max_ticks
      axis_styles tick_length = Ok a
    /\ limits a = lims
    /\ axis_line a = Some (Line_init x_position y_position axis_length 0 (Some st))
    /\ tick_lines a
       = map (fun i => Line_init (offset i) y_position 0 tick_length (Some st))
           (range 0 (Z.of_nat (List.length lims)))
    /\ tick_text a
       = map (fun im => Text_init (offset (fst im)) (y_position + 2 * tick_length)%Q
                          (label_format (snd im)) (Some XAxis_tick_text_styles))
           (enumerate lims)
    /\ grid_lines a = []
    /\ (offset 0%Z == x_position)%Q
    /\ (offset (Z.of_nat (List.length lims) - 1)%Z == x_position + axis_length)%Q.
Proof.
  intros Hl Hn st offset.
  pose proof (len_minus_1_nonzero lims Hn) as Hd.
  eexists. split; [|split; [|split; [|split; [|split; [|split; [|split]]]]]].
  - apply (XAxis_init_run _ _ _ _ _ _ _ _ _ Hl Hn).
  - reflexivity.
  - reflexivity.
  - cbn [extend_ticks tick_lines app].
    rewrite <- map_fst_enumerate, map_map. reflexivity.
  - reflexivity.
  - reflexivity.
  - unfold offset. change (inject_Z 0) with 0%Q. field. exact Hd.
  - unfold offset. rewrite len_pred. field. exact Hd.
Qed.

Lemma XAxis_init_ticks_witness :
  let lims := [TNum (0 # 1); TNum (2 # 1); TNum (4 # 1)] in
  let st := styles_or_default None in
  let offset := fun i : Z => (inject_Z i * 600 / (len lims - 1) + 100)%Q in
  exists a : Axis,
    XAxis_init 100 500 sample_x_values 600 sample_label 12 None 5 = Ok a
    /\ limits a = lims
    /\ axis_line a = Some (Line_init 100 500 600 0 (Some st))
    /\ tick_lines a
       = map (fun i => Line_init (offset i) 500 0 5 (Some st))
           (range 0 (Z.of_nat (List.length lims)))
    /\ tick_text a
       = map (fun im => Text_init (offset (fst im)) (500 + 2 * 5)%Q
                          (sample_label (snd im)) (Some XAxis_tick_text_styles))
           (enumerate lims)
    /\ grid_lines a = []
    /\ (offset 0%Z == 100)%Q
    /\ (offset (Z.of_nat (List.length lims) - 1)%Z == 100 + 600)%Q.
Proof.
  apply (XAxis_init_ticks 100 500 sample_x_values 600 sample_label 12 None 5
           [TNum (0 # 1); TNum (2 # 1); TNum (4 # 1)]).
  - exact sample_x_limits.
  - simpl. lia.
Defined.

(** The run of [YAxis.__init__] on at least two limits. *)
Lemma YAxis_init_run (x_position y_position : Q) (data_points : list value)
    (axis_length : Q) (label_format : tick -> string) (max_ticks : Z)
    (axis_styles : option (dict string)) (tick_length : Q) (lims : list tick) :
  get_limits data_points max_ticks = Ok lims ->
  (2 <= List.length lims)%nat ->
  YAxis_init x_position y_position data_points axis_length label_format max_ticks
    axis_styles tick_length
  = Ok (extend_ticks
          (mkAxis (Shape_init x_position y_position) data_points axis_length lims
             label_format
             (Some (Line_init x_position y_position 0 axis_length
                      (Some (styles_or_default axis_styles))))
             [] [] [])
          (map (fun im => Line_init (x_position - tick_length)%Q
                            ((len lims - 1 - inject_Z (fst im)) * axis_length
                             / (len lims - 1) + y_position)%Q
                            tick_length 0 (Some (styles_or_default axis_styles)))
             (enumerate lims))
          (map (fun im => Text_init (x_position - 2 * tick_length)%Q
                            ((len lims - 1 - inject_Z (fst im)) * axis_length
                             / (len lims - 1) + y_position)%Q
                            (label_format (snd im)) (Some YAxis_tick_text_styles))
             (enumerate lims))).
Proof.
  intros Hl Hn.
  pose proof (len_minus_1_nonzero lims Hn) as Hd.
  set (st := styles_or_default axis_styles).
  set (a1 := mkAxis (Shape_init x_position y_position) data_points axis_length lims
               label_format
               (Some (Line_init x_position y_position 0 axis_length (Some st)))
               [] [] []).
  unfold YAxis_init, Axis_init. rewrite Hl. cbn [bind]. cbv zeta.
  match goal with
  | |- for_each _ ?b ?s = _ =>
      change s with (extend_ticks a1 [] []);
      apply (for_each_append_ticks b
               (fun i => Line_init (x_position - tick_length)%Q
                           ((len lims - 1 - inject_Z i) * axis_length
                            / (len lims - 1) + y_position)%Q
                           tick_length 0 (Some st))
               (fun i m => Text_init (x_position - 2 * tick_length)%Q
                             ((len lims - 1 - inject_Z i) * axis_length
                              / (len lims - 1) + y_position)%Q
                             (label_format m) (Some YAxis_tick_text_styles))
               a1)
  end.
  intros tl tt i m. cbv beta iota.
  change (limits (extend_ticks a1 tl tt)) with lims.
  change (length (extend_ticks a1 tl tt)) with axis_length.
  rewrite (py_div_ok _ _ Hd). reflexivity.
Qed.

(** X11. With at least two limits [YAxis] draws the axis line, and for the
    [i]-th limit one tick line and one label at the height
    [(len(limits) - 1 - i) * axis_length / (len(limits) - 1) + y_position]:
    the first limit at the bottom, [y_position + axis_length], and the last
    at the top, [y_position]. The labels are [label_format] of the
    limits. *)
Theorem YAxis_init_ticks (x_position y_position : Q) (data_points : list value)
    (axis_length : Q) (label_format : tick -> string) (max_ticks : Z)
    (axis_styles : option (dict string)) (tick_length : Q) (lims : list tick) :
  get_limits data_points max_ticks = Ok lims ->
  (2 <= List.length lims)%nat ->
  let st := styles_or_default axis_styles in
  let offset := fun i : Z =>
    ((len lims - 1 - inject_Z i) * axis_length / (len lims - 1) + y_position)%Q in
  exists a : Axis,
    YAxis_init x_position y_position data_points axis_length label_format max_ticks
      axis_styles tick_length = Ok a
    /\ limits a = lims
    /\ axis_line a = Some (Line_init x_position y_position 0 axis_length (Some st))
    /\ tick_lines a
       = map (fun i => Line_init (x_position - tick_length)%Q (offset i) tick_length 0
                         (Some st))
           (range 0 (Z.of_nat (List.length lims)))
    /\ tick_text a
       = map (fun im => Text_init (x_position - 2 * tick_length)%Q (offset (fst im))
                          (label_format (snd im)) (Some YAxis_tick_text_styles))
           (enumerate lims)
    /\ grid_lines a = []
    /\ (offset 0%Z == y_position + axis_length)%Q
    /\ (offset (Z.of_nat (List.length lims) - 1)%Z == y_position)%Q.
Proof.
  intros Hl Hn st offset.
  pose proof (len_minus_1_nonzero lims Hn) as Hd.
  eexists. split; [|split; [|split; [|split; [|split; [|split; [|split]]]]]].
  - apply (YAxis_init_run _ _ _ _ _ _ _ _ _ Hl Hn).
  - reflexivity.
  - reflexivity.
  - cbn [extend_ticks tick_lines app].
    rewrite <- map_fst_enumerate, map_map. reflexivity.
  - reflexivity.
  - reflexivity.
  - unfold offset. change (inject_Z 0) with 0%Q. field. exact Hd.
  - unfold offset. rewrite len_pred. field. exact Hd.
Qed.

Lemma YAxis_init_ticks_witness :
  let lims := [TNum (0 # 1); TNum (2 # 1); TNum (4 # 1); TNum (6 # 1)] in
  let st := styles_or_default None in
  let offset := fun i : Z =>
    ((len lims - 1 - inject_Z i) * 400 / (len lims - 1) + 100)%Q in
  exists a : Axis,
    YAxis_init 100 100 (List.concat sample_y_values) 400 sample_label 12 None 5 = Ok a
    /\ limits a = lims
    /\ axis_line a = Some (Line_init 100 100 0 400 (Some st))
    /\ tick_lines a
       = map (fun i => Line_init (100 - 5)%Q (offset i) 5 0 (Some st))
           (range 0 (Z.of_nat (List.length lims)))
    /\ tick_text a
       = map (fun im => Text_init (100 - 2 * 5)%Q (offset (fst im))
                          (sample_label (snd im)) (Some YAxis_tick_text_styles))
           (enumerate lims)
    /\ grid_lines a = []
    /\ (offset 0%Z == 100 + 400)%Q
    /\ (offset (Z.of_nat (List.length lims) - 1)%Z == 100)%Q.
Proof.
  apply (YAxis_init_ticks 100 100 (List.concat sample_y_values) 400 sample_label 12
           None 5 [TNum (0 # 1); TNum (2 # 1); TNum (4 # 1); TNum (6 # 1)]).
  - exact sample_y_limits.
  - simpl. lia.
Defined.

(** ** Positions along an axis *)

Lemma tick_of_number (v : value) (u : Q) :
  number_of v = Some u -> tick_of v = Ok (TNum u).
Proof. destruct v; cbn; intros H; inversion H; reflexivity. Qed.

Lemma choose_numbers_cons (v : value) (values : list value) :
  forallb is_number (v :: values) = true ->
  exists u, number_of v = Some u
            /\ choose number_of (v :: values) = u :: choose number_of values
            /\ forallb is_number values = true.
Proof.
  cbn [forallb choose]. intros H. apply andb_true_iff in H. destruct H as [Hv Hr].
  unfold is_number in Hv. destruct (number_of v) as [u|]; [|discriminate].
  exists u. repeat split. exact Hr.
Qed.

Lemma span_nonzero (lo hi : Q) : (lo < hi)%Q -> ~ (hi - lo == 0)%Q.
Proof. intros H E. lra. Qed.

Lemma scaled_mono (lo hi u w : Q) :
  (lo < hi)%Q -> (u <= w)%Q -> ((u - lo) / (hi - lo) <= (w - lo) / (hi - lo))%Q.
Proof.
  intros H Huw. apply Qmult_le_compat_r; [lra|].
  apply Qlt_le_weak, Qinv_lt_0_compat. lra.
Qed.

(** The runs of [get_positions] on numbers, for an axis with numeric
    limits that span a range. *)
Lemma XAxis_get_positions_run (a : Axis) (q : Q) (qs : list Q) (values : list value) :
  limits a = map TNum (q :: qs) ->
  (q_min q qs < q_max q qs)%Q ->
  forallb is_number values = true ->
  XAxis_get_positions a values
  = Ok (map (fun u => (x (position (Axis_shape a))
                       + (u - q_min q qs) / (q_max q qs - q_min q qs) * length a)%Q)
          (choose number_of values)).
Proof.
  intros Hl Hspan Hnum. pose proof (span_nonzero _ _ Hspan) as Hd.
  unfold XAxis_get_positions.
  induction values as [|v values IH]; [reflexivity|].
  destruct (choose_numbers_cons v values Hnum) as [u [Hu [Hc Hr]]].
  rewrite Hc. cbn [mapM map].
  rewrite (tick_of_number v u Hu). cbn [bind].
  rewrite (proportion_of_range_numbers a q qs u Hl).
  rewrite (py_div_ok _ _ Hd). cbn [bind].
  rewrite (IH Hr). reflexivity.
Qed.

Lemma YAxis_get_positions_run (a : Axis) (q : Q) (qs : list Q) (values : list value) :
  limits a = map TNum (q :: qs) ->
  (q_min q qs < q_max q qs)%Q ->
  forallb is_number values = true ->
  YAxis_get_positions a values
  = Ok (map (fun u => (y (position (Axis_shape a))
                       + length a * (1 - (u - q_min q qs) / (q_max q qs - q_min q qs)))%Q)
          (choose number_of values)).
Proof.
  intros Hl Hspan Hnum. pose proof (span_nonzero _ _ Hspan) as Hd.
  unfold YAxis_get_positions.
  induction values as [|v values IH]; [reflexivity|].
  destruct (choose_numbers_cons v values Hnum) as [u [Hu [Hc Hr]]].
  rewrite Hc. cbn [mapM map].
  rewrite (tick_of_number v u Hu). cbn [bind].
  rewrite (proportion_of_range_numbers a q qs u Hl).
  rewrite (py_div_ok _ _ Hd). cbn [bind].
  rewrite (IH Hr). reflexivity.
Qed.

Lemma SimpleXAxis_get_positions_run (a : Axis) (x_values : list value) :
  (2 <= List.length x_values)%nat ->
  SimpleXAxis_get_positions a x_values
  = Ok (map (fun i => (x (position (Axis_shape a))
                       + inject_Z i * length a / (len x_values - 1))%Q)
          (range 0 (Z.of_nat (List.length x_values)))).
Proof.
  intros H. unfold SimpleXAxis_get_positions. apply mapM_ok. intros i _.
  rewrite py_div_ok by (apply len_minus_1_nonzero; exact H).
  reflexivity.
Qed.

(** X12. [XAxis.get_positions] on numbers, for an axis with numeric limits
    that span a range: every value [u] goes to
    [x + (u - min) / (max - min) * length]. On an axis of non-negative
    length the placement keeps the order of the values, sends
    [min(limits)] to the start of the axis and [max(limits)] to its end,
    and so keeps every value between the limits on the axis. *)
Theorem XAxis_get_positions_numbers (a : Axis) (q : Q) (qs : list Q)
    (values : list value) :
  limits a = map TNum (q :: qs) ->
  (q_min q qs < q_max q qs)%Q ->
  (0 <= length a)%Q ->
  forallb is_number values = true ->
  let lo := q_min q qs in
  let hi := q_max q qs in
  let x0 := x (position (Axis_shape a)) in
  let place := fun u : Q => (x0 + (u - lo) / (hi - lo) * length a)%Q in
  XAxis_get_positions a values = Ok (map place (choose number_of values))
  /\ (forall u w, (u <= w)%Q -> (place u <= place w)%Q)
  /\ (place lo == x0)%Q
  /\ (place hi == x0 + length a)%Q
  /\ (forall u, (lo <= u)%Q -> (u <= hi)%Q ->
        (x0 <= place u)%Q /\ (place u <= x0 + length a)%Q).
Proof.
  intros Hl Hspan HL Hnum lo hi x0 place.
  pose proof (span_nonzero _ _ Hspan) as Hd. fold lo hi in Hd.
  assert (Hmono : forall u w, (u <= w)%Q -> (place u <= place w)%Q).
  { intros u w Huw. unfold place.
    pose proof (scaled_mono lo hi u w Hspan Huw) as M.
    apply (Qmult_le_compat_r _ _ (length a)) in M; [|exact HL]. lra. }
  assert (Hlo : (place lo == x0)%Q) by (unfold place; field; exact Hd).
  assert (Hhi : (place hi == x0 + length a)%Q) by (unfold place; field; exact Hd).
  split; [|split; [exact Hmono|split; [exact Hlo|split; [exact Hhi|]]]].
  - apply (XAxis_get_positions_run a q qs values Hl Hspan Hnum).
  - intros u H1 H2. split.
    + rewrite <- Hlo. apply Hmono. exact H1.
    + rewrite <- Hhi. apply Hmono. exact H2.
Qed.

Lemma XAxis_get_positions_numbers_witness :
  let lo := q_min (0 # 1) [2 # 1; 4 # 1] in
  let hi := q_max (0 # 1) [2 # 1; 4 # 1] in
  let x0 := x (position (Axis_shape sample_axis)) in
  let place := fun u : Q => (x0 + (u - lo) / (hi - lo) * length sample_axis)%Q in
  XAxis_get_positions sample_axis [VInt 1; VFloat (5 # 2)]
  = Ok (map place (choose number_of [VInt 1; VFloat (5 # 2)]))
  /\ (forall u w, (u <= w)%Q -> (place u <= place w)%Q)
  /\ (place lo == x0)%Q
  /\ (place hi == x0 + length sample_axis)%Q
  /\ (forall u, (lo <= u)%Q -> (u <= hi)%Q ->
        (x0 <= place u)%Q /\ (place u <= x0 + length sample_axis)%Q).
Proof.
  apply (XAxis_get_positions_numbers sample_axis (0 # 1) [2 # 1; 4 # 1]
           [VInt 1; VFloat (5 # 2)]).
  - reflexivity.
  - vm_compute. reflexivity.
  - vm_compute. discriminate.
  - reflexivity.
Defined.

(** X14. [YAxis.get_positions] on numbers, for an axis with numeric limits
    that span a range: every value [u] goes to
    [y + length * (1 - (u - min) / (max - min))]. On an axis of
    non-negative length the placement reverses the order of the values
    (larger values are higher up), sends [max(limits)] to the top of the
    axis, [y], and [min(limits)] to its bottom, [y + length], and so keeps
    every value between the limits on the axis. *)
Theorem YAxis_get_positions_numbers (a : Axis) (q : Q) (qs : list Q)
    (values : list value) :
  limits a = map TNum (q :: qs) ->
  (q_min q qs < q_max q qs)%Q ->
  (0 <= length a)%Q ->
  forallb is_number values = true ->
  let lo := q_min q qs in
  let hi := q_max q qs in
  let y0 := y (position (Axis_shape a)) in
  let place := fun u : Q => (y0 + length a * (1 - (u - lo) / (hi - lo)))%Q in
  YAxis_get_positions a values = Ok (map place (choose number_of values))
  /\ (forall u w, (u <= w)%Q -> (place w <= place u)%Q)
  /\ (place hi == y0)%Q
  /\ (place lo == y0 + length a)%Q
  /\ (forall u, (lo <= u)%Q -> (u <= hi)%Q ->
        (y0 <= place u)%Q /\ (place u <= y0 + length a)%Q).
Proof.
  intros Hl Hspan HL Hnum lo hi y0 place.
  pose proof (span_nonzero _ _ Hspan) as Hd. fold lo hi in Hd.
  assert (Hmono : forall u w, (u <= w)%Q -> (place w <= place u)%Q).
  { intros u w Huw. unfold place.
    pose proof (scaled_mono lo hi u w Hspan Huw) as M.
    apply (Qmult_le_compat_r _ _ (length a)) in M; [|exact HL]. lra. }
  assert (Hhi : (place hi == y0)%Q) by (unfold place; field; exact Hd).
  assert (Hlo : (place lo == y0 + length a)%Q) by (unfold place; field; exact Hd).
  split; [|split; [exact Hmono|split; [exact Hhi|split; [exact Hlo|]]]].
  - apply (YAxis_get_positions_run a q qs values Hl Hspan Hnum).
  - intros u H1 H2. split.
    + rewrite <- Hhi. apply Hmono. exact H2.
    + rewrite <- Hlo. apply Hmono. exact H1.
Qed.

Lemma YAxis_get_positions_numbers_witness :
  let lo := q_min (0 # 1) [2 # 1; 4 # 1] in
  let hi := q_max (0 # 1) [2 # 1; 4 # 1] in
  let y0 := y (position (Axis_shape sample_axis)) in
  let place := fun u : Q => (y0 + length sample_axis * (1 - (u - lo) / (hi - lo)))%Q in
  YAxis_get_positions sample_axis [VInt 1; VFloat (5 # 2)]
  = Ok (map place (choose number_of [VInt 1; VFloat (5 # 2)]))
  /\ (forall u w, (u <= w)%Q -> (place w <= place u)%Q)
  /\ (place hi == y0)%Q
  /\ (place lo == y0 + length sample_axis)%Q
  /\ (forall u, (lo <= u)%Q -> (u <= hi)%Q ->
        (y0 <= place u)%Q /\ (place u <= y0 + length sample_axis)%Q).
Proof.
  apply (YAxis_get_positions_numbers sample_axis (0 # 1) [2 # 1; 4 # 1]
           [VInt 1; VFloat (5 # 2)]).
  - reflexivity.
  - vm_compute. reflexivity.
  - vm_compute. discriminate.
  - reflexivity.
Defined.

(** X15. [SimpleXAxis.get_positions] spreads the points evenly over the whole
    axis by their index: it looks neither at the values nor at the limits
    of the axis. No value gives no position, and a single value raises
    [ZeroDivisionError]. *)
Theorem SimpleXAxis_get_positions_even (a : Axis) (x_values : list value) :
  SimpleXAxis_get_positions a x_values
  = match x_values with
    | [] => Ok []
    | [_] => Raise ZeroDivisionError
    | _ =>
        Ok (map (fun i => (x (position (Axis_shape a))
                           + inject_Z i * length a / (len x_values - 1))%Q)
              (range 0 (Z.of_nat (List.length x_values))))
    end.
Proof.
  destruct x_values as [|v [|w rest]]; [reflexivity|reflexivity|].
  apply SimpleXAxis_get_positions_run. cbn. lia.
Qed.

Lemma toordinal_mono (u w : date) :
  well_formed u -> well_formed w -> date_le u w -> toordinal u <= toordinal w.
Proof.
  intros Hu Hw Hle. unfold date_le in Hle.
  destruct (date_ltb u w) eqn:E.
  - pose proof (toordinal_lt u w Hu Hw E). lia.
  - assert (N1 : ~ date_ltb w u = true) by congruence.
    assert (N2 : ~ date_ltb u w = true) by congruence.
    rewrite date_ltb_spec in N1, N2.
    assert (Hy : year u = year w) by lia.
    assert (Hm : month u = month w) by lia.
    assert (Hd : day u = day w) by lia.
    unfold toordinal. rewrite Hy, Hm, Hd. lia.
Qed.

(** X13. [XAxis.get_positions] on dates, for an axis whose limits are dates
    that span a range: every date [v] goes to
    [x + (v - min).days / (max - min).days * length]. On an axis of
    non-negative length a later date is never placed before an earlier
    one, [min(limits)] is placed at the start of the axis and
    [max(limits)] at its end. *)
Theorem XAxis_get_positions_dates (a : Axis) (d : date) (ds : list date)
    (dates : list date) :
  limits a = map TDate (d :: ds) ->
  Forall well_formed (d :: ds) ->
  date_ltb (date_min d ds) (date_max d ds) = true ->
  (0 <= length a)%Q ->
  let lo := toordinal (date_min d ds) in
  let hi := toordinal (date_max d ds) in
  let x0 := x (position (Axis_shape a)) in
  let place := fun v : date =>
    (x0 + inject_Z (toordinal v - lo) / inject_Z (hi - lo) * length a)%Q in
  XAxis_get_positions a (map VDate dates) = Ok (map place dates)
  /\ (forall u w, well_formed u -> well_formed w -> date_le u w ->
        (place u <= place w)%Q)
  /\ (place (date_min d ds) == x0)%Q
  /\ (place (date_max d ds) == x0 + length a)%Q.
Proof.
  intros Hl Hwf Hspan HL lo hi x0 place.
  rewrite Forall_forall in Hwf.
  pose proof (toordinal_lt _ _ (Hwf _ (date_min_In ds d)) (Hwf _ (date_max_In ds d)) Hspan)
    as Hlt.
  fold lo hi in Hlt.
  assert (Hpos : (0 < inject_Z (hi - lo))%Q) by (apply inject_Z_pos; lia).
  assert (Hd : ~ (inject_Z (hi - lo) == 0)%Q) by (intros E; rewrite E in Hpos; discriminate Hpos).
  split; [|split; [|split]].
  - unfold XAxis_get_positions.
    induction dates as [|v dates IH]; [reflexivity|].
    cbn [map mapM tick_of bind].
    rewrite (proportion_of_range_dates a d ds v Hl). fold lo hi.
    rewrite (py_div_ok _ _ Hd). cbn [bind].
    rewrite IH. reflexivity.
  - intros u w Hu Hw Hle. unfold place.
    pose proof (toordinal_mono u w Hu Hw Hle) as M.
    assert (Mq : (inject_Z (toordinal u - lo) <= inject_Z (toordinal w - lo))%Q).
    { rewrite <- Zle_Qle. lia. }
    apply (Qmult_le_compat_r _ _ (/ inject_Z (hi - lo))) in Mq;
      [|apply Qlt_le_weak, Qinv_lt_0_compat; exact Hpos].
    apply (Qmult_le_compat_r _ _ (length a)) in Mq; [|exact HL].
    unfold Qdiv. lra.
  - unfold place. fold lo. rewrite Z.sub_diag. change (inject_Z 0) with 0%Q.
    field. exact Hd.
  - unfold place. fold hi. field. exact Hd.
Qed.

Lemma XAxis_get_positions_dates_witness :
  let d := mkdate 2024 1 1 in
  let ds := [mkdate 2024 2 1; mkdate 2024 3 1] in
  let a := mkAxis (Shape_init 100 500) [] 600 (map TDate (d :: ds)) sample_label
             None [] [] [] in
  let lo := toordinal (date_min d ds) in
  let hi := toordinal (date_max d ds) in
  let x0 := x (position (Axis_shape a)) in
  let place := fun v : date =>
    (x0 + inject_Z (toordinal v - lo) / inject_Z (hi - lo) * length a)%Q in
  XAxis_get_positions a (map VDate [mkdate 2024 1 15; mkdate 2024 2 20])
  = Ok (map place [mkdate 2024 1 15; mkdate 2024 2 20])
  /\ (forall u w, well_formed u -> well_formed w -> date_le u w ->
        (place u <= place w)%Q)
  /\ (place (date_min d ds) == x0)%Q
  /\ (place (date_max d ds) == x0 + length a)%Q.
Proof.
  apply (XAxis_get_positions_dates
           (mkAxis (Shape_init 100 500) [] 600
              (map TDate [mkdate 2024 1 1; mkdate 2024 2 1; mkdate 2024 3 1])
              sample_label None [] [] [])
           (mkdate 2024 1 1) [mkdate 2024 2 1; mkdate 2024 3 1]
           [mkdate 2024 1 15; mkdate 2024 2 20]).
  - reflexivity.
  - repeat constructor; vm_compute; discriminate.
  - reflexivity.
  - vm_compute. discriminate.
Defined.

(** ** Tick labels and the values they show *)

Lemma q_min_In (vs : list Q) : forall v, In (q_min v vs) (v :: vs).
Proof.
  unfold q_min. induction vs as [|u vs IH]; intros v; cbn [fold_left].
  - left; reflexivity.
  - destruct (IH (if Qltb u v then u else v)) as [H|H].
    + rewrite <- H. destruct (Qltb u v); cbn; auto.
    + right; right; exact H.
Qed.

Lemma q_max_In (vs : list Q) : forall v, In (q_max v vs) (v :: vs).
Proof.
  unfold q_max. induction vs as [|u vs IH]; intros v; cbn [fold_left].
  - left; reflexivity.
  - destruct (IH (if Qltb v u then u else v)) as [H|H].
    + rewrite <- H. destruct (Qltb v u); cbn; auto.
    + right; right; exact H.
Qed.

Lemma range_nth_error (lo hi : Z) (i : nat) :
  (i < Z.to_nat (hi - lo))%nat -> nth_error (range lo hi) i = Some (lo + Z.of_nat i).
Proof.
  intros H. unfold range. rewrite nth_error_map, nth_error_seq.
  replace (i <? Z.to_nat (hi - lo))%nat with true by (symmetry; apply Nat.ltb_lt; exact H).
  reflexivity.
Qed.

Lemma combine_range_nth_error {A : Type} (l : list A) :
  forall (k : Z) (i : nat) (j : Z) (a : A),
    nth_error (combine (range k (k + Z.of_nat (List.length l))) l) i = Some (j, a) ->
    j = k + Z.of_nat i /\ nth_error l i = Some a.
Proof.
  induction l as [|b l IH]; intros k i j a H.
  - destruct (range k _); destruct i; discriminate H.
  - rewrite range_cons in H by (cbn [List.length]; lia).
    destruct i as [|i]; cbn [combine nth_error] in H.
    + inversion H. split; [lia|reflexivity].
    + replace (k + Z.of_nat (List.length (b :: l)))
        with (k + 1 + Z.of_nat (List.length l)) in H by (cbn [List.length]; lia).
      destruct (IH (k + 1) i j a H) as [Hj Ha]. split; [lia|exact Ha].
Qed.

(** The smallest and the largest of the ticks [start * pad], ...,
    [end * pad]. *)
Lemma ticks_min_max (pad : Q) (start end_ : Z) (t0 : Q) (ts : list Q) :
  (0 < pad)%Q -> start < end_ ->
  map (fun j => (inject_Z j * pad)%Q) (range start (end_ + 1)) = t0 :: ts ->
  (q_min t0 ts == inject_Z start * pad)%Q /\ (q_max t0 ts == inject_Z end_ * pad)%Q.
Proof.
  intros Hpad Hse E.
  assert (Hin : forall u, In u (t0 :: ts) ->
                  (inject_Z start * pad <= u)%Q /\ (u <= inject_Z end_ * pad)%Q).
  { intros u Hu. rewrite <- E in Hu. apply in_map_iff in Hu.
    destruct Hu as [j [<- Hj]]. apply range_In in Hj.
    split; (apply Qmult_le_compat_r; [rewrite <- Zle_Qle; lia|apply Qlt_le_weak; exact Hpad]). }
  assert (Hs : In (inject_Z start * pad)%Q (t0 :: ts)).
  { rewrite <- E. apply in_map_iff. exists start. split; [reflexivity|].
    apply range_In. lia. }
  assert (He : In (inject_Z end_ * pad)%Q (t0 :: ts)).
  { rewrite <- E. apply in_map_iff. exists end_. split; [reflexivity|].
    apply range_In. lia. }
  split; apply Qle_antisym.
  - apply q_min_le. exact Hs.
  - apply (Hin _ (q_min_In ts t0)).
  - apply (Hin _ (q_max_In ts t0)).
  - apply q_max_ge. exact He.
Qed.

(** X27. On a y axis built from non-negative numbers, every tick label
    shows [label_format] of a limit and sits at the height where
    [get_positions] places that limit: the labels are where the values
    are. *)
Theorem YAxis_labels_at_values (x_position y_position : Q)
    (data_points : list value) (axis_length : Q) (label_format : tick -> string)
    (max_ticks : Z) (axis_styles : option (dict string)) (tick_length : Q) :
  0 < max_ticks ->
  forallb is_number data_points = true ->
  (2 <= List.length (set_of data_points))%nat ->
  (forall u, In u (choose number_of data_points) -> (0 <= u)%Q) ->
  exists a : Axis,
    YAxis_init x_position y_position data_points axis_length label_format max_ticks
      axis_styles tick_length = Ok a
    /\ List.length (tick_text a) = List.length (limits a)
    /\ forall (i : nat) (t : Text),
         nth_error (tick_text a) i = Some t ->
         exists (v h : Q),
           nth_error (limits a) i = Some (TNum v)
           /\ content t = label_format (TNum v)
           /\ YAxis_get_positions a [VFloat v] = Ok [h]
           /\ (y (position (Text_shape t)) == h)%Q.
Proof.
  intros Hm Hnum Hset Hpos.
  destruct (get_limits_nonneg_run data_points max_ticks Hm Hnum Hset Hpos)
    as (pad & start & end_ & Hpad & Hse & Heq & Hsorted & Hlen & _).
  remember (map (fun j => (inject_Z j * pad)%Q) (range start (end_ + 1))) as ticks
    eqn:Et.
  assert (Hn : List.length ticks = Z.to_nat (end_ + 1 - start)).
  { rewrite Et, length_map, range_length. reflexivity. }
  destruct ticks as [|t0 ts]; [cbn in Hn; lia|].
  destruct (ticks_min_max pad start end_ t0 ts Hpad Hse (eq_sym Et)) as [Elo Ehi].
  assert (Hspan : (q_min t0 ts < q_max t0 ts)%Q).
  { rewrite Elo, Ehi. apply Qmult_lt_compat_r; [exact Hpad|]. rewrite <- Zlt_Qlt. exact Hse. }
  assert (Hl2 : (2 <= List.length (map TNum (t0 :: ts)))%nat).
  { rewrite length_map, Hn. lia. }
  eexists. split; [apply (YAxis_init_run _ _ _ _ _ _ _ _ _ Heq Hl2)|].
  cbn [extend_ticks tick_text limits app].
  split; [rewrite length_map; unfold enumerate;
          rewrite length_combine, range_length, Z.sub_0_r, Nat2Z.id, Nat.min_id;
          reflexivity|].
  intros i t Ht.
  rewrite nth_error_map in Ht.
  destruct (nth_error (enumerate (map TNum (t0 :: ts))) i) as [[j m]|] eqn:Ei;
    [|discriminate Ht].
  cbn [option_map] in Ht. injection Ht as <-.
  unfold enumerate in Ei.
  apply (combine_range_nth_error (map TNum (t0 :: ts)) 0 i j m) in Ei.
  destruct Ei as [-> Em]. rewrite Z.add_0_l.
  rewrite nth_error_map in Em.
  destruct (nth_error (t0 :: ts) i) as [v|] eqn:Ev; [|discriminate Em].
  cbn [option_map] in Em. injection Em as <-.
  assert (Hi : (i < Z.to_nat (end_ + 1 - start))%nat).
  { rewrite <- Hn. apply nth_error_Some. rewrite Ev. discriminate. }
  assert (Hv : v = (inject_Z (start + Z.of_nat i) * pad)%Q).
  { rewrite Et, nth_error_map, (range_nth_error _ _ _ Hi) in Ev.
    cbn [option_map] in Ev. congruence. }
  exists v. eexists.
  split; [rewrite nth_error_map, Ev; reflexivity|]. split; [reflexivity|].
  split.
  - match goal with
    | |- YAxis_get_positions ?a0 _ = _ =>
        rewrite (YAxis_get_positions_run a0 t0 ts [VFloat v] eq_refl Hspan eq_refl)
    end.
    reflexivity.
  - cbn [Text_init Text_shape with_styles Shape_init position y fst snd
         Axis_shape length extend_ticks].
    change (TNum t0 :: map TNum ts) with (map TNum (t0 :: ts)).
    assert (Hlen1 : (len (map TNum (t0 :: ts)) - 1 == inject_Z end_ - inject_Z start)%Q).
    { unfold len. rewrite length_map, Hn, Z2Nat.id by lia.
      unfold Z.sub. rewrite !inject_Z_plus, inject_Z_opp. change (inject_Z 1) with 1%Q.
      ring. }
    assert (Hd : ~ (inject_Z end_ - inject_Z start == 0)%Q).
    { intros N. assert (L : (inject_Z start < inject_Z end_)%Q) by (rewrite <- Zlt_Qlt; exact Hse).
      lra. }
    assert (Hp0 : ~ (pad == 0)%Q) by (intros N; rewrite N in Hpad; discriminate Hpad).
    rewrite Hlen1, Elo, Ehi, Hv, inject_Z_plus.
    field. split; [|exact Hd].
    intros N. apply Hd.
    assert (F : (inject_Z end_ * pad - inject_Z start * pad
                 == (inject_Z end_ - inject_Z start) * pad)%Q) by ring.
    rewrite F in N. apply Qmult_integral in N. destruct N as [N|N]; [exact N|contradiction].
Qed.

Lemma YAxis_labels_at_values_witness :
  exists a : Axis,
    YAxis_init 100 100 (List.concat sample_y_values) 400 sample_label 12 None 5 = Ok a
    /\ List.length (tick_text a) = List.length (limits a)
    /\ forall (i : nat) (t : Text),
         nth_error (tick_text a) i = Some t ->
         exists (v h : Q),
           nth_error (limits a) i = Some (TNum v)
           /\ content t = sample_label (TNum v)
           /\ YAxis_get_positions a [VFloat v] = Ok [h]
           /\ (y (position (Text_shape t)) == h)%Q.
Proof.
  apply (YAxis_labels_at_values 100 100 (List.concat sample_y_values) 400 sample_label
           12 None 5).
  - lia.
  - reflexivity.
  - vm_compute. lia.
  - intros u Hu. cbn in Hu.
    repeat (destruct Hu as [<-|Hu]; [discriminate|]). destruct Hu.
Defined.

(** ** The legend *)

Lemma legend_fold (element_x element_y line_length line_text_gap : Q) :
  forall (ser : dict SimpleLineSeries) (lg : LineLegend) (x_pos y_pos : Q),
    fst (fst
      (fold_left
         (fun st ns =>
            let '(self, x_pos, y_pos) := st in
            (mkLegend (Legend_shape self) (legend_series self)
               (lines self ++
                  [Line_init x_pos y_pos line_length 0
                     (Some (styles (Series_shape (snd ns))))])
               (texts self ++
                  [Text_init (x_pos + line_length + line_text_gap)%Q y_pos (fst ns)
                     (Some default_line_legend_text_styles)]),
             (x_pos + element_x)%Q, (y_pos + element_y)%Q))
         ser (lg, x_pos, y_pos)))
    = mkLegend (Legend_shape lg) (legend_series lg)
        (lines lg ++
           map (fun r => Line_init (fst (fst r)) (snd (fst r)) line_length 0
                           (Some (styles (Series_shape (snd (snd r))))))
             (legend_rows x_pos y_pos element_x element_y ser))
        (texts lg ++
           map (fun r => Text_init (fst (fst r) + line_length + line_text_gap)%Q
                           (snd (fst r)) (fst (snd r))
                           (Some default_line_legend_text_styles))
             (legend_rows x_pos y_pos element_x element_y ser)).
Proof.
  induction ser as [|ns ser IH]; intros lg x_pos y_pos; cbn [fold_left legend_rows map].
  - rewrite !app_nil_r. destruct lg; reflexivity.
  - rewrite IH. cbn [Legend_shape legend_series lines texts fst snd].
    rewrite <- !app_assoc. reflexivity.
Qed.

Lemma legend_rows_length (x_pos y_pos element_x element_y : Q)
    (ser : dict SimpleLineSeries) :
  List.length (legend_rows x_pos y_pos element_x element_y ser) = List.length ser.
Proof.
  revert x_pos y_pos. induction ser as [|ns ser IH]; intros x_pos y_pos;
    cbn [legend_rows List.length]; [reflexivity|].
  rewrite IH. reflexivity.
Qed.

Lemma legend_rows_nth (element_x element_y : Q) :
  forall (ser : dict SimpleLineSeries) (x_pos y_pos : Q) (i : nat)
         (ns : string * SimpleLineSeries),
    nth_error ser i = Some ns ->
    exists xi yi,
      nth_error (legend_rows x_pos y_pos element_x element_y ser) i = Some (xi, yi, ns)
      /\ (xi == x_pos + inject_Z (Z.of_nat i) * element_x)%Q
      /\ (yi == y_pos + inject_Z (Z.of_nat i) * element_y)%Q.
Proof.
  induction ser as [|ms ser IH]; intros x_pos y_pos i ns H.
  - destruct i; discriminate H.
  - destruct i as [|i]; cbn [nth_error legend_rows] in *.
    + inversion H. subst ms. exists x_pos, y_pos.
      split; [reflexivity|]. change (inject_Z (Z.of_nat 0)) with 0%Q. split; ring.
    + destruct (IH (x_pos + element_x)%Q (y_pos + element_y)%Q i ns H)
        as [xi [yi [E [Hx Hy]]]].
      exists xi, yi. split; [exact E|].
      rewrite Nat2Z.inj_succ. unfold Z.succ. rewrite inject_Z_plus.
      change (inject_Z 1) with 1%Q. rewrite Hx, Hy. split; ring.
Qed.

(** X16. [LineLegend] draws one line and one text per series, in the order of
    the series dict. The [i]-th line starts at
    [(x_position + i * element_x, y_position + i * element_y)], is
    [line_length] long and horizontal, and carries the styles of its
    series; the [i]-th text is the name of the series, [line_text_gap]
    after the end of the line. *)
Theorem LineLegend_init_entries (x_position y_position : Q)
    (series : dict SimpleLineSeries)
    (element_x element_y line_length line_text_gap : Q)
    (i : nat) (name : string) (s : SimpleLineSeries) :
  nth_error series i = Some (name, s) ->
  let lg := LineLegend_init x_position y_position series element_x element_y
              line_length line_text_gap in
  List.length (lines lg) = List.length series
  /\ List.length (texts lg) = List.length series
  /\ exists (l : Line) (t : Text),
       nth_error (lines lg) i = Some l
       /\ nth_error (texts lg) i = Some t
       /\ styles (Line_shape l) = styles (Series_shape s)
       /\ content t = name
       /\ styles (Text_shape t) = default_line_legend_text_styles
       /\ (x (start l) == x_position + inject_Z (Z.of_nat i) * element_x)%Q
       /\ (y (start l) == y_position + inject_Z (Z.of_nat i) * element_y)%Q
       /\ (x (end_ l) == x (start l) + line_length)%Q
       /\ (y (end_ l) == y (start l))%Q
       /\ (x (position (Text_shape t)) == x (start l) + line_length + line_text_gap)%Q
       /\ (y (position (Text_shape t)) == y (start l))%Q.
Proof.
  intros H lg. subst lg. unfold LineLegend_init. cbv zeta.
  rewrite legend_fold. cbn [lines texts app Legend_shape Shape_init position x y].
  rewrite !length_map, legend_rows_length.
  split; [reflexivity|]. split; [reflexivity|].
  destruct (legend_rows_nth element_x element_y series x_position y_position i
              (name, s) H) as [xi [yi [E [Hx Hy]]]].
  eexists. eexists.
  split; [apply map_nth_error; exact E|].
  split; [apply map_nth_error; exact E|].
  cbn. rewrite <- Hx, <- Hy.
  split; [reflexivity|]. split; [reflexivity|]. split; [reflexivity|].
  split; [reflexivity|]. split; [reflexivity|]. split; [reflexivity|].
  split; [ring|]. split; reflexivity.
Qed.

Lemma LineLegend_init_entries_witness :
  let lg := LineLegend_init 500 60 sample_series 100 0 20 5 in
  List.length (lines lg) = List.length sample_series
  /\ List.length (texts lg) = List.length sample_series
  /\ exists (l : Line) (t : Text),
       nth_error (lines lg) 1 = Some l
       /\ nth_error (texts lg) 1 = Some t
       /\ styles (Line_shape l) = styles (Series_shape sample_series_b)
       /\ content t = "b"%string
       /\ styles (Text_shape t) = default_line_legend_text_styles
       /\ (x (start l) == 500 + inject_Z (Z.of_nat 1) * 100)%Q
       /\ (y (start l) == 60 + inject_Z (Z.of_nat 1) * 0)%Q
       /\ (x (end_ l) == x (start l) + 20)%Q
       /\ (y (end_ l) == y (start l))%Q
       /\ (x (position (Text_shape t)) == x (start l) + 20 + 5)%Q
       /\ (y (position (Text_shape t)) == y (start l))%Q.
Proof.
  apply (LineLegend_init_entries 500 60 sample_series 100 0 20 5 1 "b"%string
           sample_series_b).
  reflexivity.
Defined.

(** ** Custom elements *)

(** X17. An element added with [add_custom_element] is drawn last: its
    fragments come after everything the chart drew before, which stays as
    it was. *)
Theorem add_custom_element_drawn_last (fmt : Q -> string) (c : Chart) (e : Element) :
  Chart_get_element_list fmt (add_custom_element c e)
  = Chart_get_element_list fmt c ++ Element_get_element_list fmt e.
Proof.
  unfold Chart_get_element_list, add_custom_element. cbv zeta.
  cbn [x_axis y_axis legend series custom_elements].
  rewrite map_app, !flat_map_app. cbn [map flat_map Target_get_element_list].
  rewrite app_nil_r, <- !app_assoc. reflexivity.
Qed.

(** ** Grids *)



(** ** The series of a [SimpleLineChart] *)

Lemma mapM_length {A B : Type} (f : A -> result B) :
  forall (l : list A) (r : list B), mapM f l = Ok r -> List.length r = List.length l.
Proof.
  induction l as [|a l IH]; intros r H; cbn [mapM] in H.
  - inversion H. reflexivity.
  - destruct (f a) as [b|e]; cbn [bind] in H; [|discriminate].
    destruct (mapM f l) as [bs|e]; cbn [bind] in H; [|discriminate].
    inversion H. cbn [List.length]. rewrite (IH bs eq_refl). reflexivity.
Qed.

Lemma dict_set_present_keys {V : Type} (d : dict V) (k : string) (v : V) :
  In k (map fst d) -> map fst (dict_set d k v) = map fst d.
Proof.
  induction d as [|[k' v'] d IH]; intros H; [destruct H|].
  cbn [dict_set]. destruct (String.eqb_spec k' k) as [E|E]; [reflexivity|].
  cbn [map fst] in H |- *. destruct H as [H|H]; [contradiction|].
  rewrite (IH H). reflexivity.
Qed.

Lemma dict_set_NoDup {V : Type} (d : dict V) (k : string) (v : V) :
  NoDup (map fst d) -> NoDup (map fst (dict_set d k v)).
Proof.
  intros H. destruct (in_dec string_dec k (map fst d)) as [I|I].
  - rewrite dict_set_present_keys by exact I. exact H.
  - rewrite dict_set_fresh by exact I. rewrite map_app. cbn [map fst].
    apply NoDup_app; [exact H|repeat constructor; intros []|].
    intros a Ha [<-|[]]. contradiction.
Qed.

Lemma dict_set_Forall {V : Type} (P : V -> Prop) (d : dict V) (k : string) (v : V) :
  Forall (fun kv => P (snd kv)) d -> P v -> Forall (fun kv => P (snd kv)) (dict_set d k v).
Proof.
  intros H Hv. induction d as [|[k' v'] d IH]; cbn [dict_set].
  - repeat constructor. exact Hv.
  - inversion H as [|? ? H1 H2]. subst.
    destruct (String.eqb k' k); constructor; try assumption.
    apply IH. exact H2.
Qed.

Lemma SimpleLineSeries_init_ok (pts : list Point) (s : SimpleLineSeries) :
  SimpleLineSeries_init pts = Ok s ->
  points s = pts /\ pts <> [] /\ styles (Series_shape s) = path_default_styles.
Proof.
  destruct pts as [|p pts]; cbn; intros H; [discriminate|].
  inversion H. cbn. repeat split. discriminate.
Qed.

(** What [build_series] keeps: distinct keys, the default styles, and at
    least one point in every series. *)
Lemma build_series_invariant (xa ya : Axis) (x_values : list value)
    (series_names : list string) (y_values : list (list value))
    (ser : dict SimpleLineSeries) :
  build_series xa ya x_values series_names y_values = Ok ser ->
  NoDup (map fst ser)
  /\ Forall (fun ns => styles (Series_shape (snd ns)) = path_default_styles
                       /\ points (snd ns) <> []) ser.
Proof.
  unfold build_series.
  apply (for_each_invariant
           (fun d : dict SimpleLineSeries =>
              NoDup (map fst d)
              /\ Forall (fun ns => styles (Series_shape (snd ns)) = path_default_styles
                                   /\ points (snd ns) <> []) d)).
  - intros d [n yv] d' [Hnd Hall] H.
    destruct (SimpleXAxis_get_positions xa x_values) as [xs|e]; cbn [bind] in H;
      [|discriminate].
    destruct (YAxis_get_positions ya _) as [ys|e]; cbn [bind] in H; [|discriminate].
    destruct (SimpleLineSeries_init _) as [s|e] eqn:Hs; cbn [bind] in H; [|discriminate].
    inversion H. subst d'.
    destruct (SimpleLineSeries_init_ok _ _ Hs) as [Hp [Hne Hst]].
    split; [apply dict_set_NoDup; exact Hnd|].
    apply (dict_set_Forall
             (fun s => styles (Series_shape s) = path_default_styles /\ points s <> []));
      [exact Hall|].
    split; [exact Hst|]. rewrite Hp. exact Hne.
  - split; constructor.
Qed.

(** With distinct names, [build_series] zips the names with the lists of
    y values: the series keep that order and the [i]-th has as many points
    as the shorter of [x_values] and its list of y values. *)
Lemma build_series_points (xa ya : Axis) (x_values : list value) :
  forall (pairs : list (string * list value)) (d d' : dict SimpleLineSeries),
    NoDup (map fst d ++ map fst pairs) ->
    for_each pairs
      (fun d ny =>
         xs <- SimpleXAxis_get_positions xa x_values ;;
         ys <- YAxis_get_positions ya (snd ny) ;;
         s <- SimpleLineSeries_init
                (map (fun p => mkPoint (fst p) (snd p)) (combine xs ys)) ;;
         Ok (dict_set d (fst ny) s))
      d = Ok d' ->
    map (fun ns => (fst ns, List.length (points (snd ns)))) d'
    = map (fun ns => (fst ns, List.length (points (snd ns)))) d
      ++ map (fun ny => (fst ny,
                         Nat.min (List.length x_values) (List.length (snd ny)))) pairs.
Proof.
  induction pairs as [|[n yv] pairs IH]; intros d d' Hnd H; cbn [for_each] in H.
  - inversion H. cbn [map]. rewrite app_nil_r. reflexivity.
  - destruct (SimpleXAxis_get_positions xa x_values) as [xs|e] eqn:Hxs; cbn [bind] in H;
      [|discriminate].
    cbn [snd fst] in H.
    destruct (YAxis_get_positions ya yv) as [ys|e] eqn:Hys; cbn [bind] in H;
      [|discriminate].
    destruct (SimpleLineSeries_init _) as [s|e] eqn:Hs; cbn [bind] in H; [|discriminate].
    cbn [map fst] in Hnd.
    assert (Hfresh : ~ In n (map fst d)).
    { apply NoDup_remove_2 in Hnd. intros Hin. apply Hnd. apply in_or_app. left. exact Hin. }
    rewrite dict_set_fresh in H by exact Hfresh.
    apply IH in H.
    + rewrite H, map_app. cbn [map fst snd]. rewrite <- app_assoc. cbn [app].
      destruct (SimpleLineSeries_init_ok _ _ Hs) as [Hp _].
      rewrite Hp, length_map, length_combine.
      unfold SimpleXAxis_get_positions in Hxs. apply mapM_length in Hxs.
      unfold YAxis_get_positions in Hys. apply mapM_length in Hys.
      rewrite Hxs, Hys, range_length, Z.sub_0_r, Nat2Z.id. reflexivity.
    + rewrite map_app. cbn [map fst]. rewrite <- app_assoc. exact Hnd.
Qed.

Lemma combine_names_NoDup {B : Type} (names : list string) :
  NoDup names -> forall l : list B, NoDup (map fst (combine names l)).
Proof.
  intros Hnd. induction Hnd as [|n names Hn Hnd IH]; intros l; [constructor|].
  destruct l as [|b l]; [constructor|].
  cbn [combine map fst]. constructor; [|apply IH].
  intros Hin. apply Hn. clear -Hin. revert l Hin.
  induction names as [|m names IHn]; intros l Hin; [destruct Hin|].
  destruct l as [|b' l]; [destruct Hin|].
  cbn [combine map fst In] in Hin. destruct Hin as [E|Hin]; [left; exact E|].
  right. eapply IHn. exact Hin.
Qed.

(** The colour loop changes styles only: names and points stay. *)
Lemma assign_colours_points (ser ser' : dict SimpleLineSeries) :
  assign_colours ser = Ok ser' ->
  map (fun ns => (fst ns, points (snd ns))) ser'
  = map (fun ns => (fst ns, points (snd ns))) ser.
Proof.
  unfold assign_colours.
  apply (for_each_invariant
           (fun d => map (fun ns => (fst ns, points (snd ns))) d
                     = map (fun ns => (fst ns, points (snd ns))) ser)); [|reflexivity].
  intros d [index name] d' Hd H.
  destruct (nth_error line_colour_defaults (Z.to_nat index)); [|discriminate].
  inversion H. rewrite map_map, <- Hd. apply map_ext.
  intros [k0 s0]. cbn [fst snd]. destruct (String.eqb k0 name); reflexivity.
Qed.

(** The colour loop on a dict, whose keys are distinct: the [i]-th series
    gets the [i]-th default colour. *)
Lemma assign_colours_loop :
  forall (rest done : dict SimpleLineSeries) (cols : list string) (k : nat),
    NoDup (map fst (done ++ rest)) ->
    (List.length rest <= List.length cols)%nat ->
    (forall j, nth_error cols j = nth_error line_colour_defaults (k + j)) ->
    for_each (combine (map Z.of_nat (seq k (List.length rest))) (map fst rest))
      (fun d ik =>
         let '(index, name) := ik in
         match nth_error line_colour_defaults (Z.to_nat index) with
         | None => Raise IndexError
         | Some colour =>
             Ok (map (fun ns =>
                        if String.eqb (fst ns) name
                        then (fst ns,
                              set_series_styles (snd ns)
                                (dict_set (styles (Series_shape (snd ns))) "stroke" colour))
                        else ns) d)
         end)
      (done ++ rest)
    = Ok (done ++ map (fun cn => coloured (fst cn) (snd cn)) (combine cols rest)).
Proof.
  induction rest as [|[name s] rest IH]; intros done cols k Hnd Hlen Hcols.
  - cbn. destruct cols; reflexivity.
  - destruct cols as [|c cols]; [cbn in Hlen; lia|].
    cbn [List.length seq map combine fst for_each].
    rewrite Nat2Z.id. rewrite <- (Nat.add_0_r k) at 1. rewrite <- Hcols.
    cbn [nth_error bind].
    assert (Hupd :
      map (fun ns : string * SimpleLineSeries =>
             if String.eqb (fst ns) name
             then (fst ns,
                   set_series_styles (snd ns)
                     (dict_set (styles (Series_shape (snd ns))) "stroke" c))
             else ns) (done ++ (name, s) :: rest)
      = (done ++ [coloured c (name, s)]) ++ rest).
    { rewrite map_app in Hnd. cbn [map fst] in Hnd.
      pose proof (NoDup_remove_2 _ _ _ Hnd) as Hn.
      rewrite map_app. cbn [map fst snd]. rewrite String.eqb_refl.
      rewrite <- app_assoc. cbn [app]. f_equal; [|f_equal].
      - rewrite <- (map_id done) at 2. apply map_ext_in. intros [k' s'] Hin.
        cbn [fst]. destruct (String.eqb_spec k' name) as [E|E]; [|reflexivity].
        exfalso. apply Hn. apply in_or_app. left.
        apply in_map_iff. exists (k', s'). split; [exact E|exact Hin].
      - rewrite <- (map_id rest) at 2. apply map_ext_in. intros [k' s'] Hin.
        cbn [fst]. destruct (String.eqb_spec k' name) as [E|E]; [|reflexivity].
        exfalso. apply Hn. apply in_or_app. right.
        apply in_map_iff. exists (k', s'). split; [exact E|exact Hin]. }
    rewrite Hupd.
    rewrite (IH (done ++ [coloured c (name, s)]) cols (S k)).
    + rewrite <- app_assoc. reflexivity.
    + rewrite <- app_assoc. cbn [app]. rewrite !map_app in *. exact Hnd.
    + cbn [List.length] in Hlen. lia.
    + intros j. change (nth_error cols j) with (nth_error (c :: cols) (S j)).
      rewrite Hcols. f_equal. lia.
Qed.

Lemma assign_colours_run (ser : dict SimpleLineSeries) :
  NoDup (map fst ser) ->
  (List.length ser <= 3)%nat ->
  assign_colours ser
  = Ok (map (fun cn => coloured (fst cn) (snd cn)) (combine line_colour_defaults ser)).
Proof.
  intros Hnd Hlen. unfold assign_colours. rewrite enumerate_seq, length_map.
  apply (assign_colours_loop ser [] line_colour_defaults 0%nat);
    [exact Hnd|exact Hlen|reflexivity].
Qed.

Lemma map_fst_combine_firstn {A B : Type} :
  forall (l : list A) (m : list B),
    map fst (combine l m) = firstn (List.length m) l.
Proof.
  induction l as [|a l IH]; intros [|b m]; cbn; try reflexivity.
  rewrite IH. reflexivity.
Qed.

(** X19. In a chart that was built the series carry, in order, the default
    stroke colours green, red and blue besides the stroke width 2. *)
Theorem SimpleLineChart_series_colours (x_values : list value)
    (y_values : list (list value)) (y_names : option (list string))
    (x_max_ticks y_max_ticks : Z) (x_margin y_margin height width : Q)
    (x_labels y_labels : tick -> string) (c : Chart) :
  SimpleLineChart_init x_values y_values y_names x_max_ticks y_max_ticks
    x_margin y_margin height width x_labels y_labels = Ok c ->
  map (fun ns => styles (Series_shape (snd ns))) (series c)
  = map (fun colour => [("stroke-width", "2"); ("stroke", colour)]%string)
      (firstn (List.length (series c)) line_colour_defaults).
Proof.
  unfold SimpleLineChart_init. intros H.
  destruct (YAxis_init _ _ _ _ _ _ _ _) as [ya|e]; cbn [bind] in H; [|discriminate].
  destruct (XAxis_init _ _ _ _ _ _ _ _) as [xa|e]; cbn [bind] in H; [|discriminate].
  destruct (build_series _ _ _ _ _) as [ser|e] eqn:Hb; cbn [bind] in H; [|discriminate].
  destruct (assign_colours ser) as [ser'|e] eqn:E; cbn [bind] in H; [|discriminate].
  inversion H. cbn [series]. clear H.
  destruct (build_series_invariant _ _ _ _ _ _ Hb) as [Hnd Hall].
  assert (Hlen : (List.length ser <= 3)%nat).
  { rewrite <- (assign_colours_length _ _ E).
    apply (assign_colours_at_most_three _ _ E). }
  rewrite (assign_colours_run ser Hnd Hlen) in E.
  assert (Hs : ser' = map (fun cn => coloured (fst cn) (snd cn))
                        (combine line_colour_defaults ser)) by congruence.
  rewrite Hs. clear E Hs.
  rewrite length_map, map_map.
  rewrite <- (map_fst_combine_firstn line_colour_defaults
                (combine line_colour_defaults ser)).
  rewrite map_map.
  assert (Hc : forall (cols : list string),
             map (fun cn => styles (Series_shape (snd (coloured (fst cn) (snd cn)))))
               (combine cols ser)
             = map (fun cn => [("stroke-width", "2"); ("stroke", fst cn)]%string)
                 (combine cols ser)).
  { intros cols. apply map_ext_in. intros [col ns] Hin.
    apply in_combine_r in Hin. rewrite Forall_forall in Hall.
    destruct (Hall ns Hin) as [Hst _].
    cbn [coloured fst snd set_series_styles Series_shape with_styles styles].
    rewrite Hst. reflexivity. }
  rewrite Hc.
  assert (Hf : forall (cols : list string) (d : dict SimpleLineSeries),
             map (fun cn => [("stroke-width", "2"); ("stroke", fst cn)]%string)
               (combine cols d)
             = map (fun x0 => [("stroke-width", "2"); ("stroke", fst x0)]%string)
                 (combine cols (combine cols d))).
  { induction cols as [|col cols IHc]; intros [|n d]; cbn; try reflexivity.
    rewrite IHc. reflexivity. }
  apply Hf.
Qed.

Lemma SimpleLineChart_series_colours_witness :
  map (fun ns => styles (Series_shape (snd ns))) (series chart_named)
  = map (fun colour => [("stroke-width", "2"); ("stroke", colour)]%string)
      (firstn (List.length (series chart_named)) line_colour_defaults).
Proof.
  apply (SimpleLineChart_series_colours sample_x_values sample_y_values
           (Some ["a"; "b"]%string) 12 12 100 100 600 800 sample_label sample_label
           chart_named).
  exact chart_named_built.
Defined.

(** X20. With distinct names the series of a chart that was built are the
    names zipped with the lists of y values, in that order: names or lists
    beyond the shorter of the two are left out. Every series has as many
    points as the shorter of [x_values] and its list of y values, and at
    least one. *)
Theorem SimpleLineChart_series_points (x_values : list value)
    (y_values : list (list value)) (names : list string)
    (x_max_ticks y_max_ticks : Z) (x_margin y_margin height width : Q)
    (x_labels y_labels : tick -> string) (c : Chart) :
  NoDup names ->
  SimpleLineChart_init x_values y_values (Some names) x_max_ticks y_max_ticks
    x_margin y_margin height width x_labels y_labels = Ok c ->
  map (fun ns => (fst ns, List.length (points (snd ns)))) (series c)
  = map (fun ny => (fst ny, Nat.min (List.length x_values) (List.length (snd ny))))
      (combine names y_values)
  /\ Forall (fun ns => points (snd ns) <> []) (series c).
Proof.
  intros Hnames. unfold SimpleLineChart_init. intros H.
  destruct (YAxis_init _ _ _ _ _ _ _ _) as [ya|e]; cbn [bind] in H; [|discriminate].
  destruct (XAxis_init _ _ _ _ _ _ _ _) as [xa|e]; cbn [bind] in H; [|discriminate].
  destruct (build_series _ _ _ _ _) as [ser|e] eqn:Hb; cbn [bind] in H; [|discriminate].
  destruct (assign_colours ser) as [ser'|e] eqn:E; cbn [bind] in H; [|discriminate].
  inversion H. cbn [series]. clear H.
  pose proof (assign_colours_points _ _ E) as Hp.
  destruct (build_series_invariant _ _ _ _ _ _ Hb) as [_ Hall].
  split.
  - unfold build_series in Hb.
    apply build_series_points in Hb;
      [|cbn [map app]; apply combine_names_NoDup; exact Hnames].
    cbn [map app] in Hb. rewrite <- Hb.
    apply (f_equal (map (fun kp : string * list Point =>
                           (fst kp, List.length (snd kp))))) in Hp.
    rewrite !map_map in Hp. exact Hp.
  - assert (Hser : Forall (fun kp : string * list Point => snd kp <> [])
                     (map (fun ns => (fst ns, points (snd ns))) ser)).
    { rewrite Forall_map. eapply Forall_impl; [|exact Hall].
      intros ns [_ Hne]. exact Hne. }
    rewrite <- Hp, Forall_map in Hser. exact Hser.
Qed.

Lemma SimpleLineChart_series_points_witness :
  map (fun ns => (fst ns, List.length (points (snd ns)))) (series chart_named)
  = map (fun ny => (fst ny, Nat.min (List.length sample_x_values)
                              (List.length (snd ny))))
      (combine ["a"; "b"]%string sample_y_values)
  /\ Forall (fun ns => points (snd ns) <> []) (series chart_named).
Proof.
  apply (SimpleLineChart_series_points sample_x_values sample_y_values
           ["a"; "b"]%string 12 12 100 100 600 800 sample_label sample_label
           chart_named).
  - repeat (constructor; [cbn; intuition discriminate|]). constructor.
  - exact chart_named_built.
Defined.

(** X21. A chart that was built holds at most three series, under distinct
    names, whatever names and however many lists of y values were given. *)
Theorem SimpleLineChart_never_more_than_three (x_values : list value)
    (y_values : list (list value)) (y_names : option (list string))
    (x_max_ticks y_max_ticks : Z) (x_margin y_margin height width : Q)
    (x_labels y_labels : tick -> string) (c : Chart) :
  SimpleLineChart_init x_values y_values y_names x_max_ticks y_max_ticks
    x_margin y_margin height width x_labels y_labels = Ok c ->
  (List.length (series c) <= 3)%nat /\ NoDup (map fst (series c)).
Proof.
  unfold SimpleLineChart_init. intros H.
  destruct (YAxis_init _ _ _ _ _ _ _ _) as [ya|e]; cbn [bind] in H; [|discriminate].
  destruct (XAxis_init _ _ _ _ _ _ _ _) as [xa|e]; cbn [bind] in H; [|discriminate].
  destruct (build_series _ _ _ _ _) as [ser|e] eqn:Hb; cbn [bind] in H; [|discriminate].
  destruct (assign_colours ser) as [ser'|e] eqn:E; cbn [bind] in H; [|discriminate].
  inversion H. cbn [series]. clear H.
  split; [apply (assign_colours_at_most_three _ _ E)|].
  destruct (build_series_invariant _ _ _ _ _ _ Hb) as [Hnd _].
  pose proof (assign_colours_points _ _ E) as Hp.
  apply (f_equal (map fst)) in Hp. rewrite !map_map in Hp. cbn [fst] in Hp.
  change (map fst ser' = map fst ser) in Hp.
  rewrite Hp. exact Hnd.
Qed.

Lemma SimpleLineChart_never_more_than_three_witness :
  (List.length (series chart_named) <= 3)%nat /\ NoDup (map fst (series chart_named)).
Proof.
  apply (SimpleLineChart_never_more_than_three sample_x_values sample_y_values
           (Some ["a"; "b"]%string) 12 12 100 100 600 800 sample_label sample_label
           chart_named).
  exact chart_named_built.
Defined.

(** ** The path of a series *)

Lemma path_steps (fmt : Q -> string) (ps : list Point) :
  forall k, 1 <= k ->
    map (fun ip : Z * Point =>
           ((if Z.eqb (fst ip) 0 then "M" else "L") ++ " " ++ fmt (x (snd ip)) ++ " "
              ++ fmt (y (snd ip)))%string)
      (combine (range k (k + Z.of_nat (List.length ps))) ps)
    = map (fun p => ("L " ++ fmt (x p) ++ " " ++ fmt (y p))%string) ps.
Proof.
  induction ps as [|p ps IH]; intros k Hk; [cbn; destruct (range k _); reflexivity|].
  rewrite range_cons by (cbn [List.length]; lia).
  cbn [combine map fst snd].
  replace (k =? 0) with false by (symmetry; apply Z.eqb_neq; lia).
  f_equal.
  replace (k + Z.of_nat (List.length (p :: ps)))
    with (k + 1 + Z.of_nat (List.length ps)) by (cbn [List.length]; lia).
  apply IH. lia.
Qed.

(** X24. The path of a series moves to its first point and draws a line to
    every later point, in order: one [M] and then only [L]. *)
Theorem path_of_move_then_lines (fmt : Q -> string) (p : Point) (ps : list Point) :
  path_of fmt (p :: ps)
  = String.concat " "
      (("M " ++ fmt (x p) ++ " " ++ fmt (y p))%string
         :: map (fun p' => ("L " ++ fmt (x p') ++ " " ++ fmt (y p'))%string) ps).
Proof.
  unfold path_of, enumerate.
  rewrite range_cons by (cbn [List.length]; lia).
  cbn [combine map fst snd Z.eqb].
  replace (Z.of_nat (List.length (p :: ps))) with (0 + 1 + Z.of_nat (List.length ps))
    by (cbn [List.length]; lia).
  rewrite (path_steps fmt ps (0 + 1)) by lia.
  reflexivity.
Qed.

(** ** How many series a chart holds *)

Lemma dict_set_keys_In {V : Type} (d : dict V) (k : string) (v : V) (k' : string) :
  In k' (map fst (dict_set d k v)) <-> k' = k \/ In k' (map fst d).
Proof.
  induction d as [|[k0 v0] d IH]; cbn [dict_set map fst In].
  - split; intros [H|H]; auto; destruct H.
  - destruct (String.eqb_spec k0 k) as [E|E]; cbn [map fst In].
    + subst k0. split; [intros [H|H]|intros [H|[H|H]]]; auto.
    + rewrite IH. tauto.
Qed.

(** The keys of the series dict are the names that were zipped with a
    list of y values. *)
Lemma build_series_keys_In (xa ya : Axis) (x_values : list value) :
  forall (pairs : list (string * list value)) (d d' : dict SimpleLineSeries),
    for_each pairs
      (fun d ny =>
         xs <- SimpleXAxis_get_positions xa x_values ;;
         ys <- YAxis_get_positions ya (snd ny) ;;
         s <- SimpleLineSeries_init
                (map (fun p => mkPoint (fst p) (snd p)) (combine xs ys)) ;;
         Ok (dict_set d (fst ny) s))
      d = Ok d' ->
    forall k, In k (map fst d') <-> In k (map fst d) \/ In k (map fst pairs).
Proof.
  induction pairs as [|[n yv] pairs IH]; intros d d' H k; cbn [for_each] in H.
  - inversion H. cbn [map In]. tauto.
  - destruct (SimpleXAxis_get_positions xa x_values) as [xs|e]; cbn [bind] in H;
      [|discriminate].
    cbn [snd fst] in H.
    destruct (YAxis_get_positions ya yv) as [ys|e]; cbn [bind] in H; [|discriminate].
    destruct (SimpleLineSeries_init _) as [s|e]; cbn [bind] in H; [|discriminate].
    rewrite (IH _ _ H k), dict_set_keys_In. cbn [map fst In].
    split; [intros [[E|Hk]|Hk]|intros [Hk|[E|Hk]]]; auto.
Qed.

Lemma build_series_distinct (xa ya : Axis) (x_values : list value)
    (series_names : list string) (y_values : list (list value))
    (ser : dict SimpleLineSeries) :
  build_series xa ya x_values series_names y_values = Ok ser ->
  List.length ser
  = List.length (nodup string_dec (map fst (combine series_names y_values))).
Proof.
  intros H.
  destruct (build_series_invariant _ _ _ _ _ _ H) as [Hnd _].
  unfold build_series in H.
  pose proof (build_series_keys_In xa ya x_values _ _ _ H) as Hk.
  cbn [map In] in Hk.
  rewrite <- (length_map fst ser). apply Nat.le_antisymm.
  - apply NoDup_incl_length; [exact Hnd|].
    intros k Hin. apply nodup_In. apply Hk in Hin. tauto.
  - apply NoDup_incl_length; [apply NoDup_nodup|].
    intros k Hin. apply nodup_In in Hin. apply Hk. right. exact Hin.
Qed.

(** C10. The series of a chart are keyed by name, so pairs of a name and a
    list of y values that repeat a name overwrite one another: once both
    axes and the series are built, the chart holds one series for every
    different name among the names zipped with the lists of y values.
    With more than three different names the loop that assigns the default
    stroke colours reads past the three default colours and the
    constructor raises [IndexError]; with at most three it returns a
    chart, however many names and lists were supplied. *)
Theorem SimpleLineChart_more_than_three_series (x_values : list value)
    (y_values : list (list value)) (names : list string)
    (x_max_ticks y_max_ticks : Z) (x_margin y_margin height width : Q)
    (x_labels y_labels : tick -> string) (ya xa : Axis)
    (ser : dict SimpleLineSeries) :
  YAxis_init x_margin y_margin (List.concat y_values) (height - 2 * y_margin)%Q
    y_labels y_max_ticks None 5 = Ok ya ->
  XAxis_init x_margin (height - y_margin)%Q x_values (width - 2 * x_margin)%Q
    x_labels x_max_ticks None 5 = Ok xa ->
  build_series xa ya x_values names y_values = Ok ser ->
  let distinct := nodup string_dec (map fst (combine names y_values)) in
  List.length ser = List.length distinct
  /\ ((3 < List.length distinct)%nat ->
      assign_colours ser = Raise IndexError
      /\ SimpleLineChart_init x_values y_values (Some names) x_max_ticks y_max_ticks
           x_margin y_margin height width x_labels y_labels = Raise IndexError)
  /\ ((List.length distinct <= 3)%nat ->
      exists c : Chart,
        SimpleLineChart_init x_values y_values (Some names) x_max_ticks y_max_ticks
          x_margin y_margin height width x_labels y_labels = Ok c
        /\ List.length (series c) = List.length distinct).
Proof.
  intros Hya Hxa Hser distinct.
  pose proof (build_series_distinct _ _ _ _ _ _ Hser) as Hlen. fold distinct in Hlen.
  split; [exact Hlen|]. split.
  - intros Hmore.
    assert (Hraise : assign_colours ser = Raise IndexError).
    { apply assign_colours_raise. lia. }
    split; [exact Hraise|].
    unfold SimpleLineChart_init. rewrite Hya. cbn [bind]. rewrite Hxa. cbn [bind].
    rewrite Hser. cbn [bind]. rewrite Hraise. reflexivity.
  - intros Hfew.
    destruct (build_series_invariant _ _ _ _ _ _ Hser) as [Hnd _].
    unfold SimpleLineChart_init. rewrite Hya. cbn [bind]. rewrite Hxa. cbn [bind].
    rewrite Hser. cbn [bind].
    rewrite (assign_colours_run ser Hnd) by lia. cbn [bind].
    eexists. split; [reflexivity|].
    cbn [series]. rewrite length_map, length_combine, Hlen.
    cbn [line_colour_defaults List.length]. lia.
Qed.

Lemma SimpleLineChart_more_than_three_series_witness :
  let distinct :=
    nodup string_dec (map fst (combine sample_names4 sample_y_values4)) in
  List.length series4 = List.length distinct
  /\ ((3 < List.length distinct)%nat ->
      assign_colours series4 = Raise IndexError
      /\ SimpleLineChart_init sample_x_values sample_y_values4 (Some sample_names4)
           12 12 100 100 600 800 sample_label sample_label = Raise IndexError)
  /\ ((List.length distinct <= 3)%nat ->
      exists c : Chart,
        SimpleLineChart_init sample_x_values sample_y_values4 (Some sample_names4)
          12 12 100 100 600 800 sample_label sample_label = Ok c
        /\ List.length (series c) = List.length distinct).
Proof.
  apply (SimpleLineChart_more_than_three_series sample_x_values sample_y_values4
           sample_names4 12 12 100 100 600 800 sample_label sample_label
           y_axis4 x_axis4 series4).
  - exact y_axis4_built.
  - exact x_axis4_built.
  - exact series4_built.
Defined.

Lemma chart_repeated_built :
  SimpleLineChart_init sample_x_values sample_y_values4 (Some sample_names_repeated)
    12 12 100 100 600 800 sample_label sample_label = Ok chart_repeated.
Proof.
  unfold SimpleLineChart_init, YAxis_init, XAxis_init, Axis_init.
  rewrite sample_y_limits4, sample_x_limits.
  vm_compute. reflexivity.
Qed.

(** Counterexample to C10 as it is worded.  Four names, one of them twice,
    with four lists of y values: more than
    three named series are supplied, and the constructor returns a chart.
    It holds the three series [a], [b] and [c]; the first list of y values
    was overwritten by the second. *)
Theorem SimpleLineChart_repeated_name_builds :
  (3 < List.length sample_names_repeated)%nat
  /\ (3 < List.length sample_y_values4)%nat
  /\ SimpleLineChart_init sample_x_values sample_y_values4 (Some sample_names_repeated)
       12 12 100 100 600 800 sample_label sample_label = Ok chart_repeated
  /\ map fst (series chart_repeated) = ["a"; "b"; "c"]%string.
Proof.
  split; [cbn; lia|]. split; [cbn; lia|].
  split; [exact chart_repeated_built|].
  vm_compute. reflexivity.
Qed.

(** ** Building a [SimpleLineChart] *)

(** X22. A chart whose y values are all equal, or that has no y value at all,
    cannot be built: the y axis, built first, refuses them with
    [ValueError]. *)
Theorem SimpleLineChart_constant_series (x_values : list value)
    (y_values : list (list value)) (y_names : option (list string))
    (x_max_ticks y_max_ticks : Z) (x_margin y_margin height width : Q)
    (x_labels y_labels : tick -> string) :
  (forall a b, In a (List.concat y_values) -> In b (List.concat y_values) ->
               py_eqb a b = true) ->
  SimpleLineChart_init x_values y_values y_names x_max_ticks y_max_ticks
    x_margin y_margin height width x_labels y_labels
  = Raise (ValueError
             "Values must be a non-empty iterable with at least two unique elements.").
Proof.
  intros H. unfold SimpleLineChart_init, YAxis_init, Axis_init.
  rewrite get_limits_few_values by (apply set_of_all_equal; exact H).
  reflexivity.
Qed.

Lemma SimpleLineChart_constant_series_witness :
  SimpleLineChart_init sample_x_values [[VInt 5; VInt 5; VFloat (5 # 1)]] None
    12 12 100 100 600 800 sample_label sample_label
  = Raise (ValueError
             "Values must be a non-empty iterable with at least two unique elements.").
Proof.
  apply (SimpleLineChart_constant_series sample_x_values
           [[VInt 5; VInt 5; VFloat (5 # 1)]] None 12 12 100 100 600 800
           sample_label sample_label).
  intros a b Ha Hb. cbn [List.concat app In] in Ha, Hb.
  destruct Ha as [<-|[<-|[<-|[]]]]; destruct Hb as [<-|[<-|[<-|[]]]]; reflexivity.
Defined.

Lemma set_of_length_le (values : list value) :
  (List.length (set_of values) <= List.length values)%nat.
Proof.
  induction values as [|v values IH]; cbn [set_of List.length]; [lia|].
  destruct (existsb (py_eqb v) (set_of values)); cbn [List.length]; lia.
Qed.

Lemma sorted_span (t0 t1 : Q) (rest : list Q) :
  StronglySorted Qlt (t0 :: t1 :: rest) ->
  (q_min t0 (t1 :: rest) < q_max t0 (t1 :: rest))%Q.
Proof.
  intros H. inversion H as [|? ? _ Hall]. subst.
  inversion Hall as [|? ? H01 _]. subst.
  eapply Qle_lt_trans; [apply (q_min_le (t1 :: rest) t0 t0); left; reflexivity|].
  eapply Qlt_le_trans; [exact H01|].
  apply (q_max_ge (t1 :: rest) t0 t1). right. left. reflexivity.
Qed.

(** Non-negative numbers with two distinct elements give numeric limits
    that bracket every value. *)
Lemma get_limits_nonneg_bracket (values : list value) (max_ticks : Z) :
  0 < max_ticks ->
  forallb is_number values = true ->
  (2 <= List.length (set_of values))%nat ->
  (forall q, In q (choose number_of values) -> (0 <= q)%Q) ->
  exists (t0 : Q) (ts : list Q),
    get_limits values max_ticks = Ok (map TNum (t0 :: ts))
    /\ (2 <= List.length (map TNum (t0 :: ts)))%nat
    /\ (q_min t0 ts < q_max t0 ts)%Q
    /\ (forall u, In u (choose number_of values) ->
          (q_min t0 ts <= u)%Q /\ (u <= q_max t0 ts)%Q).
Proof.
  intros Hm Hnum Hset Hpos.
  destruct (get_limits_nonneg_run values max_ticks Hm Hnum Hset Hpos)
    as (pad & start & end_ & _ & Hse & Heq & Hsorted & Hlen & Hbr).
  assert (Hs : In (inject_Z start * pad)%Q
                 (map (fun y => (inject_Z y * pad)%Q) (range start (end_ + 1)))).
  { apply in_map_iff. exists start. split; [reflexivity|]. apply range_In. lia. }
  assert (He : In (inject_Z end_ * pad)%Q
                 (map (fun y => (inject_Z y * pad)%Q) (range start (end_ + 1)))).
  { apply in_map_iff. exists end_. split; [reflexivity|]. apply range_In. lia. }
  rewrite <- (length_map (fun y => (inject_Z y * pad)%Q)) in Hlen.
  destruct (map (fun y => (inject_Z y * pad)%Q) (range start (end_ + 1)))
    as [|t0 [|t1 rest]]; cbn [List.length] in Hlen; try lia.
  exists t0, (t1 :: rest). split; [exact Heq|].
  split; [cbn; lia|]. split; [apply sorted_span; exact Hsorted|].
  intros u Hu. destruct (Hbr u Hu) as [B1 B2]. split.
  - eapply Qle_trans; [apply q_min_le; exact Hs|exact B1].
  - eapply Qle_trans; [exact B2|apply q_max_ge; exact He].
Qed.

Lemma forallb_concat {A : Type} (f : A -> bool) (ll : list (list A)) (l : list A) :
  forallb f (List.concat ll) = true -> In l ll -> forallb f l = true.
Proof.
  intros H Hin. rewrite forallb_forall in *. intros a Ha.
  apply H. apply in_concat. exists l. split; assumption.
Qed.

(** [build_series] succeeds on an x axis of at least two values and a y
    axis with numeric limits, for non-empty lists of numbers. *)
Lemma build_series_ok (xa ya : Axis) (x_values : list value) (q : Q) (qs : list Q) :
  (2 <= List.length x_values)%nat ->
  limits ya = map TNum (q :: qs) ->
  (q_min q qs < q_max q qs)%Q ->
  forall (pairs : list (string * list value)) (d : dict SimpleLineSeries),
    Forall (fun ny => forallb is_number (snd ny) = true /\ snd ny <> []) pairs ->
    exists d',
      for_each pairs
        (fun d ny =>
           xs <- SimpleXAxis_get_positions xa x_values ;;
           ys <- YAxis_get_positions ya (snd ny) ;;
           s <- SimpleLineSeries_init
                  (map (fun p => mkPoint (fst p) (snd p)) (combine xs ys)) ;;
           Ok (dict_set d (fst ny) s))
        d = Ok d'.
Proof.
  intros Hx Hl Hspan.
  match goal with
  | |- forall pairs d, _ -> exists d', for_each pairs ?b d = Ok d' => set (body := b)
  end.
  induction pairs as [|[n ys] pairs IH]; intros d Hall; cbn [for_each].
  - exists d. reflexivity.
  - inversion Hall as [|? ? [Hnum Hne] Hrest]. subst. cbn [snd fst] in *.
    unfold body at 1. cbn [snd fst].
    rewrite (SimpleXAxis_get_positions_run xa x_values Hx). cbn [bind].
    rewrite (YAxis_get_positions_run ya q qs ys Hl Hspan Hnum). cbn [bind].
    destruct ys as [|w ys]; [contradiction|].
    destruct (choose_numbers_cons w ys Hnum) as [u [_ [Hc _]]]. rewrite Hc.
    rewrite range_cons by lia. cbn [map combine SimpleLineSeries_init bind].
    apply IH. exact Hrest.
Qed.

(** X23. For non-negative numbers, with at least two different x values and
    two different y values, no empty series, distinct names and at most
    three series, the constructor returns a chart, with one series per
    name and list of y values. *)
Theorem SimpleLineChart_init_succeeds (x_values : list value)
    (y_values : list (list value)) (y_names : option (list string))
    (x_max_ticks y_max_ticks : Z) (x_margin y_margin height width : Q)
    (x_labels y_labels : tick -> string) :
  0 < x_max_ticks ->
  0 < y_max_ticks ->
  forallb is_number x_values = true ->
  (2 <= List.length (set_of x_values))%nat ->
  (forall u, In u (choose number_of x_values) -> (0 <= u)%Q) ->
  forallb is_number (List.concat y_values) = true ->
  (2 <= List.length (set_of (List.concat y_values)))%nat ->
  (forall u, In u (choose number_of (List.concat y_values)) -> (0 <= u)%Q) ->
  Forall (fun ys => ys <> []) y_values ->
  let series_names :=
    match y_names with
    | Some names => names
    | None => [default_series_name y_values]
    end in
  NoDup series_names ->
  (Nat.min (List.length series_names) (List.length y_values) <= 3)%nat ->
  exists c : Chart,
    SimpleLineChart_init x_values y_values y_names x_max_ticks y_max_ticks
      x_margin y_margin height width x_labels y_labels = Ok c
    /\ List.length (series c)
       = Nat.min (List.length series_names) (List.length y_values).
Proof.
  intros Hmx Hmy Hxn Hxs Hxp Hyn Hys Hyp Hne series_names Hnd Hthree.
  destruct (get_limits_nonneg_bracket _ _ Hmy Hyn Hys Hyp)
    as [ty [tys [Ey [Ly [Sy _]]]]].
  destruct (get_limits_nonneg_bracket _ _ Hmx Hxn Hxs Hxp)
    as [tx [txs [Ex [Lx _]]]].
  unfold SimpleLineChart_init. cbv zeta. fold series_names.
  rewrite (YAxis_init_run _ _ _ _ _ _ _ _ _ Ey Ly). cbn [bind].
  rewrite (XAxis_init_run _ _ _ _ _ _ _ _ _ Ex Lx). cbn [bind].
  match goal with
  | |- context [build_series ?xa0 ?ya0 _ _ _] => set (xa := xa0); set (ya := ya0)
  end.
  assert (Hlen : (2 <= List.length x_values)%nat).
  { pose proof (set_of_length_le x_values). lia. }
  assert (Hpairs : Forall (fun ny : string * list value =>
                             forallb is_number (snd ny) = true /\ snd ny <> [])
                     (combine series_names y_values)).
  { apply Forall_forall. intros [n ys] Hin. apply in_combine_r in Hin. cbn [snd].
    split; [apply (forallb_concat _ _ _ Hyn Hin)|].
    rewrite Forall_forall in Hne. apply Hne. exact Hin. }
  destruct (build_series_ok xa ya x_values ty tys Hlen eq_refl Sy
              (combine series_names y_values) [] Hpairs) as [ser Hser].
  fold (build_series xa ya x_values series_names y_values) in Hser.
  rewrite Hser. cbn [bind].
  destruct (build_series_invariant _ _ _ _ _ _ Hser) as [Hkeys _].
  pose proof (build_series_length _ _ _ _ _ _ Hnd Hser) as Hl.
  rewrite (assign_colours_run ser Hkeys) by lia. cbn [bind].
  eexists. split; [reflexivity|].
  cbn [series]. rewrite length_map, length_combine, Hl.
  cbn [line_colour_defaults List.length]. lia.
Qed.

Lemma SimpleLineChart_init_succeeds_witness :
  exists c : Chart,
    SimpleLineChart_init sample_x_values sample_y_values (Some ["a"; "b"]%string)
      12 12 100 100 600 800 sample_label sample_label = Ok c
    /\ List.length (series c)
       = Nat.min (List.length ["a"; "b"]%string) (List.length sample_y_values).
Proof.
  apply (SimpleLineChart_init_succeeds sample_x_values sample_y_values
           (Some ["a"; "b"]%string) 12 12 100 100 600 800 sample_label sample_label).
  - lia.
  - lia.
  - reflexivity.
  - vm_compute. lia.
  - intros u Hu. cbn in Hu.
    repeat (destruct Hu as [<-|Hu]; [discriminate|]). destruct Hu.
  - reflexivity.
  - vm_compute. lia.
  - intros u Hu. cbn in Hu.
    repeat (destruct Hu as [<-|Hu]; [discriminate|]). destruct Hu.
  - repeat constructor; discriminate.
  - repeat (constructor; [cbn; intuition discriminate|]). constructor.
  - cbn. lia.
Defined.

(** ** The points of a chart lie inside its axes *)

Lemma for_each_invariant_In {A S : Type} (P : S -> Prop) (body : S -> A -> result S) :
  forall (l : list A),
    (forall s a s', In a l -> P s -> body s a = Ok s' -> P s') ->
    forall s s', P s -> for_each l body s = Ok s' -> P s'.
Proof.
  induction l as [|a l IH]; intros Hbody s s' Hs H; cbn [for_each] in H.
  - inversion H. subst. exact Hs.
  - destruct (body s a) as [s1|e] eqn:E; cbn [bind] in H; [|discriminate].
    apply (IH (fun s0 a0 s0' Hin => Hbody s0 a0 s0' (or_intror Hin)) s1 s');
      [|exact H].
    apply (Hbody s a s1); [left; reflexivity|exact Hs|exact E].
Qed.

Lemma XAxis_init_shape (x_position y_position : Q) (data_points : list value)
    (axis_length : Q) (label_format : tick -> string) (max_ticks : Z)
    (axis_styles : option (dict string)) (tick_length : Q) (a : Axis) :
  XAxis_init x_position y_position data_points axis_length label_format max_ticks
    axis_styles tick_length = Ok a ->
  position (Axis_shape a) = mkPoint x_position y_position /\ length a = axis_length.
Proof.
  unfold XAxis_init, Axis_init.
  destruct (get_limits data_points max_ticks) as [lims|e]; cbn [bind]; [|discriminate].
  cbv zeta.
  apply (for_each_invariant
           (fun s : Axis => position (Axis_shape s) = mkPoint x_position y_position
                            /\ length s = axis_length)).
  - intros s [i m] s' [Hp Hlen] H.
    destruct (py_div _ _) as [q0|e]; cbn [bind] in H; [|discriminate].
    inversion H. cbn. split; assumption.
  - split; reflexivity.
Qed.

Lemma index_fraction (i : Z) (D L : Q) :
  0 <= i -> (inject_Z i <= D)%Q -> (0 < D)%Q -> (0 <= L)%Q ->
  (0 <= inject_Z i * L / D)%Q /\ (inject_Z i * L / D <= L)%Q.
Proof.
  intros Hi Hi1 Hd HL.
  assert (Hi0 : (0 <= inject_Z i)%Q).
  { change 0%Q with (inject_Z 0). rewrite <- Zle_Qle. exact Hi. }
  split.
  - apply Qle_shift_div_l; [exact Hd|]. rewrite Qmult_0_l.
    apply Qmult_le_0_compat; assumption.
  - apply Qle_shift_div_r; [exact Hd|].
    rewrite (Qmult_comm L). apply Qmult_le_compat_r; assumption.
Qed.

Lemma SimpleXAxis_get_positions_within (a : Axis) (x_values : list value)
    (xs : list Q) :
  SimpleXAxis_get_positions a x_values = Ok xs ->
  (0 <= length a)%Q ->
  Forall (fun p => (x (position (Axis_shape a)) <= p)%Q
                   /\ (p <= x (position (Axis_shape a)) + length a)%Q) xs.
Proof.
  intros H HL.
  destruct x_values as [|v [|w rest]].
  - inversion H. constructor.
  - discriminate H.
  - rewrite SimpleXAxis_get_positions_run in H by (cbn; lia).
    injection H as <-. apply Forall_forall. intros p Hp.
    apply in_map_iff in Hp. destruct Hp as [i [<- Hi]].
    pose proof (proj1 (range_In _ _ _) Hi) as Hr.
    change (0 <= i < Z.of_nat (List.length (v :: w :: rest))) in Hr.
    destruct (index_fraction i (len (v :: w :: rest) - 1) (length a)) as [B0 B1].
    + lia.
    + rewrite <- len_pred, <- Zle_Qle. lia.
    + rewrite <- len_pred. apply inject_Z_pos. cbn [List.length]. lia.
    + exact HL.
    + lra.
Qed.

Lemma y_place_within (lo hi u y0 L : Q) :
  (lo < hi)%Q -> (0 <= L)%Q -> (lo <= u)%Q -> (u <= hi)%Q ->
  (y0 <= y0 + L * (1 - (u - lo) / (hi - lo)))%Q
  /\ (y0 + L * (1 - (u - lo) / (hi - lo)) <= y0 + L)%Q.
Proof.
  intros Hspan HL H1 H2.
  pose proof (scaled_mono lo hi lo u Hspan H1) as M1.
  pose proof (scaled_mono lo hi u hi Hspan H2) as M2.
  assert (E0 : ((lo - lo) / (hi - lo) == 0)%Q) by (field; lra).
  assert (E1 : ((hi - lo) / (hi - lo) == 1)%Q) by (field; lra).
  rewrite E0 in M1. rewrite E1 in M2.
  set (p := ((u - lo) / (hi - lo))%Q) in *.
  assert (A : (0 <= L * (1 - p))%Q) by (apply Qmult_le_0_compat; lra).
  assert (B : (L * (1 - p) <= L * 1)%Q).
  { rewrite !(Qmult_comm L). apply Qmult_le_compat_r; lra. }
  lra.
Qed.

Lemma choose_number_of_concat (ll : list (list value)) (l : list value) (u : Q) :
  In l ll -> In u (choose number_of l) -> In u (choose number_of (List.concat ll)).
Proof.
  intros Hl Hu. apply choose_number_of_In in Hu. destruct Hu as [v [Hv Hn]].
  apply (number_of_In_choose _ v u); [|exact Hn].
  apply in_concat. exists l. split; assumption.
Qed.

(** X26. In a chart built from non-negative numeric y values, with margins
    that leave room for the axes, every point of every series lies inside
    the rectangle of the axes: between [x_margin] and [width - x_margin]
    across, and between [y_margin] and [height - y_margin] down. *)
Theorem SimpleLineChart_points_inside (x_values : list value)
    (y_values : list (list value)) (y_names : option (list string))
    (x_max_ticks y_max_ticks : Z) (x_margin y_margin height width : Q)
    (x_labels y_labels : tick -> string) (c : Chart) :
  SimpleLineChart_init x_values y_values y_names x_max_ticks y_max_ticks
    x_margin y_margin height width x_labels y_labels = Ok c ->
  0 < y_max_ticks ->
  forallb is_number (List.concat y_values) = true ->
  (forall u, In u (choose number_of (List.concat y_values)) -> (0 <= u)%Q) ->
  (0 <= width - 2 * x_margin)%Q ->
  (0 <= height - 2 * y_margin)%Q ->
  Forall (fun ns =>
            Forall (fun p => (x_margin <= x p)%Q /\ (x p <= width - x_margin)%Q
                             /\ (y_margin <= y p)%Q /\ (y p <= height - y_margin)%Q)
              (points (snd ns)))
    (series c).
Proof.
  intros H Hmy Hyn Hyp Hw Hh.
  set (inside := fun p : Point =>
                   (x_margin <= x p)%Q /\ (x p <= width - x_margin)%Q
                   /\ (y_margin <= y p)%Q /\ (y p <= height - y_margin)%Q).
  assert (Hys : (2 <= List.length (set_of (List.concat y_values)))%nat).
  { destruct (Nat.le_gt_cases (List.length (set_of (List.concat y_values))) 1)
      as [L|L]; [|lia].
    unfold SimpleLineChart_init, YAxis_init, Axis_init in H.
    rewrite get_limits_few_values in H by exact L. discriminate H. }
  destruct (get_limits_nonneg_bracket _ _ Hmy Hyn Hys Hyp) as [ty [tys [Ey [Ly [Sy By]]]]].
  unfold SimpleLineChart_init in H. cbv zeta in H.
  rewrite (YAxis_init_run _ _ _ _ _ _ _ _ _ Ey Ly) in H. cbn [bind] in H.
  destruct (XAxis_init _ _ _ _ _ _ _ _) as [xa|e] eqn:Hxa; cbn [bind] in H; [|discriminate].
  destruct (XAxis_init_shape _ _ _ _ _ _ _ _ _ Hxa) as [Hxp Hxl].
  match type of H with
  | context [build_series _ ?ya0 _ _ _] => set (ya := ya0) in H
  end.
  destruct (build_series xa ya x_values _ y_values) as [ser|e] eqn:Hb; cbn [bind] in H;
    [|discriminate].
  destruct (assign_colours ser) as [ser'|e] eqn:E; cbn [bind] in H; [|discriminate].
  inversion H. cbn [series]. clear H.
  assert (Hser : Forall (fun ns => Forall inside (points (snd ns))) ser).
  { revert Hb. unfold build_series.
    apply (for_each_invariant_In
             (fun d : dict SimpleLineSeries =>
                Forall (fun ns => Forall inside (points (snd ns))) d)); [|constructor].
    intros d [n yv] d' Hin Hd Hstep.
    apply in_combine_r in Hin.
    destruct (SimpleXAxis_get_positions xa x_values) as [xs|e] eqn:Hxs; cbn [bind] in Hstep;
      [|discriminate].
    cbn [snd fst] in Hstep.
    rewrite (YAxis_get_positions_run ya ty tys yv eq_refl Sy
               (forallb_concat _ _ _ Hyn Hin)) in Hstep.
    cbn [bind] in Hstep.
    destruct (SimpleLineSeries_init _) as [s|e] eqn:Hs; cbn [bind] in Hstep; [|discriminate].
    injection Hstep as <-.
    apply (dict_set_Forall (fun s => Forall inside (points s))); [exact Hd|].
    destruct (SimpleLineSeries_init_ok _ _ Hs) as [Hp _]. rewrite Hp.
    pose proof (SimpleXAxis_get_positions_within xa x_values xs Hxs) as Bx.
    rewrite Hxp, Hxl in Bx. cbn [x] in Bx. specialize (Bx Hw).
    rewrite Forall_forall in Bx.
    apply Forall_forall. intros p Hp'.
    apply in_map_iff in Hp'. destruct Hp' as [[px py] [<- Hpp]].
    pose proof (in_combine_l _ _ _ _ Hpp) as Hpx.
    pose proof (in_combine_r _ _ _ _ Hpp) as Hpy.
    destruct (Bx px Hpx) as [Bx1 Bx2].
    apply in_map_iff in Hpy. destruct Hpy as [u [<- Hu]].
    destruct (By u (choose_number_of_concat _ _ _ Hin Hu)) as [B1 B2].
    destruct (y_place_within (q_min ty tys) (q_max ty tys) u
                (y (position (Axis_shape ya))) (length ya) Sy Hh B1 B2) as [By1 By2].
    unfold inside. cbn [x y fst snd].
    set (py := (y (position (Axis_shape ya))
                + length ya * (1 - (u - q_min ty tys) / (q_max ty tys - q_min ty tys)))%Q)
      in *.
    change (y (position (Axis_shape ya))) with y_margin in By1, By2.
    change (length ya) with (height - 2 * y_margin)%Q in By2.
    clearbody py.
    split; [exact Bx1|]. split; [lra|]. split; [exact By1|]. lra. }
  pose proof (assign_colours_points _ _ E) as Hp.
  assert (Hmap : Forall (fun kp : string * list Point => Forall inside (snd kp))
                   (map (fun ns => (fst ns, points (snd ns))) ser)).
  { rewrite Forall_map. exact Hser. }
  rewrite <- Hp, Forall_map in Hmap. exact Hmap.
Qed.

Lemma SimpleLineChart_points_inside_witness :
  Forall (fun ns =>
            Forall (fun p => (100 <= x p)%Q /\ (x p <= 800 - 100)%Q
                             /\ (100 <= y p)%Q /\ (y p <= 600 - 100)%Q)
              (points (snd ns)))
    (series chart_named).
Proof.
  apply (SimpleLineChart_points_inside sample_x_values sample_y_values
           (Some ["a"; "b"]%string) 12 12 100 100 600 800 sample_label sample_label
           chart_named).
  - exact chart_named_built.
  - lia.
  - reflexivity.
  - intros u Hu. cbn in Hu.
    repeat (destruct Hu as [<-|Hu]; [discriminate|]). destruct Hu.
  - vm_compute. discriminate.
  - vm_compute. discriminate.
Defined.

(** ** The x axis of a [SimpleLineChart] *)

(** Non-negative numbers with two distinct elements lie strictly below
    the largest limit. *)
Lemma get_limits_nonneg_above (values : list value) (max_ticks : Z) :
  0 < max_ticks ->
  forallb is_number values = true ->
  (2 <= List.length (set_of values))%nat ->
  (forall q, In q (choose number_of values) -> (0 <= q)%Q) ->
  exists (t0 : Q) (ts : list Q),
    get_limits values max_ticks = Ok (map TNum (t0 :: ts))
    /\ (2 <= List.length (map TNum (t0 :: ts)))%nat
    /\ (q_min t0 ts < q_max t0 ts)%Q
    /\ (forall u, In u (choose number_of values) -> (u < q_max t0 ts)%Q).
Proof.
  intros Hm Hnum Hset Hpos.
  destruct values as [|w values]; [cbn in Hset; lia|].
  assert (Hw : is_number w = true)
    by (cbn [forallb] in Hnum; apply andb_true_iff in Hnum; tauto).
  destruct (choose number_of (w :: values)) as [|v vs] eqn:Hch.
  { cbn [choose] in Hch. unfold is_number in Hw.
    destruct (number_of w); discriminate. }
  pose proof (distinct_numbers_min_lt_max _ _ _ Hnum Hset Hch) as Hlt.
  assert (Hlo : (0 <= q_min v vs)%Q) by (apply Hpos, q_min_In).
  destruct (get_numeric_limits_nonneg v vs max_ticks Hm Hlo Hlt)
    as (pad & start & end_ & Hpad & Hse & Heq & _ & _ & _ & Hlen & Htop).
  rewrite get_limits_numeric;
    [|apply Z.leb_gt; lia|apply (forallb_false_In _ _ w); [left; reflexivity|
                           apply number_not_datelike; exact Hw]|exact Hnum].
  rewrite Hch, Heq. cbn [bind].
  remember (map (fun j => (inject_Z j * pad)%Q) (range start (end_ + 1))) as ticks
    eqn:Et.
  assert (Hn : List.length ticks = List.length (range start (end_ + 1))).
  { rewrite Et, length_map. reflexivity. }
  destruct ticks as [|t0 ts]; [cbn in Hn; lia|].
  destruct (ticks_min_max pad start end_ t0 ts Hpad Hse (eq_sym Et)) as [Elo Ehi].
  exists t0, ts. split; [reflexivity|].
  split; [rewrite length_map, Hn; exact Hlen|].
  split.
  - rewrite Elo, Ehi. apply Qmult_lt_compat_r; [exact Hpad|].
    rewrite <- Zlt_Qlt. exact Hse.
  - intros u Hu. rewrite Ehi.
    pose proof (q_max_ge vs v u Hu) as Hmax. lra.
Qed.

(** X28. On the x axis of a [SimpleLineChart] built from non-negative
    numbers, [max(limits)] is strictly larger than every x value, and the
    axis scale places it at the right end of the axis; yet
    [SimpleXAxis.get_positions] draws the last x value at that same right
    end: the points are spread by their index and do not follow the scale
    of the tick labels. *)
Theorem SimpleXAxis_last_value_at_last_tick (x_position y_position : Q)
    (x_values : list value) (axis_length : Q) (label_format : tick -> string)
    (max_ticks : Z) (axis_styles : option (dict string)) (tick_length : Q) :
  0 < max_ticks ->
  forallb is_number x_values = true ->
  (2 <= List.length (set_of x_values))%nat ->
  (forall u, In u (choose number_of x_values) -> (0 <= u)%Q) ->
  exists (a : Axis) (top h : Q) (xs : list Q) (p : Q),
    XAxis_init x_position y_position x_values axis_length label_format max_ticks
      axis_styles tick_length = Ok a
    /\ tick_max (limits a) = Ok (TNum top)
    /\ (forall u, In u (choose number_of x_values) -> (u < top)%Q)
    /\ XAxis_get_positions a [VFloat top] = Ok [h]
    /\ (h == x_position + axis_length)%Q
    /\ SimpleXAxis_get_positions a x_values = Ok xs
    /\ nth_error xs (List.length x_values - 1) = Some p
    /\ (p == x_position + axis_length)%Q.
Proof.
  intros Hm Hnum Hset Hpos.
  destruct (get_limits_nonneg_above x_values max_ticks Hm Hnum Hset Hpos)
    as [t0 [ts [Heq [Hl2 [Hspan Habove]]]]].
  assert (Hlen : (2 <= List.length x_values)%nat).
  { pose proof (set_of_length_le x_values). lia. }
  pose proof (span_nonzero _ _ Hspan) as Hd.
  eexists. exists (q_max t0 ts). eexists. eexists. eexists.
  split; [apply (XAxis_init_run _ _ _ _ _ _ _ _ _ Heq Hl2)|].
  split; [cbn [extend_ticks limits map tick_max]; apply tick_max_from_numbers|].
  split; [exact Habove|].
  split.
  { match goal with
    | |- XAxis_get_positions ?a0 _ = _ =>
        rewrite (XAxis_get_positions_run a0 t0 ts [VFloat (q_max t0 ts)] eq_refl Hspan
                   eq_refl)
    end.
    reflexivity. }
  split.
  { cbn [extend_ticks Axis_shape Shape_init position x length]. field. exact Hd. }
  split.
  { apply SimpleXAxis_get_positions_run. exact Hlen. }
  split.
  { rewrite nth_error_map, range_nth_error by lia. reflexivity. }
  cbn [extend_ticks Axis_shape Shape_init position x length].
  rewrite Z.add_0_l, Nat2Z.inj_sub by lia.
  change (Z.of_nat 1) with 1. rewrite len_pred.
  field. apply len_minus_1_nonzero. exact Hlen.
Qed.

Lemma SimpleXAxis_last_value_at_last_tick_witness :
  exists (a : Axis) (top h : Q) (xs : list Q) (p : Q),
    XAxis_init 100 500 sample_x_values 600 sample_label 12 None 5 = Ok a
    /\ tick_max (limits a) = Ok (TNum top)
    /\ (forall u, In u (choose number_of sample_x_values) -> (u < top)%Q)
    /\ XAxis_get_positions a [VFloat top] = Ok [h]
    /\ (h == 100 + 600)%Q
    /\ SimpleXAxis_get_positions a sample_x_values = Ok xs
    /\ nth_error xs (List.length sample_x_values - 1) = Some p
    /\ (p == 100 + 600)%Q.
Proof.
  apply (SimpleXAxis_last_value_at_last_tick 100 500 sample_x_values 600 sample_label
           12 None 5).
  - lia.
  - reflexivity.
  - vm_compute. lia.
  - intros u Hu. cbn in Hu.
    repeat (destruct Hu as [<-|Hu]; [discriminate|]). destruct Hu.
Defined.

(** ** The length of a path *)

Section PathLengthProperties.

Import Reals Qreals.
Local Open Scope R_scope.

Lemma segment_length_dist (p1 p2 : Point) :
  segment_length p1 p2
  = Rgeom.dist_euc (Q2R (x p2)) (Q2R (y p2)) (Q2R (x p1)) (Q2R (y p1)).
Proof.
  unfold segment_length, Rgeom.dist_euc. f_equal.
  rewrite Q2R_plus. unfold Qpower, Qpower_positive. cbn [pow_pos Pos.iter_op].
  rewrite !Q2R_mult, !Q2R_minus. unfold Rsqr. reflexivity.
Qed.

Lemma segment_length_triangle (p q r : Point) :
  segment_length p r <= segment_length p q + segment_length q r.
Proof.
  rewrite !segment_length_dist. rewrite Rplus_comm. apply Rgeom.triangle.
Qed.

Lemma segment_length_same (p : Point) : segment_length p p = 0.
Proof.
  rewrite segment_length_dist. unfold Rgeom.dist_euc.
  rewrite !Rminus_diag. rewrite Rsqr_0, Rplus_0_l. apply sqrt_0.
Qed.

Lemma last_cons_default {A : Type} (l : list A) (a b : A) :
  last (a :: l) b = last l a.
Proof.
  revert a b. induction l as [|c l IH]; intros a b; [reflexivity|].
  change (last (a :: c :: l) b) with (last (c :: l) b).
  rewrite (IH c b), (IH c a). reflexivity.
Qed.

Lemma path_sum_chord (l : list Point) :
  forall (p : Point) (acc : R),
    acc + segment_length p (last l p)
    <= fold_left Rplus
         (map (fun pp => segment_length (fst pp) (snd pp)) (combine (p :: l) l)) acc.
Proof.
  induction l as [|q l IH]; intros p acc.
  - cbn [last combine map fold_left]. rewrite segment_length_same, Rplus_0_r.
    apply Rle_refl.
  - cbn [combine map fold_left fst snd].
    eapply Rle_trans; [|apply IH].
    rewrite last_cons_default, Rplus_assoc.
    apply Rplus_le_compat_l. apply segment_length_triangle.
Qed.

(** X25. [path_length] of a series with one or two points is 0, also when
    the two points are apart; with three points or more it is at least
    the straight-line distance from the first point to the last. *)
Theorem path_length_chord (s : SimpleLineSeries) (p0 : Point) (rest : list Point) :
  points s = p0 :: rest ->
  ((List.length rest <= 1)%nat -> path_length s = 0)
  /\ ((2 <= List.length rest)%nat ->
      segment_length p0 (last rest p0) <= path_length s).
Proof.
  intros H. unfold path_length. rewrite H. cbn [List.length tl]. split; intros Hn.
  - replace (2 <? S (List.length rest))%nat with false
      by (symmetry; apply Nat.ltb_ge; lia).
    reflexivity.
  - replace (2 <? S (List.length rest))%nat with true
      by (symmetry; apply Nat.ltb_lt; lia).
    rewrite <- (Rplus_0_l (segment_length p0 (last rest p0))).
    apply path_sum_chord.
Qed.

Lemma path_length_chord_witness :
  ((List.length [mkPoint 700 100] <= 1)%nat -> path_length sample_series_a = 0)
  /\ ((2 <= List.length [mkPoint 700 100])%nat ->
      segment_length (mkPoint 100 500) (last [mkPoint 700 100] (mkPoint 100 500))
      <= path_length sample_series_a).
Proof.
  apply (path_length_chord sample_series_a (mkPoint 100 500) [mkPoint 700 100]).
  reflexivity.
Defined.

End PathLengthProperties.
